(** * Query records of the 4CAT backend: [backend/lib/query.py]

    A shallow embedding of the [SearchQuery] class and of the part of the
    [Database] wrapper it calls, followed by the properties of the query
    life cycle: key generation, resolve-or-create, completion, result-file
    reservation and the finished check.

    Conventions.
    - A Python [str] is a Rocq [string]; each character stands for the code
      point of the same number (0..255).
    - A Python [dict] with string keys is a [gmap string _]; a missing key
      raises [KeyError] as in Python.
    - Methods run in a small state-and-exception monad over the object, the
      relational store and the result directory.
    - The store is an ideal one: it holds every string, has no uniqueness
      constraint on [queries], and answers a lookup with the oldest
      matching row.  The source's [SELECT] has no [ORDER BY], so which of
      several matching rows a store answers with is its own choice: a
      statement that must not depend on it assumes one matching row and is
      proved for every order of the rows. *)

From Stdlib Require Import ZArith NArith Ascii String List Lia.
From stdpp Require Import base decidable option list gmap strings pretty.

Local Open Scope string_scope.
Local Open Scope list_scope.
Local Open Scope Z_scope.

(** ** Strings as Python uses them *)

Module Str.

Definition code (c : ascii) : Z := Z.of_N (N_of_ascii c).
Definition chr (z : Z) : ascii := ascii_of_N (Z.to_N z).

Fixpoint map (f : ascii -> ascii) (s : string) : string :=
  match s with
  | EmptyString => EmptyString
  | String c s' => String (f c) (map f s')
  end.

Fixpoint filter (p : ascii -> bool) (s : string) : string :=
  match s with
  | EmptyString => EmptyString
  | String c s' => if p c then String c (filter p s') else filter p s'
  end.

Fixpoint existsb (p : ascii -> bool) (s : string) : bool :=
  match s with
  | EmptyString => false
  | String c s' => p c || existsb p s'
  end.

Fixpoint forallb (p : ascii -> bool) (s : string) : bool :=
  match s with
  | EmptyString => true
  | String c s' => p c && forallb p s'
  end.

Fixpoint flat_map (f : ascii -> string) (s : string) : string :=
  match s with
  | EmptyString => EmptyString
  | String c s' => f c +:+ flat_map f s'
  end.

Definition between (lo hi : Z) (c : ascii) : bool :=
  (lo <=? code c) && (code c <=? hi).

(** [str.lower()]: A-Z, and the upper-case letters of the Latin-1 block
    (all of 0xC0..0xDE but the multiplication sign 0xD7), move 32 up. *)
Definition lower_char (c : ascii) : ascii :=
  if between 65 90 c then chr (code c + 32)
  else if between 192 222 c && negb (code c =? 215) then chr (code c + 32)
  else c.

Definition lower : string -> string := map lower_char.

(** [s.replace(old, new)] for one-character [old] and [new]. *)
Definition replace (old new : ascii) : string -> string :=
  map (fun c => if Ascii.eqb c old then new else c).

(** [s.split(sep)] for a one-character separator: never the empty list. *)
Fixpoint split (sep : ascii) (s : string) : list string :=
  match s with
  | EmptyString => [EmptyString]
  | String c s' =>
      if Ascii.eqb c sep then EmptyString :: split sep s'
      else match split sep s' with
           | h :: t => String c h :: t
           | [] => [String c EmptyString]
           end
  end.

(** [", ".join(l)] and friends. *)
Fixpoint join (sep : string) (l : list string) : string :=
  match l with
  | [] => ""
  | [x] => x
  | x :: l' => x +:+ sep +:+ join sep l'
  end.

(** Lower-case hexadecimal digits. *)
Definition hex_digit (x : Z) : ascii :=
  nth (Z.to_nat (x mod 16))
      (list_ascii_of_string "0123456789abcdef") "0"%char.

Definition hex_byte (b : Z) : string :=
  String (hex_digit (b / 16)) (String (hex_digit b) EmptyString).

Definition is_hex_digit (c : ascii) : bool :=
  between 48 57 c || between 97 102 c.

(** [s.encode("utf-8")] on code points below 256: one byte below 128,
    two bytes from there on. *)
Definition utf8_char (c : ascii) : list Z :=
  if code c <? 128 then [code c]
  else [Z.lor 192 (Z.shiftr (code c) 6); Z.lor 128 (Z.land (code c) 63)].

Fixpoint encode_utf8 (s : string) : list Z :=
  match s with
  | EmptyString => []
  | String c s' => utf8_char c ++ encode_utf8 s'
  end.

End Str.

(** ** MD5 ([hashlib.md5]), after RFC 1321 *)

Module MD5.

Definition w32 (x : Z) : Z := x mod 2 ^ 32.
Definition add32 (x y : Z) : Z := w32 (x + y).
Definition not32 (x : Z) : Z := Z.lxor x 0xffffffff.
Definition rotl32 (x c : Z) : Z :=
  w32 (Z.lor (Z.shiftl x c) (Z.shiftr x (32 - c))).

Definition K : list Z :=
  [ 0xd76aa478; 0xe8c7b756; 0x242070db; 0xc1bdceee;
    0xf57c0faf; 0x4787c62a; 0xa8304613; 0xfd469501;
    0x698098d8; 0x8b44f7af; 0xffff5bb1; 0x895cd7be;
    0x6b901122; 0xfd987193; 0xa679438e; 0x49b40821;
    0xf61e2562; 0xc040b340; 0x265e5a51; 0xe9b6c7aa;
    0xd62f105d; 0x02441453; 0xd8a1e681; 0xe7d3fbc8;
    0x21e1cde6; 0xc33707d6; 0xf4d50d87; 0x455a14ed;
    0xa9e3e905; 0xfcefa3f8; 0x676f02d9; 0x8d2a4c8a;
    0xfffa3942; 0x8771f681; 0x6d9d6122; 0xfde5380c;
    0xa4beea44; 0x4bdecfa9; 0xf6bb4b60; 0xbebfbc70;
    0x289b7ec6; 0xeaa127fa; 0xd4ef3085; 0x04881d05;
    0xd9d4d039; 0xe6db99e5; 0x1fa27cf8; 0xc4ac5665;
    0xf4292244; 0x432aff97; 0xab9423a7; 0xfc93a039;
    0x655b59c3; 0x8f0ccc92; 0xffeff47d; 0x85845dd1;
    0x6fa87e4f; 0xfe2ce6e0; 0xa3014314; 0x4e0811a1;
    0xf7537e82; 0xbd3af235; 0x2ad7d2bb; 0xeb86d391 ].

Definition S : list Z :=
  [ 7; 12; 17; 22; 7; 12; 17; 22; 7; 12; 17; 22; 7; 12; 17; 22;
    5; 9; 14; 20; 5; 9; 14; 20; 5; 9; 14; 20; 5; 9; 14; 20;
    4; 11; 16; 23; 4; 11; 16; 23; 4; 11; 16; 23; 4; 11; 16; 23;
    6; 10; 15; 21; 6; 10; 15; 21; 6; 10; 15; 21; 6; 10; 15; 21 ].

Record regs := Regs { rA : Z; rB : Z; rC : Z; rD : Z }.

Definition init : regs :=
  Regs 0x67452301 0xefcdab89 0x98badcfe 0x10325476.

(** The [j]-th little-endian word of a 64-byte block. *)
Definition word (block : list Z) (j : Z) : Z :=
  let b k := nth (Z.to_nat (4 * j + k)) block 0 in
  b 0 + Z.shiftl (b 1) 8 + Z.shiftl (b 2) 16 + Z.shiftl (b 3) 24.

Definition step (block : list Z) (r : regs) (i : nat) : regs :=
  let '(Regs a b c d) := r in
  let iz := Z.of_nat i in
  let '(f, g) :=
    if iz <? 16 then (Z.lor (Z.land b c) (Z.land (not32 b) d), iz)
    else if iz <? 32 then
      (Z.lor (Z.land d b) (Z.land (not32 d) c), (5 * iz + 1) mod 16)
    else if iz <? 48 then (Z.lxor b (Z.lxor c d), (3 * iz + 5) mod 16)
    else (Z.lxor c (Z.lor b (not32 d)), (7 * iz) mod 16) in
  let f' := add32 (add32 (add32 f a) (nth i K 0)) (word block g) in
  Regs d (add32 b (rotl32 f' (nth i S 0))) b c.

Definition compress (r : regs) (block : list Z) : regs :=
  let r' := fold_left (step block) (seq 0 64) r in
  Regs (add32 (rA r) (rA r')) (add32 (rB r) (rB r'))
       (add32 (rC r) (rC r')) (add32 (rD r) (rD r')).

(** [n] as [k] little-endian bytes. *)
Fixpoint le_bytes (k : nat) (n : Z) : list Z :=
  match k with
  | O => []
  | Datatypes.S k' => n mod 256 :: le_bytes k' (n / 256)
  end.

(** Padding: a 1 bit, zeros up to 56 modulo 64, the bit length on 64 bits. *)
Definition pad (msg : list Z) : list Z :=
  let len := Z.of_nat (length msg) in
  let zeros := Z.to_nat ((55 - len) mod 64) in
  msg ++ [128] ++ repeat 0 zeros ++ le_bytes 8 ((8 * len) mod 2 ^ 64).

(** Cut a byte sequence in 64-byte blocks, keeping the bytes read so far
    in [cur]. *)
Fixpoint blocks (cur : list Z) (bs : list Z) : list (list Z) :=
  match bs with
  | [] => []
  | b :: bs' =>
      let cur' := cur ++ [b] in
      if (length cur' =? 64)%nat then cur' :: blocks [] bs'
      else blocks cur' bs'
  end.

Definition digest (msg : list Z) : regs :=
  fold_left compress (blocks [] (pad msg)) init.

Definition hex_word (w : Z) : string :=
  Str.hex_byte (w mod 256) +:+ Str.hex_byte (w / 256 mod 256) +:+
  Str.hex_byte (w / 65536 mod 256) +:+ Str.hex_byte (w / 16777216 mod 256).

(** [hashlib.md5(msg).hexdigest()] *)
Definition hexdigest (msg : list Z) : string :=
  let r := digest msg in
  hex_word (rA r) +:+ hex_word (rB r) +:+ hex_word (rC r) +:+ hex_word (rD r).

End MD5.

(** ** Python values *)

Set Warnings "-register-all".

(** Parameter documents: what [repr] and [json.dumps] are applied to.  A
    [dict] keeps its items in insertion order. *)
Inductive pyval :=
| PNone
| PBool (b : bool)
| PInt (z : Z)
| PStr (s : string)
| PList (l : list pyval)
| PDict (items : list (string * pyval)).

(** Column values of a stored row, and of [self.data]. *)
Inductive val :=
| VNone
| VBool (b : bool)
| VInt (z : Z)
| VStr (s : string).

Global Instance val_eq_dec : EqDecision val.
Proof. solve_decision. Defined.

Abbreviation row := (gmap string val).

Definition truthy (v : val) : bool :=
  match v with
  | VNone => false
  | VBool b => b
  | VInt z => negb (z =? 0)
  | VStr s => negb (String.eqb s "")
  end.

Definition dict_truthy (d : row) : bool := negb (bool_decide (d = ∅)).

Module Py.

Definition dquote : ascii := Str.chr 34.
Definition squote : ascii := Str.chr 39.
Definition backslash : ascii := Str.chr 92.

(** [repr] of one character of a string quoted with [q]. *)
Definition repr_char (q c : ascii) : string :=
  let n := Str.code c in
  if Ascii.eqb c q || (n =? 92) then String backslash (String c "")
  else if n =? 9 then "\t"
  else if n =? 10 then "\n"
  else if n =? 13 then "\r"
  else if (n <? 32) || (n =? 127) then "\x" +:+ Str.hex_byte n
  else if n <? 127 then String c ""
  else if (n <=? 160) || (n =? 173) then "\x" +:+ Str.hex_byte n
  else String c "".

(** [repr(s)]: double quotes when [s] has a single quote and no double
    quote, single quotes otherwise. *)
Definition repr_str (s : string) : string :=
  let q := if Str.existsb (Ascii.eqb squote) s
              && negb (Str.existsb (Ascii.eqb dquote) s)
           then dquote else squote in
  String q (Str.flat_map (repr_char q) s) +:+ String q "".

Fixpoint repr (v : pyval) : string :=
  match v with
  | PNone => "None"
  | PBool true => "True"
  | PBool false => "False"
  | PInt z => pretty z
  | PStr s => repr_str s
  | PList l => "[" +:+ Str.join ", " (List.map repr l) +:+ "]"
  | PDict items =>
      "{" +:+ Str.join ", "
        (List.map (fun kv => repr_str (fst kv) +:+ ": " +:+ repr (snd kv))
                  items) +:+ "}"
  end.

(** [json.dumps] with its defaults ([ensure_ascii], separators [", "] and
    [": "]). *)
Definition json_char (c : ascii) : string :=
  let n := Str.code c in
  if (n =? 34) || (n =? 92) then String backslash (String c "")
  else if n =? 10 then "\n"
  else if n =? 13 then "\r"
  else if n =? 9 then "\t"
  else if n =? 12 then "\f"
  else if n =? 8 then "\b"
  else if (32 <=? n) && (n <=? 126) then String c ""
  else "\u00" +:+ Str.hex_byte n.

Definition json_str (s : string) : string :=
  String dquote (Str.flat_map json_char s) +:+ String dquote "".

Fixpoint json_dumps (v : pyval) : string :=
  match v with
  | PNone => "null"
  | PBool true => "true"
  | PBool false => "false"
  | PInt z => pretty z
  | PStr s => json_str s
  | PList l => "[" +:+ Str.join ", " (List.map json_dumps l) +:+ "]"
  | PDict items =>
      "{" +:+ Str.join ", "
        (List.map (fun kv => json_str (fst kv) +:+ ": " +:+ json_dumps (snd kv))
                  items) +:+ "}"
  end.

End Py.

(** ** The environment of the class

    What [query.py] takes from outside the class: the data folder
    ([get_absolute_folder(config.PATH_DATA)]), the columns the [queries]
    table fills in by itself on insert (its schema is not part of the
    sources), and the parser behind [json.loads], with [None] for a
    [json.JSONDecodeError]. *)
Class Environment := {
  folder : string;
  column_defaults : row;
  json_loads : string -> option pyval;
}.

(** ** The relational store ([backend/lib/database.py])

    The [queries] table is the list of its rows, oldest first.  A [where]
    dictionary is a conjunction of [column = value] tests. *)
Module Database.

(** SQL equality of a stored column with a query argument: a missing or
    NULL column, and a NULL argument, never compare equal. *)
Definition sql_eq (stored : option val) (v : val) : bool :=
  match stored, v with
  | None, _ | Some VNone, _ | _, VNone => false
  | Some x, _ => bool_decide (x = v)
  end.

Definition matches (where_ r : row) : bool :=
  bool_decide (map_Forall (fun c v => sql_eq (r !! c) v = true) where_).

(** [fetchone("SELECT * FROM queries WHERE ...")]: the first row, or
    [None]. *)
Definition fetchone (table : list row) (where_ : row) : option row :=
  List.find (matches where_) table.

(** [insert("queries", data)]: the new table and the row count. *)
Definition insert `{Environment} (table : list row) (data : row)
  : list row * Z :=
  (table ++ [data ∪ column_defaults], 1).

(** [update("queries", data, where)]: the new table and the number of
    affected rows. *)
Definition update (table : list row) (data where_ : row) : list row * Z :=
  (List.map (fun r => if matches where_ r then data ∪ r else r) table,
   Z.of_nat (length (List.filter (matches where_) table))).

End Database.

(** ** Objects, the world and the monad of methods *)

Inductive exn :=
| TypeError (msg : string)
| RuntimeError (msg : string)
| KeyError (key : string)
| AttributeError (msg : string).

(** The attributes of a [SearchQuery] object. *)
Record object := Object {
  self_key : val;
  self_query : val;
  self_data : row;
}.

(** The object a method runs on, the store and the regular files that
    exist (by full path). *)
Record world := World {
  self : object;
  db : list row;
  files : gset string;
}.

(** A call returns, raises, or (for the probing loop only) runs out of
    fuel; an exception keeps the state reached when it was raised. *)
Inductive outcome (A : Type) :=
| Ok (a : A) (w : world)
| Raise (e : exn) (w : world)
| Diverge.
Arguments Ok {A} a w.
Arguments Raise {A} e w.
Arguments Diverge {A}.

Definition M (A : Type) : Type := world -> outcome A.

Global Instance M_ret : MRet M := fun A a w => Ok a w.
Global Instance M_bind : MBind M := fun A B f m w =>
  match m w with
  | Ok a w' => f a w'
  | Raise e w' => Raise e w'
  | Diverge => Diverge
  end.

Definition raise {A} (e : exn) : M A := fun w => Raise e w.
Definition get_world : M world := fun w => Ok w w.
Definition put_self (o : object) : M unit :=
  fun w => Ok tt (World o (db w) (files w)).
Definition put_db (t : list row) : M unit :=
  fun w => Ok tt (World (self w) t (files w)).

(** [d[k]] *)
Definition getitem (d : row) (k : string) : M val :=
  match d !! k with
  | Some v => mret v
  | None => raise (KeyError k)
  end.

(** [self.data[k]] and [self.data[k] = v] *)
Definition data_get (k : string) : M val :=
  w ← get_world; getitem (self_data (self w)) k.
Definition data_set (k : string) (v : val) : M unit :=
  w ← get_world;
  put_self (Object (self_key (self w)) (self_query (self w))
                   (<[k := v]> (self_data (self w)))).

(** [self.key = v], [self.query = v], [self.data = d] *)
Definition set_key (v : val) : M unit :=
  w ← get_world;
  put_self (Object v (self_query (self w)) (self_data (self w))).
Definition set_query (v : val) : M unit :=
  w ← get_world;
  put_self (Object (self_key (self w)) v (self_data (self w))).
Definition set_data (d : row) : M unit :=
  w ← get_world;
  put_self (Object (self_key (self w)) (self_query (self w)) d).

(** [self.db.fetchone], [self.db.insert] and [self.db.update] *)
Definition db_fetchone (where_ : row) : M (option row) :=
  w ← get_world; mret (Database.fetchone (db w) where_).
Definition db_insert `{Environment} (data : row) : M Z :=
  w ← get_world;
  let '(t, n) := Database.insert (db w) data in
  put_db t;; mret n.
Definition db_update (data where_ : row) : M Z :=
  w ← get_world;
  let '(t, n) := Database.update (db w) data where_ in
  put_db t;; mret n.

(** [os.path.isfile] *)
Definition isfile (path : string) : M bool :=
  w ← get_world; mret (bool_decide (path ∈ files w)).

(** A string operand: [s.replace] on anything else is an
    [AttributeError], [+] with a string a [TypeError]. *)
Definition as_str_receiver (v : val) : M string :=
  match v with
  | VStr s => mret s
  | _ => raise (AttributeError "object has no attribute 'replace'")
  end.
Definition as_str_operand (v : val) : M string :=
  match v with
  | VStr s => mret s
  | _ => raise (TypeError "can only concatenate str to str")
  end.

(** ** The class [SearchQuery] ([backend/lib/query.py]) *)

Module SearchQuery.

(** [get_key]: MD5 of [repr(parameters) + str(query)], in hexadecimal. *)
Definition get_key (query : string) (parameters : pyval) : string :=
  let plain_key := Py.repr parameters +:+ query in
  MD5.hexdigest (Str.encode_utf8 plain_key).

(** [re.sub(r"[^a-z0-9\-]", "", s)] *)
Definition slug_char (c : ascii) : bool :=
  Str.between 97 122 c || Str.between 48 57 c || (Str.code c =? 45).

(** The candidate path with numeric suffix [index]. *)
Definition numbered `{Environment} (file ext : string) (index : Z) : string :=
  folder +:+ "/" +:+ file +:+ "-" +:+ pretty index +:+ "." +:+ ext.

(** [while os.path.isfile(path): path = ...; index += 1] *)
Fixpoint probe `{Environment} (fuel : nat) (file ext path : string)
    (index : Z) : M string :=
  match fuel with
  | O => fun _ => Diverge
  | S fuel' =>
      taken ← isfile path;
      if (taken : bool)
      then probe fuel' file ext (numbered file ext index) (index + 1)
      else mret path
  end.

Definition reserve_result_file `{Environment} (extension : string) : M bool :=
  fin ← data_get "is_finished";
  if truthy fin
  then raise (RuntimeError "Cannot reserve results file for a finished query")
  else
    q ← data_get "query";
    qs ← as_str_receiver q;
    let query_bit := Str.lower (Str.replace " " "-" qs) in
    let query_bit := Str.filter slug_char query_bit in
    k ← data_get "key";
    ks ← as_str_operand k;
    let file := query_bit +:+ "-" +:+ ks in
    let path := folder +:+ "/" +:+ file +:+ "." +:+ Str.lower extension in
    w ← get_world;
    path ← probe (S (S (size (files w)))) file (Str.lower extension) path 1;
    let file := List.last (Str.split "/" path) "" in
    q' ← data_get "query";
    k' ← data_get "key";
    updated ← db_update {[ "result_file" := VStr file ]}
                        {[ "query" := q'; "key" := k' ]};
    data_set "result_file" (VStr file);;
    mret (0 <? updated).

Definition row_truthy (current : option row) : bool :=
  match current with
  | Some d => dict_truthy d
  | None => false
  end.

Definition opt_str (s : option string) : val :=
  match s with
  | Some x => VStr x
  | None => VNone
  end.

(** The constructor.  [now] is [int(time.time())]. *)
Definition __init__ `{Environment} (query : option string)
    (parameters : pyval) (key : option string) (parent : option string)
    (extension : string) (now : Z) : M unit :=
  current ←
    match key with
    | Some k =>
        set_key (VStr k);;
        current ← db_fetchone {[ "key" := VStr k ]};
        if row_truthy current
        then
          q ← getitem (default ∅ current) "query";
          set_query q;;
          mret current
        else raise (TypeError
          "SearchQuery() requires a valid query key for its 'key' argument")
    | None =>
        match query, parameters with
        | None, _ | _, PNone => raise (TypeError
            "SearchQuery() requires either 'key', or 'parameters' and 'query' to be given")
        | Some q, _ =>
            set_key (VStr (get_key q parameters));;
            set_query (VStr q);;
            db_fetchone {[ "key" := VStr (get_key q parameters);
                           "query" := VStr q ]}
        end
    end;
  if row_truthy current
  then set_data (default ∅ current)
  else
    w ← get_world;
    set_data {[ "key" := self_key (self w);
                "query" := opt_str query;
                "parameters" := VStr (Py.json_dumps parameters);
                "result_file" := VStr "";
                "status" := VStr "";
                "timestamp" := VInt now;
                "is_empty" := VBool false;
                "is_finished" := VBool false ]};;
    match parent with
    | Some p => if String.eqb p "" then mret tt
                else data_set "key_parent" (VStr p)
    | None => mret tt
    end;;
    w ← get_world;
    db_insert (self_data (self w));;
    reserve_result_file extension;;
    mret tt.

Definition check_query_finished `{Environment} : M val :=
  fin ← data_get "is_finished";
  found ←
    (if truthy fin
     then
       rf ← data_get "result_file";
       if truthy rf
       then
         name ← as_str_operand rf;
         isfile (folder +:+ "/" +:+ name)
       else mret false
     else mret false);
  if (found : bool)
  then
    rf ← data_get "result_file";
    name ← as_str_operand rf;
    mret (VStr (folder +:+ "/" +:+ name))
  else
    fin ← data_get "is_finished";
    empty ← (if truthy fin then data_get "is_empty" else mret fin);
    if truthy empty then mret (VStr "empty_file") else mret VNone.

Definition get_results_path `{Environment} : M string :=
  rf ← data_get "result_file";
  name ← as_str_operand rf;
  mret (folder +:+ "/" +:+ name).

Definition get_results_dir `{Environment} : M string := mret folder.

Definition finish (num_rows : Z) : M unit :=
  fin ← data_get "is_finished";
  if truthy fin
  then raise (RuntimeError "Cannot finish a finished query again")
  else
    q ← data_get "query";
    k ← data_get "key";
    db_update {[ "is_finished" := VBool true; "num_rows" := VInt num_rows ]}
              {[ "query" := q; "key" := k ]};;
    data_set "is_finished" (VBool true);;
    data_set "num_rows" (VInt num_rows).

(** [self.data["is_finished"] is True] *)
Definition is_finished : M bool :=
  fin ← data_get "is_finished";
  mret (bool_decide (fin = VBool true)).

Definition get_parameters `{Environment} : M pyval :=
  p ← data_get "parameters";
  match p with
  | VStr s =>
      match json_loads s with
      | Some v => mret v
      | None => mret (PDict [])
      end
  | _ => raise (TypeError "the JSON object must be str, bytes or bytearray")
  end.

Definition get_status : M val := data_get "status".

Definition update_status (status : val) : M bool :=
  data_set "status" status;;
  k ← data_get "key";
  updated ← db_update {[ "status" := status ]} {[ "key" := k ]};
  mret (0 <? updated).

Definition set_empty : M unit :=
  q ← data_get "query";
  k ← data_get "key";
  db_update {[ "is_empty" := VBool true ]} {[ "query" := q; "key" := k ]};;
  mret tt.

(** [SearchQuery(...)]: a fresh object, then [__init__] on it. *)
Definition blank : object := Object VNone VNone ∅.

Definition new `{Environment} (query : option string) (parameters : pyval)
    (key : option string) (parent : option string) (extension : string)
    (now : Z) (store : list row) (fs : gset string) : outcome unit :=
  __init__ query parameters key parent extension now (World blank store fs).

End SearchQuery.

(** ** Vocabulary of the statements *)

Import SearchQuery.

(** The rows that carry a given query text and key. *)
Definition by_query_key (q k : val) : row := {[ "query" := q; "key" := k ]}.

(** The slug of a query text, as [reserve_result_file] computes it, and
    the file names it tries: [slug-key.ext], then [slug-key-n.ext]. *)
Definition slug (query : string) : string :=
  Str.filter slug_char (Str.lower (Str.replace " " "-" query)).

Definition result_name (query key extension : string) (n : option Z) : string :=
  match n with
  | None => slug query +:+ "-" +:+ key +:+ "." +:+ Str.lower extension
  | Some i =>
      slug query +:+ "-" +:+ key +:+ "-" +:+ pretty i +:+ "."
        +:+ Str.lower extension
  end.

Definition in_folder `{Environment} (name : string) : string :=
  folder +:+ "/" +:+ name.

Definition has_slash (s : string) : bool := Str.existsb (Ascii.eqb "/") s.

(** The same parameters, supplied in another order: two dictionaries with
    the same items. *)
Definition reordered (p1 p2 : pyval) : Prop :=
  match p1, p2 with
  | PDict items1, PDict items2 => Permutation items1 items2
  | _, _ => p1 = p2
  end.

Definition board_first : pyval :=
  PDict [("board", PStr "news"); ("min_date", PInt 0)].
Definition board_last : pyval :=
  PDict [("min_date", PInt 0); ("board", PStr "news")].

(** The dictionary the constructor builds for a record that is not in the
    store yet, before the result file is reserved. *)
Definition new_data (query : string) (parameters : pyval)
    (parent : option string) (now : Z) : row :=
  let d : row :=
    {[ "key" := VStr (get_key query parameters);
       "query" := VStr query;
       "parameters" := VStr (Py.json_dumps parameters);
       "result_file" := VStr "";
       "status" := VStr "";
       "timestamp" := VInt now;
       "is_empty" := VBool false;
       "is_finished" := VBool false ]} in
  match parent with
  | Some p => if String.eqb p "" then d else <["key_parent" := VStr p]> d
  | None => d
  end.

(** A record on which the theorems are instantiated: unfinished, stored. *)
Definition sample_data : row :=
  {[ "key" := VStr "k1"; "query" := VStr "cats"; "parameters" := VStr "{}";
     "result_file" := VStr "cats-k1.csv"; "status" := VStr "";
     "timestamp" := VInt 0; "is_empty" := VBool false;
     "is_finished" := VBool false ]}.

Definition sample_world : world :=
  World (Object (VStr "k1") (VStr "cats") sample_data) [sample_data] ∅.


(** An environment for the examples: the parser knows the empty document
    only; the table fills in [num_rows] and [key_parent]. *)
Definition sample_env : Environment :=
  {| folder := "/data";
     column_defaults := {[ "num_rows" := VInt 0; "key_parent" := VStr "" ]};
     json_loads := fun s => if String.eqb s "{}" then Some (PDict []) else None |}.

Definition finished_data : row :=
  <["is_finished" := VBool true]> sample_data.

Definition finished_world : world :=
  World (Object (VStr "k1") (VStr "cats") finished_data) [finished_data] ∅.

(** [finish(0)], then [set_empty()], then [check_query_finished()], on one
    object. *)
Definition finish_empty_check `{Environment} : M val :=
  finish 0;; set_empty;; check_query_finished.

(** The parameters of the scenario ["climate change"]. *)
Definition climate_parameters : pyval :=
  PDict [("board", PStr "news"); ("min_date", PInt 0); ("max_date", PInt 0)].

(** A result folder in which the file [y] exists. *)
Definition files_with_y : gset string := {[ "/data/y" ]}.

(** The sample record in a folder where its first file name is taken. *)
Definition taken_world : world :=
  World (Object (VStr "k1") (VStr "cats") sample_data) [sample_data]
        {[ "/data/cats-k1.csv" ]}.


(** * The rest of the class, its callers and the query builder *)

(** [update_status(first)], then [update_status(second)]. *)
Definition update_status_twice (first second : val) : M bool :=
  update_status first;; update_status second.

(** [reserve_result_file(extension)], then [get_results_path()]. *)
Definition reserve_then_path `{Environment} (extension : string) : M string :=
  reserve_result_file extension;; get_results_path.

(** ** [write_csv_and_finish]

    The argument is a list or a tuple of items, or anything else (a [str]
    included); an item is a dictionary or not.  Of a written file only the
    existence is kept.  The result folder is flat: a file can be opened for
    writing when its name is not empty and has no slash. *)
Inductive csv_item :=
| ItemDict (d : row)
| ItemOther.

Inductive csv_data :=
| DataSeq (items : list csv_item)
| DataOther.

(** What the method can raise beyond the exceptions of the class: its own
    [ValueError], the [OSError] of [open], and the error of
    [DictWriter.writerow] on a row it does not accept. *)
Inductive io_exn :=
| Query (e : exn)
| ValueError (msg : string)
| OSError
| CsvError.

Inductive io_outcome :=
| Done (w : world)
| Failed (e : io_exn) (w : world)
| Hang.

Fixpoint strip_prefix (prefix s : string) : option string :=
  match prefix, s with
  | EmptyString, _ => Some s
  | String a prefix', String b s' =>
      if Ascii.eqb a b then strip_prefix prefix' s' else None
  | String _ _, EmptyString => None
  end.

Definition plain_name (name : string) : bool :=
  negb (String.eqb name "") && negb (has_slash name).

(** [open(path, "w")] succeeds: [path] is a plain name in the folder. *)
Definition can_open `{Environment} (path : string) : bool :=
  match strip_prefix (folder +:+ "/") path with
  | Some name => plain_name name
  | None => false
  end.

(** [DictWriter.writerow(row)] accepts a dictionary whose keys are all
    among the field names. *)
Definition row_accepted (fieldnames : gset string) (item : csv_item) : bool :=
  match item with
  | ItemDict d => bool_decide (dom d ⊆ fieldnames)
  | ItemOther => false
  end.

Definition write_csv_and_finish `{Environment} (data : csv_data) (w : world)
  : io_outcome :=
  match data with
  | DataOther =>
      Failed (Query (TypeError
        "write_as_csv requires a list or tuple of dictionaries as argument")) w
  | DataSeq [] =>
      Failed (ValueError
        "write_as_csv requires a dictionary with at least one item") w
  | DataSeq (ItemOther :: _) =>
      Failed (Query (TypeError
        "write_as_csv requires a list or tuple of dictionaries as argument")) w
  | DataSeq ((ItemDict first :: _) as items) =>
      match get_results_path w with
      | Raise e w1 => Failed (Query e) w1
      | Diverge => Hang
      | Ok path w1 =>
          if can_open path then
            let w2 := World (self w1) (db w1) ({[ path ]} ∪ files w1) in
            if List.forallb (row_accepted (dom first)) items then
              match finish (Z.of_nat (length items)) w2 with
              | Ok _ w3 => Done w3
              | Raise e w3 => Failed (Query e) w3
              | Diverge => Hang
              end
            else Failed CsvError w2
          else Failed OSError w1
      end
  end.

(** A result with two rows of the same two columns. *)
Definition two_rows : csv_data :=
  DataSeq [ ItemDict {[ "date" := VStr "2018-5"; "value" := VInt 3 ]};
            ItemDict {[ "date" := VStr "2018-6"; "value" := VInt 1 ]} ].

(** ** Sequences of method calls

    The calls a holder of the object can make, one after the other; a call
    that raises leaves the state it had reached, and the caller goes on. *)
Inductive call :=
| CallFinish (num_rows : Z)
| CallUpdateStatus (status : val)
| CallSetEmpty
| CallReserve (extension : string)
| CallWriteCsv (data : csv_data)
| CallCheck
| CallIsFinished
| CallGetParameters
| CallGetStatus
| CallGetResultsPath
| CallGetResultsDir.

Definition after {A} (o : outcome A) (w : world) : world :=
  match o with
  | Ok _ w' => w'
  | Raise _ w' => w'
  | Diverge => w
  end.

Definition after_io (o : io_outcome) (w : world) : world :=
  match o with
  | Done w' => w'
  | Failed _ w' => w'
  | Hang => w
  end.

Definition run_call `{Environment} (c : call) (w : world) : world :=
  match c with
  | CallFinish n => after (finish n w) w
  | CallUpdateStatus s => after (update_status s w) w
  | CallSetEmpty => after (set_empty w) w
  | CallReserve ext => after (reserve_result_file ext w) w
  | CallWriteCsv data => after_io (write_csv_and_finish data w) w
  | CallCheck => after (check_query_finished w) w
  | CallIsFinished => after (is_finished w) w
  | CallGetParameters => after (get_parameters w) w
  | CallGetStatus => after (get_status w) w
  | CallGetResultsPath => after (get_results_path w) w
  | CallGetResultsDir => after (get_results_dir w) w
  end.

Definition run_calls `{Environment} (cs : list call) (w : world) : world :=
  fold_left (fun w c => run_call c w) cs w.

(** What every call keeps, from the state [w] before to the state [w']
    after. *)
Record keeps (w w' : world) : Prop := Keeps {
  keeps_self_key : self_key (self w') = self_key (self w);
  keeps_self_query : self_query (self w') = self_query (self w);
  keeps_key : self_data (self w') !! "key" = self_data (self w) !! "key";
  keeps_query : self_data (self w') !! "query" = self_data (self w) !! "query";
  keeps_parameters :
    self_data (self w') !! "parameters" = self_data (self w) !! "parameters";
  keeps_files : files w ⊆ files w';
  keeps_finished : ∀ fin,
    self_data (self w) !! "is_finished" = Some fin → truthy fin = true →
    self_data (self w') !! "is_finished" = Some fin
    ∧ self_data (self w') !! "num_rows" = self_data (self w) !! "num_rows"
    ∧ self_data (self w') !! "result_file"
      = self_data (self w) !! "result_file";
  keeps_rows : ∀ i r,
    db w !! i = Some r →
    ∃ r', db w' !! i = Some r'
          ∧ r' !! "key" = r !! "key"
          ∧ (r !! "is_finished" = Some (VBool true) →
             r' !! "is_finished" = Some (VBool true))
          ∧ (r !! "key" ≠ self_data (self w) !! "key" → r' = r);
  keeps_length : length (db w') = length (db w);
}.

(** ** The statements [Database] builds ([backend/lib/database.py])

    [update], [delete] and [insert] put a statement together from a fixed
    text with one [{}] for each identifier and one [%s] for each value, a
    list of identifiers for [sql.SQL(text).format] and the values for
    [cursor.execute].  A [dict] argument is the list of its items, in
    insertion order, with distinct keys. *)
Module Sql.

Inductive param :=
| Scalar (v : val)
| Tuple (vs : list val).

Record statement := Statement {
  text : string;
  identifiers : list string;
  replacements : list param;
}.

Definition keys (d : list (string * val)) : list string := List.map fst d.
Definition values (d : list (string * val)) : list val := List.map snd d.

(** [d[k]] for a key of [d]. *)
Definition item (d : list (string * val)) (k : string) : val :=
  match List.find (fun kv => String.eqb (fst kv) k) d with
  | Some kv => snd kv
  | None => VNone
  end.

(** [fmt % arg] for a format with one [%s]; [%%] stands for a percent. *)
Fixpoint percent (fmt arg : string) : string :=
  match fmt with
  | String "%" (String "s" rest) => arg +:+ percent rest ""
  | String "%" (String "%" rest) => String "%" (percent rest arg)
  | String c rest => String c (percent rest arg)
  | EmptyString => EmptyString
  end.

(** [update(table, data, where)]; [where=None] is the empty dictionary. *)
Definition update (table : string) (data where_ : list (string * val))
  : statement :=
  let identifiers := table :: keys data in
  let replacements := List.map Scalar (values data) in
  let query :=
    "UPDATE {} SET " +:+ Str.join ", " (List.map (fun _ => "{} = %s") data) in
  match where_ with
  | [] => Statement query identifiers replacements
  | _ :: _ =>
      Statement
        (query +:+ " WHERE "
           +:+ Str.join " AND " (List.map (fun _ => "{} = %s") where_))
        (identifiers ++ keys where_)
        (replacements
           ++ List.map (fun column => Scalar (item where_ column)) (keys where_))
  end.

(** [delete(table, where)] *)
Definition delete (table : string) (where_ : list (string * val)) : statement :=
  let where_sql := List.map (fun _ => "{} = %s") (keys where_) in
  Statement ("DELETE FROM {} WHERE " +:+ Str.join " AND " where_sql)
            (table :: keys where_)
            (List.map Scalar (values where_)).

(** [insert(table, data, safe, constraints)]; [constraints=None] is the
    empty list. *)
Definition insert (table : string) (data : list (string * val)) (safe : bool)
    (constraints : list string) : statement :=
  let identifiers := table :: keys data in
  let '(safe_bit, identifiers) :=
    if safe then
      let '(safe_bit, identifiers) :=
        match constraints with
        | [] => (" ON CONFLICT ", identifiers)
        | _ :: _ =>
            (" ON CONFLICT " +:+ "("
               +:+ Str.join ", " (List.map (fun _ => "{}") constraints)
               +:+ ")",
             identifiers ++ constraints)
        end in
      (safe_bit +:+ " DO NOTHING", identifiers)
    else ("", identifiers) in
  let protoquery :=
    percent "INSERT INTO {} (%s) VALUES %%s"
            (Str.join ", " (List.map (fun _ => "{}") (keys data)))
      +:+ safe_bit in
  Statement protoquery identifiers [Tuple (values data)].

End Sql.

(** The number of places at which the two characters [a b] stand in a
    text: [{}] for an identifier slot, [%s] for a value slot. *)
Fixpoint count_pair (a b : ascii) (s : string) : nat :=
  match s with
  | String x t =>
      ((if Ascii.eqb x a
           && match t with
              | String y _ => Ascii.eqb y b
              | EmptyString => false
              end
        then 1 else 0)
       + count_pair a b t)%nat
  | EmptyString => O
  end.

Definition identifier_slots (s : string) : nat := count_pair "{" "}" s.
Definition value_slots (s : string) : nat := count_pair "%" "s" s.

Fixpoint ends_with (a : ascii) (s : string) : bool :=
  match s with
  | EmptyString => false
  | String x EmptyString => Ascii.eqb x a
  | String _ t => ends_with a t
  end.

(** The statements of [finish] and of the constructor's insert. *)
Definition finish_statement : Sql.statement :=
  Sql.update "queries"
    [("is_finished", VBool true); ("num_rows", VInt 42)]
    [("query", VStr "cats"); ("key", VStr "k1")].

(** ** The store, twice

    [update(data, where)] applied again to the table it has produced. *)
Definition update_again (table : list row) (data where_ : row)
  : list row * Z :=
  Database.update (fst (Database.update table data where_)) data where_.

(** ** The view [get_result] ([webtool/fourcat/views.py])

    How the view ends: in [abort(code)], in the call
    [send_from_directory(config.PATH_DATA, filename)], or in an exception
    it does not catch.  What [send_from_directory] itself answers, the
    file or a 404 when there is none of that name, is Flask's part and is
    not modelled.  [now] is the clock, which this path never reads. *)
Inductive response :=
| Abort (code : Z)
| SendFromDirectory (filename : string)
| Uncaught (e : exn)
| NoResponse.

Definition get_result `{Environment} (query_key : string) (now : Z)
    (store : list row) (fs : gset string) : response :=
  match new None PNone (Some query_key) None "csv" now store fs with
  | Raise (TypeError _) _ => Abort 404
  | Raise e _ => Uncaught e
  | Diverge => NoResponse
  | Ok _ w =>
      match check_query_finished w with
      | Raise e _ => Uncaught e
      | Diverge => NoResponse
      | Ok results _ =>
          if truthy results then
            match results with
            | VStr s =>
                SendFromDirectory
                  (List.last
                     (Str.split "/" (Str.replace Py.backslash "/" s)) "")
            | _ => Uncaught (AttributeError "object has no attribute 'replace'")
            end
          else Abort 404
      end
  end.

(** A store whose record [k1] is finished and marked empty. *)
Definition empty_result_store : list row :=
  [ <["is_empty" := VBool true]> finished_data ].

(** ** The view helper [validateQuery] ([webtool/fourcat/views.py])

    The function reads the stop words of the [stop_words] package and
    [config.PLATFORMS]; a platform maps to its list of boards, or to [None]
    when its entry has no ["boards"] key.  Statements either go on, return
    a value or raise. *)
Class ViewConfig := {
  stop_words : list string;
  PLATFORMS : gmap string (option (list string));
}.

Inductive flow (A : Type) :=
| Next (a : A)
| Return (v : val)
| Throw (e : exn).
Arguments Next {A} a.
Arguments Return {A} v.
Arguments Throw {A} e.

Global Instance flow_ret : MRet flow := fun A a => Next a.
Global Instance flow_bind : MBind flow := fun A B f m =>
  match m with
  | Next a => f a
  | Return v => Return v
  | Throw e => Throw e
  end.

Module Views.

(** [parameters[k]] *)
Definition param (parameters : row) (k : string) : flow val :=
  match parameters !! k with
  | Some v => Next v
  | None => Throw (KeyError k)
  end.

(** A number, for [<], [>] and [-]: an [int], or a [bool] as 0 or 1. *)
Definition as_int (v : val) : flow Z :=
  match v with
  | VInt z => Next z
  | VBool b => Next (Z.b2z b)
  | _ => Throw (TypeError "unsupported operand type")
  end.

(** [v != 0] *)
Definition nonzero (v : val) : bool :=
  match v with
  | VInt z => negb (z =? 0)
  | VBool b => b
  | _ => true
  end.

(** [a >= b]: numbers, or two strings in code point order. *)
Definition ge (a b : val) : flow bool :=
  match a, b with
  | VStr s, VStr t => Next (String.leb t s)
  | VStr _, _ | _, VStr _ | VNone, _ | _, VNone =>
      Throw (TypeError "unsupported operand type")
  | _, _ => x ← as_int a; y ← as_int b; Next (y <=? x)
  end.

(** [v == ""] and [v in strings] *)
Definition is_empty_str (v : val) : bool :=
  match v with
  | VStr s => String.eqb s ""
  | _ => false
  end.
Definition in_strings (v : val) (l : list string) : bool :=
  match v with
  | VStr s => bool_decide (s ∈ l)
  | _ => false
  end.

(** [len(v)] *)
Definition len (v : val) : flow Z :=
  match v with
  | VStr s => Next (Z.of_nat (String.length s))
  | _ => Throw (TypeError "object has no len()")
  end.

(** [re.search('[a-zA-Z0-9]', v)] as a truth value. *)
Definition alnum (c : ascii) : bool :=
  Str.between 97 122 c || Str.between 65 90 c || Str.between 48 57 c.
Definition search_alnum (v : val) : flow bool :=
  match v with
  | VStr s => Next (Str.existsb alnum s)
  | _ => Throw (TypeError "expected string or bytes-like object")
  end.

(** [if cond: return msg] *)
Definition return_if (cond : flow bool) (msg : string) : flow unit :=
  c ← cond; if (c : bool) then Return (VStr msg) else Next tt.

(** The three tests on a text field: too short, a stop word, nothing
    alphanumeric. *)
Definition check_text `{ViewConfig} (parameters : row) (field : string)
    (short stop plain : string) : flow unit :=
  v ← param parameters field;
  too_short ← (if truthy v then n ← len v; Next (n <? 3) else Next false);
  if (too_short : bool) then Return (VStr short)
  else
    v ← param parameters field;
    if in_strings v stop_words then Return (VStr stop)
    else
      v ← param parameters field;
      no_alnum ← (if truthy v then b ← search_alnum v; Next (negb b)
                  else Next false);
      if (no_alnum : bool) then Return (VStr plain) else Next tt.

(** The blocks of [validateQuery], in the order of the source. *)

(** [if parameters["min_date"] < 0 or parameters["max_date"] < 0] *)
Definition check_early (parameters : row) : flow unit :=
  return_if
    (v ← param parameters "min_date"; a ← as_int v;
     if a <? 0 then Next true
     else v ← param parameters "max_date"; b ← as_int v; Next (b <? 0))
    "Date(s) set too early.".

(** [parameters["min_date"] != 0 and parameters["max_date"] != 0] *)
Definition both_dates (parameters : row) : flow bool :=
  v ← param parameters "min_date";
  if nonzero v then v ← param parameters "max_date"; Next (nonzero v)
  else Next false.

Definition check_order (parameters : row) : flow unit :=
  ordered ← both_dates parameters;
  if (ordered : bool) then
    return_if
      (a ← param parameters "min_date"; b ← param parameters "max_date";
       ge a b)
      "The first date is later than or the same as the second."
  else Next tt.

(** [config.PLATFORMS[platform]], after
    [if platform not in config.PLATFORMS: return ...] *)
Definition platform_entry `{ViewConfig} (platform : val)
  : flow (option (list string)) :=
  match platform with
  | VStr name =>
      match PLATFORMS !! name with
      | Some entry => Next entry
      | None => Return (VStr "Please choose a valid platform to search")
      end
  | _ => Return (VStr "Please choose a valid platform to search")
  end.

(** [entry["boards"]] *)
Definition entry_boards (entry : option (list string)) : flow (list string) :=
  match entry with
  | Some l => Next l
  | None => Throw (KeyError "boards")
  end.

Definition has_board_keys (parameters : row) : flow unit :=
  if bool_decide (is_Some (parameters !! "platform"))
     && bool_decide (is_Some (parameters !! "board"))
  then Next tt else Return (VStr "Please provide a board to search").

Definition check_board `{ViewConfig} (parameters : row) : flow unit :=
  has_board_keys parameters;;
  platform ← param parameters "platform";
  entry ← platform_entry platform;
  board ← param parameters "board";
  boards ← entry_boards entry;
  if in_strings board boards then Next tt
  else Return (VStr "Please choose a valid board for querying").

(** [parameters[k] > 0 and parameters[k] < 10] *)
Definition below_ten (parameters : row) (k : string) : flow bool :=
  v ← param parameters k; n ← as_int v;
  if 0 <? n then v ← param parameters k; n ← as_int v; Next (n <? 10)
  else Next false.

Definition check_dense (parameters : row) : flow unit :=
  short_thread ← below_ten parameters "dense_length";
  if (short_thread : bool) then
    Return (VStr "Keyword-dense thread length should be at least ten.")
  else
    return_if (below_ten parameters "dense_percentage")
      "Keyword-dense thread density should be at least 10%.".

(** [parameters["body_query"] == "" and parameters["subject_query"] == ""] *)
Definition no_text (parameters : row) : flow bool :=
  v ← param parameters "body_query";
  if is_empty_str v then v ← param parameters "subject_query";
                         Next (is_empty_str v)
  else Next false.

Definition check_no_text (parameters : row) : flow unit :=
  empty ← no_text parameters;
  if (empty : bool) then
    ranged ← both_dates parameters;
    if (ranged : bool) then
      v ← param parameters "max_date"; b ← as_int v;
      v ← param parameters "min_date"; a ← as_int v;
      let time_diff := b - a in
      if 2419200 <=? time_diff then
        Return (VStr
          "With no text querying, filter on a date range of max four weeks.")
      else Return (VBool true)
    else Return (VStr
      "Input either a body or subject query, or filter on a date range of max four weeks.")
  else Next tt.

Definition validateQuery `{ViewConfig} (parameters : row) : flow unit :=
  (if dict_truthy parameters then Next tt
   else Return (VStr "Please provide valid parameters."));;
  check_early parameters;;
  check_order parameters;;
  check_board parameters;;
  check_dense parameters;;
  check_no_text parameters;;
  check_text parameters "body_query"
    "Body query is too short. Use at least three characters."
    "Use a body input that is not a stop word."
    "Body query must contain alphanumeric characters.";;
  check_text parameters "subject_query"
    "Subject query is too short. Use at least three characters."
    "Use a subject input that is not a stop word."
    "Subject query must contain alphanumeric characters.";;
  Return (VBool true).

End Views.

(** A configuration and a form for the examples. *)
Definition sample_config : ViewConfig :=
  {| stop_words := ["the"; "and"; "a"];
     PLATFORMS := {[ "4chan" := Some ["pol"; "v"]; "8chan" := None ]} |}.

Definition sample_form : row :=
  {[ "board" := VStr "pol"; "platform" := VStr "4chan";
     "body_query" := VStr "climate"; "subject_query" := VStr "";
     "full_thread" := VBool false; "dense_threads" := VBool false;
     "dense_percentage" := VInt 0; "dense_length" := VInt 0;
     "min_date" := VInt 0; "max_date" := VInt 0; "user" := VStr "someone" ]}.

(** The forms [validateQuery] lets through. *)
Definition int_param (parameters : row) (k : string) (z : Z) : Prop :=
  ∃ v, parameters !! k = Some v ∧ Views.as_int v = Next z.

(** A text field that passes: not a stop word and, unless it is empty (or
    any other false value), a string of three characters or more with a
    letter or a digit among them. *)
Definition text_ok `{ViewConfig} (v : val) : Prop :=
  Views.in_strings v stop_words = false
  ∧ (truthy v = false
     ∨ ∃ s, v = VStr s ∧ (3 ≤ String.length s)%nat
            ∧ Str.existsb Views.alnum s = true).

Definition acceptable `{ViewConfig} (parameters : row) : Prop :=
  parameters ≠ ∅
  ∧ ∃ a b dense_length dense_percentage platform boards board body subject,
      int_param parameters "min_date" a
      ∧ int_param parameters "max_date" b
      ∧ 0 ≤ a ∧ 0 ≤ b
      ∧ (a ≠ 0 → b ≠ 0 → a < b)
      ∧ parameters !! "platform" = Some (VStr platform)
      ∧ PLATFORMS !! platform = Some (Some boards)
      ∧ parameters !! "board" = Some (VStr board)
      ∧ board ∈ boards
      ∧ int_param parameters "dense_length" dense_length
      ∧ ¬ (0 < dense_length < 10)
      ∧ int_param parameters "dense_percentage" dense_percentage
      ∧ ¬ (0 < dense_percentage < 10)
      ∧ parameters !! "body_query" = Some body
      ∧ parameters !! "subject_query" = Some subject
      ∧ ((body = VStr "" ∧ subject = VStr ""
          ∧ a ≠ 0 ∧ b ≠ 0 ∧ b - a < 2419200)
         ∨ (¬ (body = VStr "" ∧ subject = VStr "")
            ∧ text_ok body ∧ text_ok subject)).

(** ** The view [getboards] ([webtool/fourcat/views.py])

    What is handed to [jsonify]: [None] stands for [False], [Some boards]
    for the list of boards. *)
Definition getboards `{ViewConfig} (platform : string)
  : option (list string) :=
  match PLATFORMS !! platform with
  | None => None
  | Some entry =>
      match entry with
      | None => None
      | Some boards => Some boards
      end
  end.

(** A form for a platform that is configured without boards. *)
Definition boardless_form : row :=
  <["platform" := VStr "8chan"]> sample_form.

(** ** The view [string_query] ([webtool/fourcat/views.py])

    The values the view reads from the request: the four texts, the two
    switches, the two numbers, the two dates as [string_to_timestamp] gave
    them (or 0), and the user's id. *)
Record form := Form {
  form_board : string;
  form_platform : string;
  form_body_query : string;
  form_subject_query : string;
  form_full_thread : bool;
  form_dense_threads : bool;
  form_dense_percentage : Z;
  form_dense_length : Z;
  form_min_date : val;
  form_max_date : val;
  form_user : val;
}.

(** The dictionary [parameters], in the order it is written. *)
Definition form_items (f : form) : list (string * val) :=
  [ ("board", VStr (form_board f));
    ("platform", VStr (form_platform f));
    ("body_query", VStr (form_body_query f));
    ("subject_query", VStr (form_subject_query f));
    ("full_thread", VBool (form_full_thread f));
    ("dense_threads", VBool (form_dense_threads f));
    ("dense_percentage", VInt (form_dense_percentage f));
    ("dense_length", VInt (form_dense_length f));
    ("min_date", form_min_date f);
    ("max_date", form_max_date f);
    ("user", form_user f) ].

Definition val_to_py (v : val) : pyval :=
  match v with
  | VNone => PNone
  | VBool b => PBool b
  | VInt z => PInt z
  | VStr s => PStr s
  end.

Definition form_row (f : form) : row := list_to_map (form_items f).
Definition form_document (f : form) : pyval :=
  PDict (List.map (fun item => (item.1, val_to_py item.2)) (form_items f)).

(** What the view answers: a text, the key of the query it queued a job
    for, or an exception nothing catches. *)
Inductive reply :=
| Text (s : string)
| Queued (jobtype : string) (key : val)
| Unhandled (e : exn)
| NoReply.

(** [valid != True] *)
Definition is_True (v : val) : bool :=
  match v with
  | VBool b => b
  | VInt z => z =? 1
  | _ => false
  end.

Definition string_query `{Environment} `{ViewConfig} (f : form) (now : Z)
    (store : list row) (fs : gset string) : reply * list row * gset string :=
  match Views.validateQuery (form_row f) with
  | Throw e => (Unhandled e, store, fs)
  | Next _ =>
      (Unhandled (TypeError "can only concatenate str to str"), store, fs)
  | Return valid =>
      if negb (is_True valid) then
        match valid with
        | VStr msg => (Text ("Invalid query. " +:+ msg), store, fs)
        | _ => (Unhandled (TypeError "can only concatenate str to str"),
                store, fs)
        end
      else
        match new None (form_document f) None None "csv" now store fs with
        | Raise e w => (Unhandled e, db w, files w)
        | Diverge => (NoReply, store, fs)
        | Ok _ w =>
            (Queued (form_platform f +:+ "-search") (self_key (self w)),
             db w, files w)
        end
  end.

(** ** The view [show_page] ([webtool/fourcat/views.py])

    [here] is the folder of [views.py] and [path_exists] is
    [os.path.exists].  The view answers [abort(404)] or renders the page
    read from [page_path]. *)
Definition page_char (c : ascii) : bool :=
  Str.between 97 122 c || Str.between 65 90 c || Str.between 48 57 c
  || Ascii.eqb c "-" || Ascii.eqb c "_".

Inductive page_response :=
| AbortPage (code : Z)
| RenderPage (page_path body_class page_name : string).

Definition show_page (here : string) (path_exists : string -> bool)
    (page : string) : page_response :=
  let page := Str.filter page_char page in
  let page_class := "page-" +:+ page in
  let page_folder := here +:+ "/pages" in
  let page_path := page_folder +:+ "/" +:+ page +:+ ".md" in
  if negb (path_exists page_path) then AbortPage 404
  else RenderPage page_path page_class page.

(** ** [file_to_timestamp], the sort key of [VectorRanker.process] *)

(** [int(s)] for a string, [None] standing for [ValueError]: white space,
    a sign, digits with single underscores between them, white space. *)
Definition is_digit (c : ascii) : bool := Str.between 48 57 c.
Definition digit (c : ascii) : Z := Str.code c - 48.
Definition int_space (c : ascii) : bool :=
  Str.between 9 13 c || (Str.code c =? 32)
  || (Str.code c =? 133) || (Str.code c =? 160).

Fixpoint skip_space (s : string) : string :=
  match s with
  | String c s' => if int_space c then skip_space s' else s
  | EmptyString => s
  end.

Fixpoint number (acc : Z) (s : string) : option Z :=
  match s with
  | EmptyString => Some acc
  | String c s' =>
      if is_digit c then number (acc * 10 + digit c) s'
      else if Ascii.eqb c "_" then
        match s' with
        | String d s'' =>
            if is_digit d then number (acc * 10 + digit d) s'' else None
        | EmptyString => None
        end
      else if Str.forallb int_space s then Some acc else None
  end.

Definition unsigned (s : string) : option Z :=
  match s with
  | String c s' => if is_digit c then number (digit c) s' else None
  | EmptyString => None
  end.

Definition int_of_str (s : string) : option Z :=
  match skip_space s with
  | String c s' =>
      if Ascii.eqb c "+" then unsigned s'
      else if Ascii.eqb c "-" then Z.opp <$> unsigned s'
      else unsigned (String c s')
  | EmptyString => None
  end.

(** [s.zfill(2)] *)
Definition zfill2 (s : string) : string :=
  match s with
  | EmptyString => "00"
  | String c EmptyString =>
      if Ascii.eqb c "+" || Ascii.eqb c "-" then String c "0"
      else String "0" s
  | _ => s
  end.

Definition file_to_timestamp (file : string) : Z :=
  let stem :=
    Str.split "-"
      (hd "" (Str.split "." (List.last (Str.split "/" file) ""))) in
  match stem with
  | year :: month :: _ => default 0 (int_of_str (year +:+ zfill2 month))
  | _ => 0
  end.

(** The number a string of digits writes. *)
Definition decimal (s : string) : Z :=
  fold_left (fun acc c => acc * 10 + digit c) (list_ascii_of_string s) 0.

(** A token file named as [process] expects: [YEAR-MONTH], the year in
    digits, the month in one or two digits, possibly inside folders and
    with an extension. *)
Definition token_file (file year month : string) : Prop :=
  Str.forallb is_digit year = true ∧ year ≠ ""
  ∧ Str.forallb is_digit month = true
  ∧ (1 ≤ String.length month ≤ 2)%nat
  ∧ ∃ dir tail,
      file = dir +:+ year +:+ "-" +:+ month +:+ tail
      ∧ (dir = "" ∨ ∃ d, dir = d +:+ "/")
      ∧ (tail = "" ∨ ∃ ext, tail = "." +:+ ext)
      ∧ has_slash tail = false.

(** ** The ranking of [VectorRanker.process] ([processors/top_vectors.py])

    The rows [process] writes, or the exception it ends with, as a
    function of the ranking style, the cut-off and the archive.  The
    archive is given by the names of its members, in the order of
    [namelist()], and by what loading a member gives: [load name] stands
    for [token_archive.extract(name, results_path)] followed by
    [pickle.load] of the extracted file, which yields the vectors of the
    member, a list of pairs of a token and its count, or raises (there is
    no member of that name, or it does not unpickle). *)
Module VectorRanker.

Record ranked := Ranked {
  date : string;
  text : string;
  value : Z;
}.

Inductive loaded :=
| Vectors (vectors : list (string * Z))
| LoadError (e : exn).

(** [sorted(token_archive.namelist(), key=file_to_timestamp)]: by key,
    lowest first, names of equal key in the order they came. *)
Fixpoint insert_name (x : string) (l : list string) : list string :=
  match l with
  | [] => [x]
  | y :: l' =>
      if file_to_timestamp x <=? file_to_timestamp y then x :: y :: l'
      else y :: insert_name x l'
  end.
Definition sorted_names (namelist : list string) : list string :=
  foldr insert_name [] namelist.

(** [l[0:cutoff]] *)
Definition slice_to {A} (cutoff : Z) (l : list A) : list A :=
  take (Z.to_nat (if cutoff <? 0 then Z.of_nat (length l) + cutoff
                  else cutoff)) l.

(** [sorted(vectors, key=lambda x: x[1], reverse=True)]: by count, highest
    first, vectors of equal count in the order they came. *)
Fixpoint insert_vector (x : string * Z) (l : list (string * Z))
  : list (string * Z) :=
  match l with
  | [] => [x]
  | y :: l' => if y.2 <=? x.2 then x :: y :: l' else y :: insert_vector x l'
  end.
Definition sorted_vectors (vectors : list (string * Z))
  : list (string * Z) :=
  foldr insert_vector [] vectors.

(** [not s.strip()]: nothing but white space. *)
Definition is_space (c : ascii) : bool :=
  Str.between 9 13 c || Str.between 28 32 c
  || (Str.code c =? 133) || (Str.code c =? 160).
Definition blank_text (s : string) : bool := Str.forallb is_space s.

(** The body of [for vector in vectors]. *)
Definition add_vector (vector_set_name : string)
    (acc : list ranked * gmap string Z) (vector : string * Z)
  : list ranked * gmap string Z :=
  if blank_text vector.1 then acc
  else
    let results :=
      acc.1 ++ [Ranked (hd "" (Str.split "." vector_set_name))
                       vector.1 vector.2] in
    let overall_top :=
      if bool_decide (is_Some (acc.2 !! vector.1)) then acc.2
      else <[vector.1 := 0]> acc.2 in
    (results,
     <[vector.1 := default 0 (overall_top !! vector.1) + vector.2]>
       overall_top).

(** The body of [for vector_set in vector_sets]: the member is extracted
    and loaded under the last part of its name; an exception ends the
    loop. *)
Definition add_vector_set (rank_style : string) (cutoff : Z)
    (load : string -> loaded)
    (acc : exn + list ranked * gmap string Z) (vector_set : string)
  : exn + list ranked * gmap string Z :=
  match acc with
  | inl e => inl e
  | inr acc =>
      let vector_set_name := List.last (Str.split "/" vector_set) "" in
      match load vector_set_name with
      | LoadError e => inl e
      | Vectors vectors =>
          let vectors := sorted_vectors vectors in
          let vectors :=
            if String.eqb rank_style "per-item" then slice_to cutoff vectors
            else vectors in
          inr (foldl (add_vector vector_set_name) acc vectors)
      end
  end.

Definition results (rank_style : string) (cutoff : Z)
    (namelist : list string) (load : string -> loaded)
  : exn + list ranked :=
  match foldl (add_vector_set rank_style cutoff load) (inr ([], ∅))
          (sorted_names namelist) with
  | inl e => inl e
  | inr collected =>
      inr (if String.eqb rank_style "overall" then
             slice_to cutoff
               (List.filter
                  (fun item => bool_decide (is_Some (collected.2 !! text item)))
                  collected.1)
           else collected.1)
  end.

End VectorRanker.

(** The rows of one token set under a ranking style: its vectors by
    count, cut for the style [per-item], without the blank tokens. *)
Definition listed_rows (rank_style : string) (cutoff : Z)
    (vector_set_name : string) (vectors : list (string * Z))
  : list VectorRanker.ranked :=
  List.map
    (fun vector =>
       VectorRanker.Ranked (hd "" (Str.split "." vector_set_name))
         vector.1 vector.2)
    (List.filter (fun vector => negb (VectorRanker.blank_text vector.1))
       (if String.eqb rank_style "per-item"
        then VectorRanker.slice_to cutoff (VectorRanker.sorted_vectors vectors)
        else VectorRanker.sorted_vectors vectors)).

(** The rows of one token set in full. *)
Definition set_rows (vector_set_name : string)
    (vectors : list (string * Z)) : list VectorRanker.ranked :=
  List.map
    (fun vector =>
       VectorRanker.Ranked (hd "" (Str.split "." vector_set_name))
         vector.1 vector.2)
    (List.filter (fun vector => negb (VectorRanker.blank_text vector.1))
       (VectorRanker.sorted_vectors vectors)).

(** The listing: for each name, in the order given, the rows its member
    gives, each member loaded under the last part of its name; the first
    member that does not load ends it. *)
Fixpoint listing (rows : string -> list (string * Z) -> list VectorRanker.ranked)
    (load : string -> VectorRanker.loaded) (vector_sets : list string)
  : exn + list (list VectorRanker.ranked) :=
  match vector_sets with
  | [] => inr []
  | vector_set :: rest =>
      let vector_set_name := List.last (Str.split "/" vector_set) "" in
      match load vector_set_name with
      | VectorRanker.LoadError e => inl e
      | VectorRanker.Vectors vectors =>
          match listing rows load rest with
          | inl e => inl e
          | inr parts => inr (rows vector_set_name vectors :: parts)
          end
      end
  end.

(** An archive of two top-level members, and one whose member lies in a
    folder: there is no member of the bare name to extract. *)
Definition sample_namelist : list string := ["2018-10.pb"; "2018-9.pb"].
Definition sample_load (name : string) : VectorRanker.loaded :=
  if String.eqb name "2018-9.pb" then
    VectorRanker.Vectors [("kek", 3); ("pepe", 9); (" ", 12); ("based", 9)]
  else if String.eqb name "2018-10.pb" then
    VectorRanker.Vectors [("pepe", 1); ("wojak", 4)]
  else VectorRanker.LoadError (KeyError name).

Definition folder_namelist : list string := ["tokens/2018-9.pb"].
Definition folder_load (name : string) : VectorRanker.loaded :=
  if String.eqb name "tokens/2018-9.pb" then
    VectorRanker.Vectors [("kek", 3)]
  else VectorRanker.LoadError (KeyError name).
(** * Properties *)

(** ** Running the monad: the equations of its primitives *)

Lemma run_bind {A B} (m : M A) (f : A -> M B) (w : world) :
  (m ≫= f) w = match m w with
               | Ok a w' => f a w'
               | Raise e w' => Raise e w'
               | Diverge => Diverge
               end.
Proof. reflexivity. Qed.

Lemma run_ret {A} (a : A) (w : world) : mret (M := M) a w = Ok a w.
Proof. reflexivity. Qed.

Lemma run_raise {A} (e : exn) (w : world) : raise (A := A) e w = Raise e w.
Proof. reflexivity. Qed.

Lemma run_getitem_Some (d : row) (k : string) (v : val) (w : world) :
  d !! k = Some v → getitem d k w = Ok v w.
Proof. intros Hk. unfold getitem. by rewrite Hk. Qed.

Lemma run_getitem_None (d : row) (k : string) (w : world) :
  d !! k = None → getitem d k w = Raise (KeyError k) w.
Proof. intros Hk. unfold getitem. by rewrite Hk. Qed.

Lemma run_data_get_Some (k : string) (v : val) (w : world) :
  self_data (self w) !! k = Some v → data_get k w = Ok v w.
Proof.
  intros Hk. unfold data_get. rewrite run_bind. cbv beta iota delta [get_world].
  by apply run_getitem_Some.
Qed.

Lemma run_data_get_None (k : string) (w : world) :
  self_data (self w) !! k = None → data_get k w = Raise (KeyError k) w.
Proof.
  intros Hk. unfold data_get. rewrite run_bind. cbv beta iota delta [get_world].
  by apply run_getitem_None.
Qed.

Lemma run_data_set (k : string) (v : val) (w : world) :
  data_set k v w
  = Ok tt (World (Object (self_key (self w)) (self_query (self w))
                         (<[k := v]> (self_data (self w))))
                 (db w) (files w)).
Proof. reflexivity. Qed.

Lemma run_set_key (v : val) (w : world) :
  set_key v w
  = Ok tt (World (Object v (self_query (self w)) (self_data (self w)))
                 (db w) (files w)).
Proof. reflexivity. Qed.

Lemma run_set_query (v : val) (w : world) :
  set_query v w
  = Ok tt (World (Object (self_key (self w)) v (self_data (self w)))
                 (db w) (files w)).
Proof. reflexivity. Qed.

Lemma run_set_data (d : row) (w : world) :
  set_data d w
  = Ok tt (World (Object (self_key (self w)) (self_query (self w)) d)
                 (db w) (files w)).
Proof. reflexivity. Qed.

Lemma run_get_world (w : world) : get_world w = Ok w w.
Proof. reflexivity. Qed.

Lemma run_db_fetchone (where_ : row) (w : world) :
  db_fetchone where_ w = Ok (Database.fetchone (db w) where_) w.
Proof. reflexivity. Qed.

Lemma run_db_update (data where_ : row) (w : world) :
  db_update data where_ w
  = Ok (Z.of_nat (length (List.filter (Database.matches where_) (db w))))
       (World (self w)
          (List.map (fun r => if Database.matches where_ r then data ∪ r else r)
                    (db w))
          (files w)).
Proof. reflexivity. Qed.

Lemma run_db_insert `{Environment} (data : row) (w : world) :
  db_insert data w
  = Ok 1 (World (self w) (db w ++ [data ∪ column_defaults]) (files w)).
Proof. reflexivity. Qed.

Lemma run_isfile (path : string) (w : world) :
  isfile path w = Ok (bool_decide (path ∈ files w)) w.
Proof. reflexivity. Qed.

Lemma run_as_str_receiver (s : string) (w : world) :
  as_str_receiver (VStr s) w = Ok s w.
Proof. reflexivity. Qed.

Lemma run_as_str_operand (s : string) (w : world) :
  as_str_operand (VStr s) w = Ok s w.
Proof. reflexivity. Qed.

(** One step of symbolic execution, without unfolding any map. *)
Ltac mstep :=
  first
    [ rewrite run_bind
    | rewrite run_ret
    | rewrite run_raise
    | rewrite run_data_set
    | rewrite run_set_key
    | rewrite run_set_query
    | rewrite run_set_data
    | rewrite run_get_world
    | rewrite run_db_fetchone
    | rewrite run_db_update
    | rewrite run_db_insert
    | rewrite run_isfile
    | rewrite run_as_str_receiver
    | rewrite run_as_str_operand
    | erewrite run_data_get_Some by eassumption
    | erewrite run_getitem_Some by eassumption ];
  cbn beta iota delta [self db files self_key self_query self_data].

Ltac mrun := repeat mstep.

(** ** The hash on known inputs *)

(** The test suite of RFC 1321, section A.5. *)
Example md5_empty :
  MD5.hexdigest (Str.encode_utf8 "") = "d41d8cd98f00b204e9800998ecf8427e".
Proof. vm_compute. reflexivity. Qed.

Example md5_abc :
  MD5.hexdigest (Str.encode_utf8 "abc") = "900150983cd24fb0d6963f7d28e17f72".
Proof. vm_compute. reflexivity. Qed.

Example md5_two_blocks :
  MD5.hexdigest (Str.encode_utf8
    "12345678901234567890123456789012345678901234567890123456789012345678901234567890")
  = "57edf4a22be3c955ac49da2e2107b67a".
Proof. vm_compute. reflexivity. Qed.

Example repr_climate_parameters :
  Py.repr climate_parameters = "{'board': 'news', 'min_date': 0, 'max_date': 0}".
Proof. vm_compute. reflexivity. Qed.

Example get_key_climate_change :
  get_key "climate change" climate_parameters
  = "9a3bbfee95ecea24b3f2dc2666da972a".
Proof. vm_compute. reflexivity. Qed.

(** ** Strings *)

Lemma str_app_nil (t : string) : "" +:+ t = t.
Proof. reflexivity. Qed.

Lemma str_app_cons (c : ascii) (s t : string) :
  String c s +:+ t = String c (s +:+ t).
Proof. reflexivity. Qed.

Lemma str_length_app (s t : string) :
  String.length (s +:+ t) = (String.length s + String.length t)%nat.
Proof.
  induction s as [|c s IH]; [done|].
  rewrite str_app_cons. simpl. by rewrite IH.
Qed.

Lemma str_app_inv_tail (s1 s2 t : string) : s1 +:+ t = s2 +:+ t → s1 = s2.
Proof.
  revert s2. induction s1 as [|c s1 IH]; intros [|d s2] Heq.
  - done.
  - apply (f_equal String.length) in Heq.
    rewrite !str_length_app in Heq. simpl in Heq. lia.
  - apply (f_equal String.length) in Heq.
    rewrite !str_length_app in Heq. simpl in Heq. lia.
  - rewrite !str_app_cons in Heq. injection Heq as -> Heq.
    f_equal. by apply IH.
Qed.

Lemma str_existsb_app (p : ascii -> bool) (s t : string) :
  Str.existsb p (s +:+ t) = Str.existsb p s || Str.existsb p t.
Proof.
  induction s as [|c s IH]; [done|].
  rewrite str_app_cons. simpl. by rewrite IH, orb_assoc.
Qed.

Lemma split_nonempty (sep : ascii) (s : string) : Str.split sep s ≠ [].
Proof.
  destruct s as [|c s]; simpl; [done|].
  destruct (Ascii.eqb c sep); [done|]. by destruct (Str.split sep s).
Qed.

Lemma split_no_sep (sep : ascii) (s : string) :
  Str.existsb (Ascii.eqb sep) s = false → Str.split sep s = [s].
Proof.
  induction s as [|c s IH]; simpl; [done|].
  intros [Hc Hs]%orb_false_iff. rewrite Ascii.eqb_sym in Hc. rewrite Hc.
  by rewrite IH.
Qed.

Lemma split_app_sep (sep : ascii) (pre rest : string) :
  Str.split sep (pre +:+ String sep rest)
  = Str.split sep pre ++ Str.split sep rest.
Proof.
  induction pre as [|c pre IH].
  - rewrite str_app_nil. simpl. by rewrite Ascii.eqb_refl.
  - rewrite str_app_cons. simpl. destruct (Ascii.eqb c sep).
    + by rewrite IH.
    + rewrite IH. pose proof (split_nonempty sep pre).
      by destruct (Str.split sep pre).
Qed.

Lemma last_app_nonempty {A} (l1 l2 : list A) (d : A) :
  l2 ≠ [] → List.last (l1 ++ l2) d = List.last l2 d.
Proof.
  intros Hne. induction l1 as [|x l1 IH]; [done|].
  simpl. destruct (l1 ++ l2) eqn:E; [|done].
  apply app_eq_nil in E as [_ ->]. done.
Qed.

(** [path.split("/").pop()] gives back a name without slash. *)
Lemma last_segment (pre name : string) :
  Str.existsb (Ascii.eqb "/") name = false →
  List.last (Str.split "/" (pre +:+ "/" +:+ name)) "" = name.
Proof.
  intros Hname. rewrite str_app_cons, str_app_nil, split_app_sep.
  rewrite last_app_nonempty by apply split_nonempty.
  by rewrite split_no_sep.
Qed.

Lemma lower_char_slash (c : ascii) :
  Ascii.eqb "/" (Str.lower_char c) = Ascii.eqb "/" c.
Proof. destruct c as [[] [] [] [] [] [] [] []]; vm_compute; reflexivity. Qed.

Lemma lower_replace_char (c : ascii) :
  Str.lower_char (if Ascii.eqb c " " then "-"%char else c)
  = if Ascii.eqb (Str.lower_char c) " " then "-"%char else Str.lower_char c.
Proof. destruct c as [[] [] [] [] [] [] [] []]; vm_compute; reflexivity. Qed.

Lemma slug_char_not_slash (c : ascii) :
  SearchQuery.slug_char c = true → Ascii.eqb "/" c = false.
Proof. destruct c as [[] [] [] [] [] [] [] []]; vm_compute; congruence. Qed.

Lemma existsb_slash_lower (s : string) :
  Str.existsb (Ascii.eqb "/") (Str.lower s) = Str.existsb (Ascii.eqb "/") s.
Proof.
  unfold Str.lower. induction s as [|c s IH]; [done|].
  cbn [Str.map Str.existsb]. by rewrite lower_char_slash, IH.
Qed.

Lemma existsb_slash_filter (s : string) :
  Str.existsb (Ascii.eqb "/") (Str.filter SearchQuery.slug_char s) = false.
Proof.
  induction s as [|c s IH]; [done|]. cbn [Str.filter].
  destruct (SearchQuery.slug_char c) eqn:E; [|done].
  cbn [Str.existsb]. by rewrite (slug_char_not_slash c E), IH.
Qed.

Lemma lower_replace (s : string) :
  Str.lower (Str.replace " " "-" s) = Str.replace " " "-" (Str.lower s).
Proof.
  unfold Str.lower, Str.replace. induction s as [|c s IH]; [done|].
  cbn [Str.map]. f_equal; [apply lower_replace_char | apply IH].
Qed.

Lemma pretty_N_go_no_slash (x : N) :
  ∀ s, Str.existsb (Ascii.eqb "/") s = false →
       Str.existsb (Ascii.eqb "/") (pretty_N_go x s) = false.
Proof.
  induction (N.lt_wf_0 x) as [x _ IH]; intros s Hs.
  destruct (decide (x = 0%N)) as [->|Hx]; [by rewrite pretty_N_go_0|].
  rewrite pretty_N_go_step by lia. apply IH.
  - apply N.div_lt; lia.
  - cbn [Str.existsb]. rewrite Hs, orb_false_r.
    unfold pretty_N_char. by repeat case_match.
Qed.

Lemma pretty_Z_no_slash (z : Z) :
  Str.existsb (Ascii.eqb "/") (pretty z) = false.
Proof.
  assert (HN : ∀ n : N, Str.existsb (Ascii.eqb "/") (pretty n) = false).
  { intros n. unfold pretty, pretty_N. case_decide; [done|].
    by apply pretty_N_go_no_slash. }
  destruct z as [|p|p]; [done | apply (HN (Npos p)) |].
  change (pretty (Zneg p)) with ("-" +:+ pretty (Npos p)).
  rewrite str_existsb_app. by rewrite HN.
Qed.

(** ** The store *)

Lemma matches_agree (where_ r1 r2 : row) :
  (∀ c, is_Some (where_ !! c) → r1 !! c = r2 !! c) →
  Database.matches where_ r1 = Database.matches where_ r2.
Proof.
  intros Hagree. unfold Database.matches. apply bool_decide_ext.
  unfold map_Forall.
  split; intros Hall c v Hc; specialize (Hall c v Hc); simpl in *;
    assert (Heq : r1 !! c = r2 !! c) by (apply Hagree; eauto);
    congruence.
Qed.

Lemma matches_lookup (where_ r : row) (c : string) (v : val) :
  Database.matches where_ r = true → where_ !! c = Some v → r !! c = Some v.
Proof.
  unfold Database.matches. intros Hm Hc.
  apply bool_decide_eq_true in Hm. specialize (Hm c v Hc). simpl in Hm.
  unfold Database.sql_eq in Hm.
  destruct (r !! c) as [[]|] eqn:E; destruct v; try discriminate;
    apply bool_decide_eq_true in Hm; congruence.
Qed.

Lemma by_query_key_cols (q k : val) (c : string) :
  is_Some (by_query_key q k !! c) → c = "query" ∨ c = "key".
Proof.
  unfold by_query_key. intros [v Hv].
  destruct (decide (c = "query")) as [|Hq]; [by left|].
  destruct (decide (c = "key")) as [|Hk]; [by right|].
  rewrite lookup_insert_ne in Hv by done.
  rewrite lookup_singleton_ne in Hv by done. discriminate.
Qed.

(** An update of columns other than [query] and [key] does not change which
    rows a [query]-and-[key] test selects. *)
Lemma matches_update_other (q k : val) (upd r : row) :
  upd !! "query" = None → upd !! "key" = None →
  Database.matches (by_query_key q k) (upd ∪ r)
  = Database.matches (by_query_key q k) r.
Proof.
  intros Hq Hk. apply matches_agree. intros c Hc.
  apply by_query_key_cols in Hc as [->| ->]; by rewrite lookup_union_r.
Qed.

Lemma update_count_pos (table : list row) (where_ : row) :
  (0 <? Z.of_nat (length (List.filter (Database.matches where_) table))) = true
  ↔ ∃ r, r ∈ table ∧ Database.matches where_ r = true.
Proof.
  rewrite Z.ltb_lt. split.
  - intros Hpos.
    destruct (List.filter (Database.matches where_) table) as [|r l] eqn:E;
      [simpl in Hpos; lia|].
    assert (Hin : In r (List.filter (Database.matches where_) table))
      by (rewrite E; by left).
    apply filter_In in Hin as [Hin Hm]. exists r. split; [|done].
    by apply list_elem_of_In.
  - intros (r & Hin & Hm).
    assert (Hin' : In r (List.filter (Database.matches where_) table)).
    { apply filter_In. split; [by apply list_elem_of_In | done]. }
    destruct (List.filter (Database.matches where_) table); [destruct Hin'|].
    simpl. lia.
Qed.

Lemma sql_eq_true (stored : option val) (v : val) :
  Database.sql_eq stored v = true ↔ stored = Some v ∧ v ≠ VNone.
Proof.
  unfold Database.sql_eq. split.
  - destruct stored as [[]|]; destruct v; try discriminate;
      intros Heq%bool_decide_eq_true; split; congruence.
  - intros [-> Hv]. destruct v; try done; by apply bool_decide_eq_true.
Qed.

Lemma matches_singleton (c : string) (v : val) (r : row) :
  Database.matches {[ c := v ]} r = true ↔ r !! c = Some v ∧ v ≠ VNone.
Proof.
  unfold Database.matches. rewrite bool_decide_eq_true.
  rewrite map_Forall_singleton. apply sql_eq_true.
Qed.

Lemma matches_by_query_key (q k : val) (r : row) :
  Database.matches (by_query_key q k) r = true
  ↔ (r !! "query" = Some q ∧ q ≠ VNone) ∧ (r !! "key" = Some k ∧ k ≠ VNone).
Proof.
  unfold Database.matches, by_query_key. rewrite bool_decide_eq_true.
  rewrite map_Forall_insert by (by rewrite lookup_singleton_ne).
  rewrite map_Forall_singleton. by rewrite !sql_eq_true.
Qed.

Lemma fetchone_Some (table : list row) (where_ r : row) :
  Database.fetchone table where_ = Some r →
  r ∈ table ∧ Database.matches where_ r = true.
Proof.
  unfold Database.fetchone. intros [Hin Hm]%find_some.
  split; [by apply list_elem_of_In | done].
Qed.

Lemma fetchone_None (table : list row) (where_ : row) :
  Database.fetchone table where_ = None
  ↔ ∀ r, r ∈ table → Database.matches where_ r = false.
Proof.
  unfold Database.fetchone. split.
  - intros Hnone r Hin. eapply find_none; [done | by apply list_elem_of_In].
  - intros Hall. destruct (find _ table) as [r|] eqn:E; [|done].
    apply find_some in E as [Hin Hm].
    apply list_elem_of_In, Hall in Hin. congruence.
Qed.

Lemma fetchone_is_Some (table : list row) (where_ r : row) :
  r ∈ table → Database.matches where_ r = true →
  is_Some (Database.fetchone table where_).
Proof.
  intros Hin Hm. destruct (Database.fetchone table where_) eqn:E; [by eexists|].
  rewrite fetchone_None in E. specialize (E r Hin). congruence.
Qed.

Lemma dict_truthy_lookup (d : row) (c : string) (v : val) :
  d !! c = Some v → dict_truthy d = true.
Proof.
  intros Hc. unfold dict_truthy. apply negb_true_iff, bool_decide_eq_false.
  intros ->. by rewrite lookup_empty in Hc.
Qed.

(** ** [finish] *)

(** C2: on an unfinished record, [finish(row_count)] writes
    [is_finished = True] and [num_rows = row_count] to the rows of the
    store with the record's query and key, leaves the other rows alone, and
    sets the same two fields in memory; right after it [is_finished()]
    answers [True] and the record's [num_rows] is [row_count]. *)
Theorem finish_persists_and_updates (row_count : Z) (w : world) (fin q k : val) :
  self_data (self w) !! "is_finished" = Some fin →
  truthy fin = false →
  self_data (self w) !! "query" = Some q →
  self_data (self w) !! "key" = Some k →
  let written : row :=
    {[ "is_finished" := VBool true; "num_rows" := VInt row_count ]} in
  ∃ w',
    finish row_count w = Ok tt w'
    ∧ db w' = List.map (fun r => if Database.matches (by_query_key q k) r
                                 then written ∪ r else r) (db w)
    ∧ (∀ r', r' ∈ db w' → Database.matches (by_query_key q k) r' = true →
         r' !! "is_finished" = Some (VBool true)
         ∧ r' !! "num_rows" = Some (VInt row_count))
    ∧ self_data (self w')
      = <["num_rows" := VInt row_count]>
          (<["is_finished" := VBool true]> (self_data (self w)))
    ∧ self_key (self w') = self_key (self w)
    ∧ self_query (self w') = self_query (self w)
    ∧ files w' = files w
    ∧ is_finished w' = Ok true w'
    ∧ self_data (self w') !! "num_rows" = Some (VInt row_count).
Proof.
  intros Hfin Hfalse Hq Hk written.
  eexists. split.
  { unfold finish. mrun. rewrite Hfalse. mrun. reflexivity. }
  cbn beta iota delta [self db files self_key self_query self_data].
  split; [reflexivity|]. split.
  { intros r' Hin Hm. apply list_elem_of_In, in_map_iff in Hin as (r & <- & _).
    unfold by_query_key in *.
    destruct (Database.matches _ r) eqn:E; [|congruence].
    subst written.
    split; apply lookup_union_Some_l;
      [by rewrite lookup_insert_eq
      | rewrite lookup_insert_ne by done; by rewrite lookup_singleton_eq]. }
  repeat split.
  - unfold is_finished.
    erewrite run_bind, run_data_get_Some.
    + rewrite run_ret. by rewrite bool_decide_eq_true_2.
    + cbn beta iota delta [self self_data].
      rewrite lookup_insert_ne by done. by rewrite lookup_insert_eq.
  - by rewrite lookup_insert_eq.
Qed.

Lemma finish_persists_and_updates_witness :
  ∃ w', finish 42 sample_world = Ok tt w'
        ∧ is_finished w' = Ok true w'
        ∧ self_data (self w') !! "num_rows" = Some (VInt 42).
Proof.
  destruct (finish_persists_and_updates 42 sample_world
              (VBool false) (VStr "cats") (VStr "k1"))
    as (w' & Hrun & _ & _ & _ & _ & _ & _ & Hfin & Hrows);
    [vm_compute; reflexivity | reflexivity | vm_compute; reflexivity
    | vm_compute; reflexivity |].
  exists w'. auto.
Defined.

(** C3: on a record whose [is_finished] is already set, [finish] and
    [reserve_result_file] both raise (the [RuntimeError] the taxonomy calls
    AlreadyFinishedError); nothing is returned, and the object, the store
    and the files are as they were. *)
Theorem finished_record_rejects `{Environment} (w : world) (fin : val)
    (row_count : Z) (extension : string) :
  self_data (self w) !! "is_finished" = Some fin →
  truthy fin = true →
  finish row_count w
    = Raise (RuntimeError "Cannot finish a finished query again") w
  ∧ reserve_result_file extension w
    = Raise (RuntimeError "Cannot reserve results file for a finished query") w.
Proof.
  intros Hfin Htrue. split.
  - unfold finish. mrun. rewrite Htrue. by mrun.
  - unfold reserve_result_file. mrun. rewrite Htrue. by mrun.
Qed.

Lemma finished_record_rejects_witness :
  finish 7 finished_world
    = Raise (RuntimeError "Cannot finish a finished query again") finished_world
  ∧ reserve_result_file (H := sample_env) "csv" finished_world
    = Raise (RuntimeError "Cannot reserve results file for a finished query")
            finished_world.
Proof.
  apply (finished_record_rejects (H := sample_env) finished_world (VBool true));
    [vm_compute; reflexivity | reflexivity].
Defined.

(** ** [get_parameters] *)

(** C7: when the stored parameter document is text, [get_parameters]
    returns what the parser makes of it, and the empty mapping when the
    parser rejects it; it does not raise, and changes nothing. *)
Theorem get_parameters_fails_soft `{Environment} (w : world) (s : string) :
  self_data (self w) !! "parameters" = Some (VStr s) →
  get_parameters w
  = Ok (match json_loads s with Some v => v | None => PDict [] end) w.
Proof.
  intros Hp. unfold get_parameters. mrun.
  destruct (json_loads s); by mrun.
Qed.

Lemma get_parameters_fails_soft_witness :
  get_parameters (H := sample_env)
    (World (Object (VStr "k1") (VStr "cats")
              (<["parameters" := VStr "{'broken"]> sample_data)) [] ∅)
  = Ok (PDict [])
       (World (Object (VStr "k1") (VStr "cats")
                 (<["parameters" := VStr "{'broken"]> sample_data)) [] ∅).
Proof.
  apply (get_parameters_fails_soft (H := sample_env)
           (World (Object (VStr "k1") (VStr "cats")
                     (<["parameters" := VStr "{'broken"]> sample_data)) [] ∅)
           "{'broken").
  vm_compute; reflexivity.
Defined.

(** ** Resolve by key *)

Lemma new_by_key_found `{Environment} (key : string) (query : option string)
    (parameters : pyval) (parent : option string) (extension : string)
    (now : Z) (store : list row) (fs : gset string) (cur : row) (qv : val) :
  Database.fetchone store {[ "key" := VStr key ]} = Some cur →
  cur !! "query" = Some qv →
  new query parameters (Some key) parent extension now store fs
  = Ok tt (World (Object (VStr key) qv cur) store fs).
Proof.
  intros Hf Hqv. unfold new, __init__, blank. mrun. rewrite Hf.
  cbv beta iota delta [row_truthy default].
  rewrite (dict_truthy_lookup _ _ _ Hqv). mrun.
  rewrite (dict_truthy_lookup _ _ _ Hqv). by mrun.
Qed.

(** C8: constructing with a key that no stored row carries raises (the
    [TypeError] the taxonomy calls NotFoundError) and leaves the store as it
    was; when rows carry the key, the record is the first of them: its key
    is the requested key and its query text and data are the stored ones. *)
Theorem resolve_by_key `{Environment} (key : string) (query : option string)
    (parameters : pyval) (parent : option string) (extension : string)
    (now : Z) (store : list row) (fs : gset string) :
  ((∀ r, r ∈ store → r !! "key" ≠ Some (VStr key)) →
   new query parameters (Some key) parent extension now store fs
   = Raise (TypeError
       "SearchQuery() requires a valid query key for its 'key' argument")
       (World (Object (VStr key) VNone ∅) store fs))
  ∧ ((∃ r, r ∈ store ∧ r !! "key" = Some (VStr key)) →
     (∀ r, r ∈ store → is_Some (r !! "query")) →
     ∃ cur stored_query,
       new query parameters (Some key) parent extension now store fs
       = Ok tt (World (Object (VStr key) stored_query cur) store fs)
       ∧ cur ∈ store
       ∧ cur !! "key" = Some (VStr key)
       ∧ cur !! "query" = Some stored_query
       ∧ Database.fetchone store {[ "key" := VStr key ]} = Some cur).
Proof.
  split.
  - intros Hnone.
    assert (Hf : Database.fetchone store {[ "key" := VStr key ]} = None).
    { apply fetchone_None. intros r Hin.
      destruct (Database.matches _ r) eqn:E; [|done].
      apply matches_singleton in E as [E _]. by apply Hnone in Hin. }
    unfold new, __init__, blank. mrun. rewrite Hf.
    cbv beta iota delta [row_truthy]. by mrun.
  - intros (r & Hin & Hkey) Hcols.
    destruct (fetchone_is_Some store {[ "key" := VStr key ]} r Hin)
      as [cur Hf]; [by apply matches_singleton|].
    destruct (fetchone_Some _ _ _ Hf) as [Hcur Hm].
    apply matches_singleton in Hm as [Hk _].
    destruct (Hcols cur Hcur) as [qv Hqv].
    exists cur, qv. split; [|done]. by apply new_by_key_found.
Qed.

Lemma resolve_by_key_witness :
  new (H := sample_env) None PNone (Some "nope") None "csv" 0 [sample_data] ∅
  = Raise (TypeError
      "SearchQuery() requires a valid query key for its 'key' argument")
      (World (Object (VStr "nope") VNone ∅) [sample_data] ∅)
  ∧ ∃ cur stored_query,
      new (H := sample_env) None PNone (Some "k1") None "csv" 0 [sample_data] ∅
      = Ok tt (World (Object (VStr "k1") stored_query cur) [sample_data] ∅)
      ∧ cur ∈ [sample_data]
      ∧ cur !! "key" = Some (VStr "k1")
      ∧ cur !! "query" = Some stored_query
      ∧ Database.fetchone [sample_data] {[ "key" := VStr "k1" ]} = Some cur.
Proof.
  split.
  - apply (resolve_by_key (H := sample_env) "nope" None PNone None "csv" 0
             [sample_data] ∅).
    intros r ->%list_elem_of_singleton. vm_compute. discriminate.
  - apply (resolve_by_key (H := sample_env) "k1" None PNone None "csv" 0
             [sample_data] ∅).
    + exists sample_data. split; [apply list_elem_of_here | vm_compute; reflexivity].
    + intros r ->%list_elem_of_singleton. vm_compute. by eexists.
Defined.

(** ** The probing loop of [reserve_result_file] *)

Section Probe.
Context `{Environment}.

Lemma numbered_inj (file ext : string) : Inj (=) (=) (numbered file ext).
Proof.
  intros i j Heq. unfold numbered in Heq.
  apply (inj (String.app folder)) in Heq.
  rewrite !str_app_cons in Heq. injection Heq as Heq.
  apply (inj (String.app file)) in Heq. injection Heq as Heq.
  rewrite !str_app_nil in Heq. apply str_app_inv_tail in Heq. by apply (inj pretty) in Heq.
Qed.

(** What the loop has seen when it stops, and when it runs out of fuel. *)
Lemma probe_outcome (fuel : nat) (file ext : string) :
  ∀ (path : string) (index : Z) (w : world),
    match probe fuel file ext path index w with
    | Ok p w' =>
        w' = w ∧ (p ∉ files w)
        ∧ (p = path
           ∨ ∃ n, index ≤ n ∧ p = numbered file ext n ∧ path ∈ files w
                  ∧ ∀ j, index ≤ j < n → numbered file ext j ∈ files w)
    | Raise _ _ => False
    | Diverge =>
        (fuel ≠ O → path ∈ files w)
        ∧ ∀ j, index ≤ j < index + Z.of_nat fuel - 1 →
               numbered file ext j ∈ files w
    end.
Proof.
  induction fuel as [|fuel IH]; intros path index w.
  - simpl. split; [done | intros j Hj; lia].
  - cbn [probe]. rewrite run_bind, run_isfile. cbv beta iota.
    destruct (decide (path ∈ files w)) as [Hin|Hout].
    + rewrite bool_decide_eq_true_2 by done.
      specialize (IH (numbered file ext index) (index + 1) w).
      destruct (probe fuel file ext (numbered file ext index) (index + 1) w)
        as [p w'| |]; [|done|].
      * destruct IH as (-> & Hp & Hcase). split; [done|]. split; [done|].
        right. destruct Hcase as [->|(n & Hn & -> & Hfirst & Hbelow)].
        -- exists index. split; [lia|]. split; [done|]. split; [done|].
           intros j Hj. lia.
        -- exists n. split; [lia|]. split; [done|]. split; [done|].
           intros j Hj. destruct (decide (j = index)) as [->|Hne]; [done|].
           apply Hbelow. lia.
      * destruct IH as [Hfirst Hbelow]. split; [done|].
        intros j Hj. destruct (decide (j = index)) as [->|Hne].
        -- apply Hfirst. lia.
        -- apply Hbelow. lia.
    + rewrite bool_decide_eq_false_2 by done. rewrite run_ret.
      split; [done|]. split; [done|]. by left.
Qed.

(** More numbered names than files: one of them is free. *)
Lemma numbered_not_all_taken (file ext : string) (index : Z)
    (fs : gset string) :
  ¬ ∀ j, index ≤ j < index + Z.of_nat (S (size fs)) →
         numbered file ext j ∈ fs.
Proof.
  intros Hall.
  set (names := (fun j : nat => numbered file ext (index + Z.of_nat j))
                  <$> seq 0 (S (size fs))).
  assert (Hnodup : NoDup names).
  { apply NoDup_fmap_2_strong; [|apply NoDup_seq].
    intros i j _ _ Heq. apply (numbered_inj file ext) in Heq. lia. }
  assert (Hsub : list_to_set (C := gset string) names ⊆ fs).
  { intros x [j [-> Hj]]%elem_of_list_to_set%list_elem_of_fmap.
    apply elem_of_seq in Hj. apply Hall. lia. }
  apply subseteq_size in Hsub.
  rewrite size_list_to_set in Hsub by done.
  unfold names in Hsub. rewrite length_fmap, length_seq in Hsub. lia.
Qed.

(** The loop ends with its fuel, on a path at which there is no file. *)
Lemma probe_finds_free (file ext path : string) (index : Z) (w : world) :
  ∃ p,
    probe (S (S (size (files w)))) file ext path index w = Ok p w
    ∧ (p ∉ files w)
    ∧ (p = path
       ∨ ∃ n, index ≤ n ∧ p = numbered file ext n ∧ path ∈ files w
              ∧ ∀ j, index ≤ j < n → numbered file ext j ∈ files w).
Proof.
  pose proof (probe_outcome (S (S (size (files w)))) file ext path index w)
    as Hout.
  destruct (probe _ file ext path index w) as [p w'| |]; [|done|].
  - destruct Hout as (-> & Hp & Hcase). by exists p.
  - destruct Hout as [_ Hall].
    exfalso. apply (numbered_not_all_taken file ext index (files w)).
    intros j Hj. apply Hall. lia.
Qed.

End Probe.

(** ** [reserve_result_file] *)

Lemma str_assoc (a b c : string) : (a +:+ b) +:+ c = a +:+ b +:+ c.
Proof.
  induction a as [|x a IH]; [done|]. rewrite !str_app_cons. by rewrite IH.
Qed.

Lemma in_folder_result_name `{Environment} (query key extension : string) :
  in_folder (result_name query key extension None)
  = folder +:+ "/" +:+ (slug query +:+ "-" +:+ key) +:+ "."
      +:+ Str.lower extension
  ∧ ∀ i, in_folder (result_name query key extension (Some i))
         = numbered (slug query +:+ "-" +:+ key) (Str.lower extension) i.
Proof.
  unfold in_folder, result_name, numbered. split; [|intros i];
    by rewrite !str_assoc.
Qed.

(** The run of [reserve_result_file] on an unfinished record with a text
    query and key: the path the loop stops at is free, and its last
    segment is written to the matching rows and to the object. *)
Lemma reserve_result_file_run `{Environment} (extension : string) (w : world)
    (fin : val) (query key : string) :
  self_data (self w) !! "is_finished" = Some fin →
  truthy fin = false →
  self_data (self w) !! "query" = Some (VStr query) →
  self_data (self w) !! "key" = Some (VStr key) →
  ∃ (n : option Z),
    let path := in_folder (result_name query key extension n) in
    let file := List.last (Str.split "/" path) "" in
    reserve_result_file extension w
    = Ok (0 <? Z.of_nat (length (List.filter
             (Database.matches (by_query_key (VStr query) (VStr key))) (db w))))
         (World (Object (self_key (self w)) (self_query (self w))
                   (<["result_file" := VStr file]> (self_data (self w))))
            (List.map (fun r =>
               if Database.matches (by_query_key (VStr query) (VStr key)) r
               then {[ "result_file" := VStr file ]} ∪ r else r) (db w))
            (files w))
    ∧ (path ∉ files w)
    ∧ match n with
      | None => True
      | Some i =>
          1 ≤ i
          ∧ in_folder (result_name query key extension None) ∈ files w
          ∧ ∀ j, 1 ≤ j < i →
                 in_folder (result_name query key extension (Some j)) ∈ files w
      end.
Proof.
  intros Hfin Hfalse Hq Hk.
  destruct (in_folder_result_name query key extension) as [Hplain Hnum].
  destruct (probe_finds_free (slug query +:+ "-" +:+ key) (Str.lower extension)
              (in_folder (result_name query key extension None)) 1 w)
    as (p & Hrun & Hfree & Hcase).
  assert (Hexec : ∀ file,
    file = List.last (Str.split "/" p) "" →
    reserve_result_file extension w
    = Ok (0 <? Z.of_nat (length (List.filter
             (Database.matches (by_query_key (VStr query) (VStr key))) (db w))))
         (World (Object (self_key (self w)) (self_query (self w))
                   (<["result_file" := VStr file]> (self_data (self w))))
            (List.map (fun r =>
               if Database.matches (by_query_key (VStr query) (VStr key)) r
               then {[ "result_file" := VStr file ]} ∪ r else r) (db w))
            (files w))).
  { intros file ->. unfold reserve_result_file. mrun. rewrite Hfalse. mrun.
    fold (slug query). rewrite <- Hplain. rewrite Hrun. mrun.
    unfold by_query_key. reflexivity. }
  destruct Hcase as [->|(i & Hi & -> & Hfirst & Hbelow)].
  - exists None. cbv zeta. split; [by apply Hexec|]. done.
  - exists (Some i). cbv zeta. rewrite Hnum. split; [by apply Hexec|].
    split; [done|]. split; [done|]. split; [done|].
    intros j Hj. rewrite Hnum. by apply Hbelow.
Qed.

Lemma result_name_no_slash (query key extension : string) (n : option Z) :
  has_slash key = false → has_slash extension = false →
  has_slash (result_name query key extension n) = false.
Proof.
  unfold has_slash, result_name, slug. intros Hk He.
  destruct n as [i|]; rewrite !str_existsb_app;
    rewrite existsb_slash_filter, existsb_slash_lower, Hk, He;
    [by rewrite pretty_Z_no_slash | done].
Qed.

Lemma last_segment_of_path (pre name : string) :
  List.last (Str.split "/" (pre +:+ "/" +:+ name)) ""
  = List.last (Str.split "/" name) "".
Proof.
  rewrite str_app_cons, str_app_nil, split_app_sep.
  by rewrite last_app_nonempty by apply split_nonempty.
Qed.

(** C5, as the code has it: on an unfinished record,
    [reserve_result_file(extension)] picks the name [slug-key.ext], with
    [ext] the extension in lower case, when no file has it in the result
    folder, and otherwise the first [slug-key-n.ext], n = 1, 2, ..., that
    no file has.  What it stores, in the object and in the rows with the
    record's query and key, is the part of that name after its last slash;
    the call answers [True] exactly when there is such a row.  When the
    key and the extension hold no slash the stored name is the name picked
    itself, and so never that of a file of the folder.  The slug is the
    query text in lower case, spaces turned into hyphens, stripped of
    everything but a-z, 0-9 and the hyphen. *)
Theorem reserve_result_file_reserves `{Environment} (extension : string)
    (w : world) (fin : val) (query key : string) :
  self_data (self w) !! "is_finished" = Some fin →
  truthy fin = false →
  self_data (self w) !! "query" = Some (VStr query) →
  self_data (self w) !! "key" = Some (VStr key) →
  ∃ (n : option Z) (updated : bool) (w' : world),
    let name := result_name query key extension n in
    let stored := List.last (Str.split "/" name) "" in
    reserve_result_file extension w = Ok updated w'
    ∧ (in_folder name ∉ files w)
    ∧ match n with
      | None => True
      | Some i =>
          1 ≤ i
          ∧ in_folder (result_name query key extension None) ∈ files w
          ∧ ∀ j, 1 ≤ j < i →
                 in_folder (result_name query key extension (Some j)) ∈ files w
      end
    ∧ self_data (self w')
      = <["result_file" := VStr stored]> (self_data (self w))
    ∧ db w' = List.map (fun r =>
                if Database.matches (by_query_key (VStr query) (VStr key)) r
                then {[ "result_file" := VStr stored ]} ∪ r else r) (db w)
    ∧ files w' = files w
    ∧ (updated = true
       ↔ ∃ r, r ∈ db w
              ∧ Database.matches (by_query_key (VStr query) (VStr key)) r = true)
    ∧ slug query
      = Str.filter slug_char (Str.replace " " "-" (Str.lower query))
    ∧ (has_slash key = false → has_slash extension = false →
       stored = name).
Proof.
  intros Hfin Hfalse Hq Hk.
  destruct (reserve_result_file_run extension w fin query key Hfin Hfalse Hq Hk)
    as (n & Hrun & Hfree & Htaken).
  cbv zeta in Hrun, Hfree.
  unfold in_folder in Hrun. rewrite last_segment_of_path in Hrun.
  exists n. eexists. eexists. cbv zeta.
  split; [exact Hrun|]. split; [exact Hfree|]. split; [exact Htaken|].
  cbn [self db files self_data].
  split; [reflexivity|]. split; [reflexivity|]. split; [reflexivity|].
  split; [apply update_count_pos|].
  split; [unfold slug; by rewrite lower_replace|].
  intros Hkey Hext.
  pose proof (result_name_no_slash query key extension n Hkey Hext) as Hname.
  unfold has_slash in Hname. by rewrite split_no_sep.
Qed.

Lemma reserve_result_file_reserves_witness :
  ∃ (updated : bool) (w' : world),
    reserve_result_file (H := sample_env) "csv" taken_world = Ok updated w'
    ∧ self_data (self w')
      = <["result_file" := VStr "cats-k1-1.csv"]>
          (self_data (self taken_world))
    ∧ in_folder (H := sample_env) "cats-k1.csv" ∈ files taken_world
    ∧ in_folder (H := sample_env) "cats-k1-1.csv" ∉ files taken_world.
Proof.
  destruct (reserve_result_file_reserves (H := sample_env) "csv" taken_world
              (VBool false) "cats" "k1")
    as (n & updated & w' & Hrun & Hfree & Htaken & Hdata & _ & _ & _ & _
        & Hplain);
    [vm_compute; reflexivity | reflexivity | vm_compute; reflexivity
    | vm_compute; reflexivity |].
  cbv zeta in *. rewrite (Hplain eq_refl eq_refl) in Hdata.
  assert (in_folder (H := sample_env) "cats-k1.csv" ∈ files taken_world)
    as Hfirst by (vm_compute; set_solver).
  destruct n as [i|]; [|by destruct Hfree].
  destruct Htaken as (Hi & _ & Hbelow).
  destruct (decide (i = 1)) as [->|Hne].
  - exists updated, w'. split; [exact Hrun|]. split; [exact Hdata|].
    split; [exact Hfirst|exact Hfree].
  - exfalso. assert (1 ≤ 1 < i) as Hone by lia.
    apply Hbelow in Hone. unfold taken_world in Hone. cbn [files] in Hone.
    apply elem_of_singleton in Hone. vm_compute in Hone. discriminate Hone.
Defined.

(** With a slash in the extension the stored name is the part after it,
    here the name of a file that exists. *)
Remark reserve_result_file_slash_extension :
  reserve_result_file (H := sample_env) "x/y"
    (World (Object (VStr "k1") (VStr "cats") sample_data) [] files_with_y)
  = Ok false
      (World (Object (VStr "k1") (VStr "cats")
                (<["result_file" := VStr "y"]> sample_data)) [] files_with_y)
  ∧ in_folder (H := sample_env) "y" ∈ files_with_y.
Proof. split; [vm_compute; reflexivity | vm_compute; set_solver]. Qed.

(** C5 as stated fails on the extension: an upper-case extension is not
    appended as given, the name ends in its lower-case form. *)
Lemma reserve_result_file_lowers_extension :
  reserve_result_file (H := sample_env) "CSV" sample_world
  = Ok true
      (World (Object (VStr "k1") (VStr "cats")
                (<["result_file" := VStr "cats-k1.csv"]> sample_data))
             [ {[ "result_file" := VStr "cats-k1.csv" ]} ∪ sample_data ] ∅)
  ∧ "cats-k1.csv" ≠ slug "cats" +:+ "-" +:+ "k1" +:+ "." +:+ "CSV".
Proof. split; [vm_compute; reflexivity | vm_compute; discriminate]. Qed.

(** ** [get_key] *)

Lemma str_forallb_app (p : ascii -> bool) (s t : string) :
  Str.forallb p (s +:+ t) = Str.forallb p s && Str.forallb p t.
Proof.
  induction s as [|c s IH]; [done|].
  rewrite str_app_cons. cbn [Str.forallb]. by rewrite IH, andb_assoc.
Qed.

Lemma hex_digit_is_hex (x : Z) : Str.is_hex_digit (Str.hex_digit x) = true.
Proof.
  unfold Str.hex_digit.
  pose proof (Z.mod_pos_bound x 16 eq_refl) as Hb.
  assert (Hn : (Z.to_nat (x mod 16) < 16)%nat) by lia.
  revert Hn. generalize (Z.to_nat (x mod 16)). intros n Hn.
  do 16 (destruct n as [|n]; [reflexivity|]). lia.
Qed.

Lemma hex_word_shape (x : Z) :
  String.length (MD5.hex_word x) = 8%nat
  ∧ Str.forallb Str.is_hex_digit (MD5.hex_word x) = true.
Proof.
  unfold MD5.hex_word, Str.hex_byte. split; [reflexivity|].
  rewrite !str_app_cons, !str_app_nil. cbn [Str.forallb].
  by rewrite !hex_digit_is_hex.
Qed.

(** C6, as the code has it: [get_key] is a function of the query text and
    the parameters alone, the MD5 digest of the UTF-8 bytes of
    [repr(parameters) + query], written as 32 lower-case hexadecimal
    digits; equal arguments, dictionary order included, give equal keys. *)
Theorem get_key_is_md5_hex (query : string) (parameters : pyval) :
  get_key query parameters
  = MD5.hexdigest (Str.encode_utf8 (Py.repr parameters +:+ query))
  ∧ String.length (get_key query parameters) = 32%nat
  ∧ Str.forallb Str.is_hex_digit (get_key query parameters) = true.
Proof.
  split; [reflexivity|]. unfold get_key, MD5.hexdigest.
  generalize (MD5.digest (Str.encode_utf8 (Py.repr parameters +:+ query))).
  intros r. cbv zeta.
  destruct (hex_word_shape (MD5.rA r)) as [La Ha].
  destruct (hex_word_shape (MD5.rB r)) as [Lb Hb].
  destruct (hex_word_shape (MD5.rC r)) as [Lc Hc].
  destruct (hex_word_shape (MD5.rD r)) as [Ld Hd].
  split.
  - rewrite !str_length_app, La, Lb, Lc, Ld. reflexivity.
  - rewrite !str_forallb_app, Ha, Hb, Hc, Hd. reflexivity.
Qed.

(** C6 as stated fails on the ordering: the same two parameters supplied
    in the other order give another key. *)
Lemma get_key_depends_on_order :
  reordered board_first board_last
  ∧ get_key "climate change" board_first
    ≠ get_key "climate change" board_last.
Proof.
  split; [apply perm_swap|]. vm_compute. discriminate.
Qed.

(** ** The constructor *)

Lemma key_query_where (q k : val) :
  ({[ "key" := k; "query" := q ]} : row) = by_query_key q k.
Proof.
  unfold by_query_key. rewrite <- !insert_empty. by apply insert_insert_ne.
Qed.

Lemma fetchone_app (t1 t2 : list row) (where_ : row) :
  Database.fetchone (t1 ++ t2) where_
  = match Database.fetchone t1 where_ with
    | Some r => Some r
    | None => Database.fetchone t2 where_
    end.
Proof.
  unfold Database.fetchone. induction t1 as [|r t1 IH]; [done|].
  cbn [app find]. by destruct (Database.matches where_ r).
Qed.

(** An update that writes none of the columns a lookup tests keeps the row
    the lookup finds, updated like the others. *)
Lemma fetchone_map_update (g : row -> bool) (upd where_ : row)
    (table : list row) :
  (∀ c, is_Some (where_ !! c) → upd !! c = None) →
  Database.fetchone
    (List.map (fun r => if g r then upd ∪ r else r) table) where_
  = (fun r => if g r then upd ∪ r else r) <$> Database.fetchone table where_.
Proof.
  intros Hcols. unfold Database.fetchone.
  induction table as [|r table IH]; [done|]. cbn [List.map find].
  replace (Database.matches where_ (if g r then upd ∪ r else r))
    with (Database.matches where_ r).
  - by destruct (Database.matches where_ r).
  - destruct (g r); [|done]. apply matches_agree.
    intros c Hc. by rewrite lookup_union_r by (by apply Hcols).
Qed.

Lemma fetchone_update_other (q k : val) (upd : row) (table : list row) :
  upd !! "query" = None → upd !! "key" = None →
  Database.fetchone
    (List.map (fun r => if Database.matches (by_query_key q k) r
                        then upd ∪ r else r) table)
    (by_query_key q k)
  = (fun r => upd ∪ r) <$> Database.fetchone table (by_query_key q k).
Proof.
  intros Hq Hk. rewrite fetchone_map_update.
  - destruct (Database.fetchone table (by_query_key q k)) as [r|] eqn:E;
      [|done].
    apply fetchone_Some in E as [_ E]. cbn [fmap option_fmap option_map].
    by rewrite E.
  - by intros c [->| ->]%by_query_key_cols.
Qed.

Lemma new_data_lookup (query : string) (parameters : pyval)
    (parent : option string) (now : Z) :
  new_data query parameters parent now !! "is_finished" = Some (VBool false)
  ∧ new_data query parameters parent now !! "query" = Some (VStr query)
  ∧ new_data query parameters parent now !! "key"
    = Some (VStr (get_key query parameters)).
Proof.
  unfold new_data. cbv zeta.
  assert (Hparent : ∀ (d : row) (c : string) (v : val),
    c ≠ "key_parent" → d !! c = Some v →
    match parent with
    | Some p => if String.eqb p "" then d else <["key_parent" := VStr p]> d
    | None => d
    end !! c = Some v).
  { intros d c v Hc Hd. destruct parent as [p|]; [|done].
    destruct (String.eqb p ""); [done|]. by rewrite lookup_insert_ne. }
  repeat split; (apply Hparent; [done|]).
  - rewrite !lookup_insert_ne by done. by rewrite lookup_singleton_eq.
  - rewrite lookup_insert_ne by done. by rewrite lookup_insert_eq.
  - by rewrite lookup_insert_eq.
Qed.

(** The record is in the store: the constructor loads the first row with
    its key and query text, and writes nothing. *)
Lemma new_existing `{Environment} (query : string) (parameters : pyval)
    (parent : option string) (extension : string) (now : Z)
    (store : list row) (fs : gset string) (cur : row) :
  parameters ≠ PNone →
  Database.fetchone store
    (by_query_key (VStr query) (VStr (get_key query parameters))) = Some cur →
  new (Some query) parameters None parent extension now store fs
  = Ok tt (World (Object (VStr (get_key query parameters)) (VStr query) cur)
                 store fs).
Proof.
  intros Hp Hf.
  destruct (fetchone_Some _ _ _ Hf) as [_ [[Hq _] _]%matches_by_query_key].
  unfold new, __init__, blank.
  destruct parameters; try done; mrun; rewrite key_query_where, Hf;
    cbn beta iota delta [row_truthy default];
    rewrite (dict_truthy_lookup _ _ _ Hq); by mrun.
Qed.

(** The record is not in the store: the constructor inserts its row and
    reserves the result file on it. *)
Lemma new_fresh `{Environment} (query : string) (parameters : pyval)
    (parent : option string) (extension : string) (now : Z)
    (store : list row) (fs : gset string) :
  parameters ≠ PNone →
  Database.fetchone store
    (by_query_key (VStr query) (VStr (get_key query parameters))) = None →
  ∃ (file : string),
    let d := new_data query parameters parent now in
    let upd : row := {[ "result_file" := VStr file ]} in
    new (Some query) parameters None parent extension now store fs
    = Ok tt (World (Object (VStr (get_key query parameters)) (VStr query)
                      (<["result_file" := VStr file]> d))
               (List.map (fun r =>
                  if Database.matches
                       (by_query_key (VStr query)
                                     (VStr (get_key query parameters))) r
                  then upd ∪ r else r)
                  (store ++ [d ∪ column_defaults]))
               fs).
Proof.
  intros Hp Hf.
  destruct (new_data_lookup query parameters parent now) as (Hfin & Hq & Hk).
  set (k := get_key query parameters) in *.
  destruct (reserve_result_file_run extension
              (World (Object (VStr k) (VStr query)
                        (new_data query parameters parent now))
                     (store ++ [new_data query parameters parent now
                                ∪ column_defaults]) fs)
              (VBool false) query k Hfin eq_refl Hq Hk)
    as (n & Hrun & _).
  cbv zeta in Hrun. cbn [self db files self_key self_query self_data] in Hrun.
  eexists. cbv zeta.
  unfold new, __init__, blank.
  unfold new_data in *. cbv zeta in *. fold k in Hrun |- *.
  destruct parent as [p|]; [destruct (String.eqb p "") eqn:E|];
    (destruct parameters; [congruence|..]);
    mrun; fold k; rewrite key_query_where, Hf;
    cbn beta iota delta [row_truthy]; mrun;
    change (opt_str (Some query)) with (VStr query);
    rewrite Hrun; mrun; reflexivity.
Qed.

(** What the constructor leaves behind, in both cases: the record's row is
    in the store, first among the rows with its key and query text. *)
Lemma new_outcome `{Environment} (query : string) (parameters : pyval)
    (parent : option string) (extension : string) (now : Z)
    (store : list row) (fs : gset string) :
  parameters ≠ PNone →
  let k := get_key query parameters in
  let d := new_data query parameters parent now in
  ∃ (w1 : world) (stored : row),
    new (Some query) parameters None parent extension now store fs = Ok tt w1
    ∧ self_key (self w1) = VStr k
    ∧ Database.fetchone (db w1) (by_query_key (VStr query) (VStr k))
      = Some stored
    ∧ ((Database.fetchone store (by_query_key (VStr query) (VStr k))
        = Some stored
        ∧ w1 = World (Object (VStr k) (VStr query) stored) store fs)
       ∨ (Database.fetchone store (by_query_key (VStr query) (VStr k)) = None
          ∧ ∃ file : string,
              self_data (self w1) = <["result_file" := VStr file]> d
              ∧ stored = {[ "result_file" := VStr file ]} ∪ (d ∪ column_defaults)
              ∧ length (db w1) = S (length store))).
Proof.
  intros Hp k d.
  destruct (Database.fetchone store (by_query_key (VStr query) (VStr k)))
    as [cur|] eqn:Hf.
  - exists (World (Object (VStr k) (VStr query) cur) store fs), cur.
    split; [by apply new_existing|]. split; [reflexivity|].
    split; [exact Hf|]. left. by split.
  - destruct (new_fresh query parameters parent extension now store fs Hp Hf)
      as (file & Hnew).
    cbv zeta in Hnew. fold k d in Hnew.
    destruct (new_data_lookup query parameters parent now) as (_ & Hq & Hk).
    fold k d in Hq, Hk.
    eexists. exists ({[ "result_file" := VStr file ]} ∪ (d ∪ column_defaults)).
    split; [exact Hnew|]. cbn [self db self_key self_data].
    split; [reflexivity|]. split.
    + rewrite fetchone_update_other by (by apply lookup_singleton_ne).
      rewrite fetchone_app, Hf.
      unfold Database.fetchone. cbn [find].
      replace (Database.matches (by_query_key (VStr query) (VStr k))
                 (d ∪ column_defaults)) with true; [reflexivity|].
      symmetry. apply matches_by_query_key.
      split; (split; [by apply lookup_union_Some_l | discriminate]).
    + right. split; [reflexivity|]. exists file.
      split; [reflexivity|]. split; [reflexivity|].
      rewrite length_map, length_app. cbn [length]. lia.
Qed.

(** C1: resolve-or-create is idempotent.  A first construction succeeds
    on every store; constructing again with the same query text and
    parameters (whatever the parent, the extension, the time and the files
    then are) gives a record with the same key, leaves the store exactly as
    it was, and takes its data from the stored row, which holds every field
    of the first record with the same value. *)
Theorem resolve_or_create_idempotent `{Environment} (query : string)
    (parameters : pyval) (parent parent' : option string)
    (extension extension' : string) (now now' : Z) (store : list row)
    (fs fs' : gset string) :
  parameters ≠ PNone →
  ∃ (w1 w2 : world),
    new (Some query) parameters None parent extension now store fs = Ok tt w1
    ∧ new (Some query) parameters None parent' extension' now' (db w1) fs'
      = Ok tt w2
    ∧ self_key (self w2) = self_key (self w1)
    ∧ self_key (self w1) = VStr (get_key query parameters)
    ∧ db w2 = db w1
    ∧ Database.fetchone (db w1)
        (by_query_key (VStr query) (VStr (get_key query parameters)))
      = Some (self_data (self w2))
    ∧ (∀ c v, self_data (self w1) !! c = Some v →
              self_data (self w2) !! c = Some v).
Proof.
  intros Hp.
  destruct (new_outcome query parameters parent extension now store fs Hp)
    as (w1 & stored & Hnew & Hkey & Hstored & Hcase).
  exists w1. eexists.
  split; [exact Hnew|].
  split; [by apply new_existing|]. cbn [self db self_key self_data].
  split; [by rewrite Hkey|]. split; [exact Hkey|]. split; [reflexivity|].
  split; [exact Hstored|].
  intros c v Hc. destruct Hcase as [[_ ->]|(_ & file & Hdata & -> & _)].
  - exact Hc.
  - rewrite Hdata in Hc. destruct (decide (c = "result_file")) as [->|Hne].
    + rewrite lookup_insert_eq in Hc. apply lookup_union_Some_l.
      by rewrite lookup_singleton_eq.
    + rewrite lookup_insert_ne in Hc by done.
      rewrite lookup_union_r by (by apply lookup_singleton_ne).
      by apply lookup_union_Some_l.
Qed.

Lemma resolve_or_create_idempotent_witness :
  ∃ (w1 w2 : world),
    new (H := sample_env) (Some "climate change") board_first None None
        "csv" 100 [] ∅ = Ok tt w1
    ∧ new (H := sample_env) (Some "climate change") board_first None None
          "csv" 200 (db w1) ∅ = Ok tt w2
    ∧ self_key (self w2) = self_key (self w1)
    ∧ db w2 = db w1.
Proof.
  destruct (resolve_or_create_idempotent (H := sample_env) "climate change"
              board_first None None "csv" "csv" 100 200 [] ∅ ∅)
    as (w1 & w2 & H1 & H2 & Hk & _ & Hdb & _); [discriminate|].
  exists w1, w2. auto.
Defined.

Lemma new_data_parent (query : string) (parameters : pyval) (p : string)
    (now : Z) :
  p ≠ "" →
  new_data query parameters (Some p) now !! "key_parent" = Some (VStr p).
Proof.
  intros Hp%String.eqb_neq. unfold new_data. cbv zeta. rewrite Hp.
  by rewrite lookup_insert_eq.
Qed.

(** C9, as the code has it: the key is computed from the query label and
    the parameters only.  Whatever the parent, the extension, the time,
    the store and the files, the record built for a label and parameters
    has the key [get_key query parameters]; a stored row with that label
    and key is taken over as it is, whatever parent it records; and so an
    analysis requested under a second parent, with the label and
    parameters of one created under a first parent, gets the first one's
    key and row, parent included, and nothing is inserted for it.  The
    constructor has no argument for a type: a post-processor type is part
    of the key only as the query label. *)
Theorem key_ignores_parent `{Environment} (query : string)
    (parameters : pyval) :
  parameters ≠ PNone →
  let k := get_key query parameters in
  (∀ parent extension now store fs,
     ∃ w, new (Some query) parameters None parent extension now store fs
          = Ok tt w
          ∧ self_key (self w) = VStr k)
  ∧ (∀ cur parent extension now store fs,
       Database.fetchone store (by_query_key (VStr query) (VStr k)) = Some cur →
       new (Some query) parameters None parent extension now store fs
       = Ok tt (World (Object (VStr k) (VStr query) cur) store fs))
  ∧ (∀ p1 parent2 ext1 ext2 now1 now2 store fs1 fs2,
       p1 ≠ "" →
       Database.fetchone store (by_query_key (VStr query) (VStr k)) = None →
       ∃ w1 w2,
         new (Some query) parameters None (Some p1) ext1 now1 store fs1
         = Ok tt w1
         ∧ new (Some query) parameters None parent2 ext2 now2 (db w1) fs2
           = Ok tt w2
         ∧ self_key (self w1) = VStr k
         ∧ self_key (self w2) = VStr k
         ∧ db w2 = db w1
         ∧ self_data (self w1) !! "key_parent" = Some (VStr p1)
         ∧ self_data (self w2) !! "key_parent" = Some (VStr p1)).
Proof.
  intros Hp k. split; [|split].
  - intros parent extension now store fs.
    destruct (new_outcome query parameters parent extension now store fs Hp)
      as (w & _ & Hnew & Hkey & _).
    by exists w.
  - intros cur parent extension now store fs Hf. by apply new_existing.
  - intros p1 parent2 ext1 ext2 now1 now2 store fs1 fs2 Hp1 Hnone.
    destruct (new_outcome query parameters (Some p1) ext1 now1 store fs1 Hp)
      as (w1 & stored & Hnew & Hkey & Hstored & Hcase).
    fold k in Hstored, Hcase, Hkey.
    destruct Hcase as [[Hsome _]|(_ & file & Hdata & -> & _)]; [congruence|].
    pose proof (new_data_parent query parameters p1 now1 Hp1) as Hparent.
    exists w1. eexists.
    split; [exact Hnew|].
    split; [by apply new_existing|]. cbn [self db self_key self_data].
    split; [exact Hkey|]. split; [reflexivity|]. split; [reflexivity|].
    split.
    + rewrite Hdata. by rewrite lookup_insert_ne.
    + rewrite lookup_union_r by (by apply lookup_singleton_ne).
      by apply lookup_union_Some_l.
Qed.

Lemma key_ignores_parent_witness :
  ∃ w1 w2,
    new (H := sample_env) (Some "top-vectors") board_first None (Some "root-a")
        "csv" 100 [] ∅ = Ok tt w1
    ∧ new (H := sample_env) (Some "top-vectors") board_first None
          (Some "root-b") "csv" 200 (db w1) ∅ = Ok tt w2
    ∧ self_key (self w2) = VStr (get_key "top-vectors" board_first)
    ∧ self_data (self w2) !! "key_parent" = Some (VStr "root-a").
Proof.
  destruct (key_ignores_parent (H := sample_env) "top-vectors"
              board_first) as (_ & _ & Hcollide); [discriminate|].
  destruct (Hcollide "root-a" (Some "root-b") "csv" "csv" 100 200 [] ∅ ∅)
    as (w1 & w2 & H1 & H2 & _ & Hk & _ & _ & Hparent);
    [discriminate | reflexivity |].
  exists w1, w2. auto.
Defined.

(** C9 as stated fails on the type: an analysis carries its post-processor
    type as its query label, and two analyses of different types under
    one parent, with the same parameters, get different keys. *)
Lemma analyses_of_two_types_differ :
  ∃ w1 w2,
    new (H := sample_env) (Some "top-vectors") board_first None (Some "root-a")
        "csv" 100 [] ∅ = Ok tt w1
    ∧ new (H := sample_env) (Some "vector-ranker") board_first None
          (Some "root-a") "csv" 200 (db w1) ∅ = Ok tt w2
    ∧ self_key (self w1) ≠ self_key (self w2).
Proof.
  destruct (new_outcome (H := sample_env) "top-vectors" board_first
              (Some "root-a") "csv" 100 [] ∅)
    as (w1 & s1 & H1 & K1 & _); [discriminate|].
  destruct (new_outcome (H := sample_env) "vector-ranker" board_first
              (Some "root-a") "csv" 200 (db w1) ∅)
    as (w2 & s2 & H2 & K2 & _); [discriminate|].
  exists w1, w2. split; [exact H1|]. split; [exact H2|].
  rewrite K1, K2. vm_compute. discriminate.
Qed.

(** ** [check_query_finished] and [set_empty] *)

Lemma check_not_finished `{Environment} (w : world) (fin : val) :
  self_data (self w) !! "is_finished" = Some fin →
  truthy fin = false →
  check_query_finished w = Ok VNone w.
Proof.
  intros Hfin Hfalse. unfold check_query_finished.
  mrun. rewrite Hfalse. mrun. rewrite Hfalse. mrun. rewrite Hfalse. by mrun.
Qed.

Lemma check_file_present `{Environment} (w : world) (fin : val)
    (name : string) :
  self_data (self w) !! "is_finished" = Some fin →
  truthy fin = true →
  self_data (self w) !! "result_file" = Some (VStr name) →
  name ≠ "" →
  in_folder name ∈ files w →
  check_query_finished w = Ok (VStr (in_folder name)) w.
Proof.
  intros Hfin Htrue Hrf Hname%String.eqb_neq Hfile.
  unfold check_query_finished, in_folder in *.
  mrun. rewrite Htrue. mrun. cbn [truthy]. rewrite Hname. cbn [negb]. mrun.
  rewrite bool_decide_eq_true_2 by done. by mrun.
Qed.

Lemma check_no_file `{Environment} (w : world) (fin empty : val)
    (name : string) :
  self_data (self w) !! "is_finished" = Some fin →
  truthy fin = true →
  self_data (self w) !! "result_file" = Some (VStr name) →
  in_folder name ∉ files w →
  self_data (self w) !! "is_empty" = Some empty →
  check_query_finished w
  = Ok (if truthy empty then VStr "empty_file" else VNone) w.
Proof.
  intros Hfin Htrue Hrf Hfile Hempty.
  unfold check_query_finished, in_folder in *.
  mrun. rewrite Htrue. mrun. cbn [truthy].
  destruct (String.eqb name ""); cbn [negb]; mrun;
    [|rewrite bool_decide_eq_false_2 by done; mrun];
    rewrite Htrue; mrun; by destruct (truthy empty).
Qed.

Lemma set_empty_run (w : world) (q k : val) :
  self_data (self w) !! "query" = Some q →
  self_data (self w) !! "key" = Some k →
  set_empty w
  = Ok tt (World (self w)
             (List.map (fun r => if Database.matches (by_query_key q k) r
                                 then {[ "is_empty" := VBool true ]} ∪ r
                                 else r) (db w))
             (files w)).
Proof.
  intros Hq Hk. unfold set_empty, by_query_key. by mrun.
Qed.

Lemma finish_run (row_count : Z) (w : world) (fin q k : val) :
  self_data (self w) !! "is_finished" = Some fin →
  truthy fin = false →
  self_data (self w) !! "query" = Some q →
  self_data (self w) !! "key" = Some k →
  finish row_count w
  = Ok tt (World (Object (self_key (self w)) (self_query (self w))
                    (<["num_rows" := VInt row_count]>
                       (<["is_finished" := VBool true]> (self_data (self w)))))
             (List.map (fun r =>
                if Database.matches (by_query_key q k) r
                then {[ "is_finished" := VBool true;
                        "num_rows" := VInt row_count ]} ∪ r
                else r) (db w))
             (files w)).
Proof.
  intros Hfin Hfalse Hq Hk. unfold finish, by_query_key.
  mrun. rewrite Hfalse. by mrun.
Qed.

Lemma check_no_name `{Environment} (w : world) (fin empty : val) :
  self_data (self w) !! "is_finished" = Some fin →
  truthy fin = true →
  self_data (self w) !! "result_file" = Some (VStr "") →
  self_data (self w) !! "is_empty" = Some empty →
  check_query_finished w
  = Ok (if truthy empty then VStr "empty_file" else VNone) w.
Proof.
  intros Hfin Htrue Hrf Hempty. unfold check_query_finished.
  mrun. rewrite Htrue. mrun. cbn [truthy String.eqb negb]. mrun.
  rewrite Htrue. mrun. by destruct (truthy empty).
Qed.

(** A lookup that one row only can answer does not depend on the order of
    the rows. *)
Lemma find_filter {A} (p : A → bool) (l : list A) :
  List.find p l = hd_error (List.filter p l).
Proof.
  induction l as [|x l IH]; [done|]. cbn [List.find List.filter].
  by destruct (p x).
Qed.

Lemma filter_permutation {A} (p : A → bool) (l1 l2 : list A) :
  l1 ≡ₚ l2 → List.filter p l1 ≡ₚ List.filter p l2.
Proof.
  induction 1 as [|x l1 l2 _ IH|x y l|l1 l2 l3 _ IH1 _ IH2].
  - done.
  - cbn [List.filter]. destruct (p x); [by constructor|done].
  - cbn [List.filter]. destruct (p x), (p y); try done. apply perm_swap.
  - by etrans.
Qed.

Lemma fetchone_unique (table table' : list row) (where_ r0 : row) :
  List.filter (Database.matches where_) table = [r0] →
  table' ≡ₚ table →
  Database.fetchone table' where_ = Some r0.
Proof.
  intros Hone Hperm. unfold Database.fetchone. rewrite find_filter.
  apply (filter_permutation (Database.matches where_)) in Hperm.
  rewrite Hone in Hperm. apply Permutation_singleton_r in Hperm.
  by rewrite Hperm.
Qed.

Lemma filter_map_update (g : row → bool) (upd where_ : row)
    (table : list row) :
  (∀ c, is_Some (where_ !! c) → upd !! c = None) →
  List.filter (Database.matches where_)
    (List.map (fun r => if g r then upd ∪ r else r) table)
  = List.map (fun r => if g r then upd ∪ r else r)
      (List.filter (Database.matches where_) table).
Proof.
  intros Hcols. induction table as [|r table IH]; [done|].
  cbn [List.map List.filter].
  replace (Database.matches where_ (if g r then upd ∪ r else r))
    with (Database.matches where_ r).
  - destruct (Database.matches where_ r); [|done]. cbn [List.map].
    by rewrite IH.
  - destruct (g r); [|done]. apply matches_agree.
    intros c Hc. by rewrite lookup_union_r by (by apply Hcols).
Qed.

(** C10, as the code has it: [set_empty] writes [is_empty = True] to the
    rows of the store with the record's query and key and changes nothing
    in the object.  So on a record that is unfinished and not marked empty
    in memory, after [finish(0)] and [set_empty()] the object's [is_empty]
    is what it was, and [check_query_finished()] on it never answers
    ['empty_file']: it answers the results path when a file is there, and
    [None] otherwise.  When one row of the store carries the key and no
    result file is there, a record loaded again by key, in whatever order
    the store keeps its rows, has [is_empty = True] and answers
    ['empty_file']. *)
Theorem set_empty_leaves_object_stale `{Environment} (w : world)
    (fin q empty : val) (key name : string) :
  self_data (self w) !! "is_finished" = Some fin →
  truthy fin = false →
  self_data (self w) !! "query" = Some q →
  self_data (self w) !! "key" = Some (VStr key) →
  self_data (self w) !! "is_empty" = Some empty →
  truthy empty = false →
  self_data (self w) !! "result_file" = Some (VStr name) →
  ∃ w1 w2,
    finish 0 w = Ok tt w1
    ∧ set_empty w1 = Ok tt w2
    ∧ self w2 = self w1
    ∧ files w2 = files w1
    ∧ db w2 = List.map (fun r =>
                if Database.matches (by_query_key q (VStr key)) r
                then {[ "is_empty" := VBool true ]} ∪ r else r) (db w1)
    ∧ self_data (self w2) !! "is_empty" = Some empty
    ∧ is_finished w2 = Ok true w2
    ∧ check_query_finished w2
      = Ok (if bool_decide (name ≠ "" ∧ in_folder name ∈ files w)
            then VStr (in_folder name) else VNone) w2
    ∧ (∀ r0 query' parameters' parent' extension' now' store',
         List.filter (Database.matches {[ "key" := VStr key ]}) (db w) = [r0] →
         r0 !! "query" = Some q →
         q ≠ VNone →
         r0 !! "result_file" = Some (VStr name) →
         in_folder name ∉ files w →
         store' ≡ₚ db w2 →
         ∃ w3,
           new query' parameters' (Some key) parent' extension' now'
               store' (files w2) = Ok tt w3
           ∧ self_data (self w3) !! "is_empty" = Some (VBool true)
           ∧ check_query_finished w3 = Ok (VStr "empty_file") w3).
Proof.
  intros Hfin Hfalse Hq Hk Hempty Hnot Hrf.
  pose proof (finish_run 0 w fin q (VStr key) Hfin Hfalse Hq Hk) as Hfinish.
  eexists. eexists. split; [exact Hfinish|].
  split.
  { apply (set_empty_run _ q (VStr key)); cbn [self self_data];
      by rewrite !lookup_insert_ne. }
  cbn [self db files self_data].
  split; [reflexivity|]. split; [reflexivity|]. split; [reflexivity|].
  split; [by rewrite !lookup_insert_ne|].
  split.
  { unfold is_finished. erewrite run_bind, run_data_get_Some.
    - rewrite run_ret. by rewrite bool_decide_eq_true_2.
    - cbn [self self_data]. rewrite lookup_insert_ne by done.
      by rewrite lookup_insert_eq. }
  split.
  { case_bool_decide as Hcase.
    - destruct Hcase as [Hname Hfile].
      apply (check_file_present _ (VBool true) name);
        cbn [self self_data files]; try done.
      + rewrite lookup_insert_ne by done. by rewrite lookup_insert_eq.
      + by rewrite !lookup_insert_ne.
    - destruct (decide (name = "")) as [->|Hname].
      + erewrite (check_no_name _ (VBool true) empty);
          cbn [self self_data files].
        * by rewrite Hnot.
        * rewrite lookup_insert_ne by done. by rewrite lookup_insert_eq.
        * reflexivity.
        * by rewrite !lookup_insert_ne.
        * by rewrite !lookup_insert_ne.
      + erewrite (check_no_file _ (VBool true) empty name);
          cbn [self self_data files].
        * by rewrite Hnot.
        * rewrite lookup_insert_ne by done. by rewrite lookup_insert_eq.
        * reflexivity.
        * by rewrite !lookup_insert_ne.
        * intros Hfile. by apply Hcase.
        * by rewrite !lookup_insert_ne. }
  intros r0 query' parameters' parent' extension' now' store'
    Hone Hq0 Hqn Hrf0 Hfile Hperm.
  assert (Database.matches {[ "key" := VStr key ]} r0 = true) as Hkey0.
  { assert (In r0 (List.filter (Database.matches {[ "key" := VStr key ]})
                     (db w))) as Hin by (rewrite Hone; by left).
    by apply filter_In in Hin as [_ ?]. }
  apply matches_singleton in Hkey0 as [Hk0 _].
  assert (Hm0 : Database.matches (by_query_key q (VStr key)) r0 = true).
  { apply matches_by_query_key. by repeat split. }
  set (written := ({[ "is_finished" := VBool true; "num_rows" := VInt 0 ]} : row)).
  set (r3 := ({[ "is_empty" := VBool true ]} : row) ∪ (written ∪ r0)).
  assert (Hf3 : Database.fetchone store' {[ "key" := VStr key ]} = Some r3).
  { eapply fetchone_unique; [|exact Hperm].
    rewrite !filter_map_update, Hone.
    - cbn [List.map]. rewrite Hm0.
      rewrite matches_update_other, Hm0; [reflexivity| |]; subst written;
        by rewrite lookup_insert_ne, lookup_singleton_ne.
    - intros c [v Hc]. destruct (decide (c = "key")) as [->|Hne].
      + subst written. by rewrite lookup_insert_ne, lookup_singleton_ne.
      + by rewrite lookup_singleton_ne in Hc.
    - intros c [v Hc]. destruct (decide (c = "key")) as [->|Hne].
      + by rewrite lookup_singleton_ne.
      + by rewrite lookup_singleton_ne in Hc. }
  assert (Hq3 : r3 !! "query" = Some q).
  { subst r3 written. rewrite lookup_union_r by (by rewrite lookup_singleton_ne).
    rewrite lookup_union_r; [done|].
    by rewrite lookup_insert_ne, lookup_singleton_ne. }
  eexists. split; [by apply (new_by_key_found _ _ _ _ _ _ _ _ r3 q)|].
  cbn [self self_data]. split.
  { subst r3. apply lookup_union_Some_l. by rewrite lookup_singleton_eq. }
  erewrite (check_no_file _ (VBool true) (VBool true) name);
    cbn [self self_data files]; [reflexivity | | reflexivity | | exact Hfile |].
  - subst r3 written.
    rewrite lookup_union_r by (by rewrite lookup_singleton_ne).
    apply lookup_union_Some_l. by rewrite lookup_insert_eq.
  - subst r3 written.
    rewrite lookup_union_r by (by rewrite lookup_singleton_ne).
    rewrite lookup_union_r; [done|].
    by rewrite lookup_insert_ne, lookup_singleton_ne.
  - subst r3. apply lookup_union_Some_l. by rewrite lookup_singleton_eq.
Qed.

Lemma set_empty_leaves_object_stale_witness :
  ∃ w1 w2,
    finish 0 sample_world = Ok tt w1
    ∧ set_empty w1 = Ok tt w2
    ∧ self w2 = self w1
    ∧ self_data (self w2) !! "is_empty" = Some (VBool false)
    ∧ check_query_finished (H := sample_env) w2 = Ok VNone w2
    ∧ ∃ w3,
        new (H := sample_env) None PNone (Some "k1") None "csv" 0
            (db w2) (files w2) = Ok tt w3
        ∧ check_query_finished (H := sample_env) w3
          = Ok (VStr "empty_file") w3.
Proof.
  destruct (set_empty_leaves_object_stale (H := sample_env) sample_world
              (VBool false) (VStr "cats") (VBool false) "k1" "cats-k1.csv")
    as (w1 & w2 & H1 & H2 & Hself & _ & _ & Hempty & _ & Hcheck & Hreload);
    [vm_compute; reflexivity | reflexivity | vm_compute; reflexivity
    | vm_compute; reflexivity | vm_compute; reflexivity | reflexivity
    | vm_compute; reflexivity |].
  assert (in_folder (H := sample_env) "cats-k1.csv" ∉ files sample_world)
    as Hfile by (vm_compute; set_solver).
  rewrite bool_decide_eq_false_2 in Hcheck by (by intros [_ ?]).
  destruct (Hreload sample_data None PNone None "csv" 0 (db w2))
    as (w3 & H3 & _ & Hcheck3);
    [vm_compute; reflexivity | vm_compute; reflexivity | discriminate
    | vm_compute; reflexivity | exact Hfile | reflexivity |].
  exists w1, w2. repeat split; try assumption. by exists w3.
Defined.

(** C10 as stated fails when the result file is there: after [finish(0)]
    and [set_empty()] the same object answers the path of the file, not
    [None]. *)
Lemma finish_empty_check_answers_path :
  finish_empty_check (H := sample_env) taken_world
  = Ok (VStr "/data/cats-k1.csv")
      (World (Object (VStr "k1") (VStr "cats")
                (<["num_rows" := VInt 0]>
                   (<["is_finished" := VBool true]> sample_data)))
             [ {[ "is_empty" := VBool true ]}
               ∪ ({[ "is_finished" := VBool true; "num_rows" := VInt 0 ]}
                  ∪ sample_data) ]
             {[ "/data/cats-k1.csv" ]}).
Proof. vm_compute. reflexivity. Qed.

(** C4, second case, on the code: one object, unfinished and in the store,
    no result file on disk.  After [finish(0)] and [set_empty()] the store
    has [is_empty = True], the object does not, and
    [check_query_finished()] answers [None] where the empty-file sentinel
    is expected. *)
Theorem finish_empty_check_answers_None :
  finish_empty_check (H := sample_env) sample_world
  = Ok VNone
      (World (Object (VStr "k1") (VStr "cats")
                (<["num_rows" := VInt 0]>
                   (<["is_finished" := VBool true]> sample_data)))
             [ {[ "is_empty" := VBool true ]}
               ∪ ({[ "is_finished" := VBool true; "num_rows" := VInt 0 ]}
                  ∪ sample_data) ]
             ∅).
Proof. vm_compute. reflexivity. Qed.


(** * Further properties of the class *)

(** ** The constructor without enough arguments *)

(** X1: without a key, a constructor call that lacks the query text or the
    parameters raises [TypeError] before it reads or writes anything: the
    store and the files are as they were and the object is still blank.
    This is the case of every call that gives parameters only. *)
Theorem new_requires_query_and_parameters `{Environment}
    (query : option string) (parameters : pyval) (parent : option string)
    (extension : string) (now : Z) (store : list row) (fs : gset string) :
  query = None ∨ parameters = PNone →
  new query parameters None parent extension now store fs
  = Raise (TypeError
      "SearchQuery() requires either 'key', or 'parameters' and 'query' to be given")
      (World blank store fs).
Proof.
  intros Hmissing. unfold new, __init__, blank.
  destruct query as [q|].
  - destruct Hmissing as [Hq|Hp]; [done|]. subst parameters. by mrun.
  - destruct parameters; by mrun.
Qed.

Lemma new_requires_query_and_parameters_witness :
  new (H := sample_env) None climate_parameters None None "csv" 0
      [sample_data] ∅
  = Raise (TypeError
      "SearchQuery() requires either 'key', or 'parameters' and 'query' to be given")
      (World blank [sample_data] ∅).
Proof.
  apply (new_requires_query_and_parameters (H := sample_env)). by left.
Defined.

(** ** [update_status] and [get_status] *)

Lemma update_status_run (status k : val) (w : world) :
  self_data (self w) !! "key" = Some k →
  update_status status w
  = Ok (0 <? Z.of_nat (length (List.filter
           (Database.matches {[ "key" := k ]}) (db w))))
       (World (Object (self_key (self w)) (self_query (self w))
                 (<["status" := status]> (self_data (self w))))
          (List.map (fun r => if Database.matches {[ "key" := k ]} r
                              then {[ "status" := status ]} ∪ r else r) (db w))
          (files w)).
Proof.
  intros Hk. unfold update_status. mrun.
  erewrite run_data_get_Some
    by (cbn [self self_data]; rewrite lookup_insert_ne by done; exact Hk).
  by mrun.
Qed.

(** X2: [update_status(status)] stores the status in the object, writes it
    to every row of the store that carries the record's key (the query text
    is not looked at), and answers [True] exactly when there is such a row;
    [get_status()] then returns the status.  When the object has no key the
    call raises [KeyError] after the object's status was changed, with the
    store untouched. *)
Theorem update_status_overwrites (status : val) (w : world) :
  (∀ k, self_data (self w) !! "key" = Some k →
     ∃ (updated : bool) (w' : world),
       update_status status w = Ok updated w'
       ∧ self_data (self w') = <["status" := status]> (self_data (self w))
       ∧ db w' = List.map (fun r => if Database.matches {[ "key" := k ]} r
                                    then {[ "status" := status ]} ∪ r else r)
                          (db w)
       ∧ files w' = files w
       ∧ (updated = true ↔ k ≠ VNone ∧ ∃ r, r ∈ db w ∧ r !! "key" = Some k)
       ∧ get_status w' = Ok status w')
  ∧ (self_data (self w) !! "key" = None →
     update_status status w
     = Raise (KeyError "key")
         (World (Object (self_key (self w)) (self_query (self w))
                   (<["status" := status]> (self_data (self w))))
                (db w) (files w))).
Proof.
  split.
  - intros k Hk. eexists. eexists.
    split; [by apply update_status_run|]. cbn [self db files self_data].
    split; [reflexivity|]. split; [reflexivity|]. split; [reflexivity|].
    split.
    + rewrite update_count_pos. split.
      * intros (r & Hin & [Hr Hne]%matches_singleton). eauto.
      * intros (Hne & r & Hin & Hr). exists r. split; [done|].
        by apply matches_singleton.
    + unfold get_status. apply run_data_get_Some.
      cbn [self self_data]. by rewrite lookup_insert_eq.
  - intros Hk. unfold update_status. mrun.
    rewrite run_data_get_None
      by (cbn [self self_data]; rewrite lookup_insert_ne by done; exact Hk).
    reflexivity.
Qed.

Lemma update_status_overwrites_witness :
  ∃ (updated : bool) (w' : world),
    update_status (VStr "Queued") sample_world = Ok updated w'
    ∧ updated = true
    ∧ get_status w' = Ok (VStr "Queued") w'.
Proof.
  destruct (update_status_overwrites (VStr "Queued") sample_world) as [Hok _].
  destruct (Hok (VStr "k1")) as (updated & w' & Hrun & _ & _ & _ & Hupd & Hget);
    [vm_compute; reflexivity|].
  exists updated, w'. split; [exact Hrun|]. split; [|exact Hget].
  apply Hupd. split; [discriminate|]. exists sample_data.
  split; [apply list_elem_of_here | vm_compute; reflexivity].
Defined.

Lemma union_singleton_twice (c : string) (v1 v2 : val) (r : row) :
  ({[ c := v2 ]} : row) ∪ ({[ c := v1 ]} ∪ r) = {[ c := v2 ]} ∪ r.
Proof.
  apply map_eq. intros i. destruct (decide (i = c)) as [->|Hne].
  - rewrite !(lookup_union_Some_l _ _ c v2) by (by rewrite lookup_singleton_eq).
    done.
  - by rewrite !lookup_union_r by (by rewrite lookup_singleton_ne).
Qed.

(** X3: the latest status wins and no history is kept: two status updates
    in a row leave the object and the store exactly as the second one alone
    would, with the same answer. *)
Theorem update_status_latest_wins (first second k : val) (w : world) :
  self_data (self w) !! "key" = Some k →
  update_status_twice first second w = update_status second w.
Proof.
  intros Hk. unfold update_status_twice.
  rewrite run_bind, (update_status_run first k w Hk). cbv beta iota.
  rewrite (update_status_run second k w Hk).
  rewrite (update_status_run second k)
    by (cbn [self self_data]; rewrite lookup_insert_ne by done; exact Hk).
  cbn [self db files self_key self_query self_data].
  rewrite insert_insert_eq.
  assert (Hrows : ∀ r : row,
    Database.matches {[ "key" := k ]}
      (if Database.matches {[ "key" := k ]} r
       then {[ "status" := first ]} ∪ r else r)
    = Database.matches {[ "key" := k ]} r).
  { intros r. destruct (Database.matches {[ "key" := k ]} r) eqn:E; [|done].
    apply matches_singleton in E as [Hr Hne]. apply matches_singleton.
    split; [|done]. by rewrite lookup_union_r by (by rewrite lookup_singleton_ne). }
  f_equal.
  - f_equal. f_equal. induction (db w) as [|r t IH]; [done|].
    cbn [List.map List.filter]. rewrite Hrows.
    destruct (Database.matches {[ "key" := k ]} r); cbn [length]; by rewrite IH.
  - f_equal. rewrite List.map_map. apply List.map_ext. intros r.
    rewrite Hrows. destruct (Database.matches {[ "key" := k ]} r); [|done].
    apply union_singleton_twice.
Qed.

Lemma update_status_latest_wins_witness :
  update_status_twice (VStr "Queued") (VStr "Finished") sample_world
  = update_status (VStr "Finished") sample_world.
Proof.
  apply (update_status_latest_wins _ _ (VStr "k1")). vm_compute; reflexivity.
Defined.

(** ** [check_query_finished] and [get_results_path] *)

(** Case analysis on the next [self.data[k]] of the goal. *)
Ltac mcase :=
  match goal with
  | |- context [data_get ?k ?w] =>
      let E := fresh "E" in
      destruct (self_data (self w) !! k) as [?|] eqn:E;
      [rewrite (run_data_get_Some _ _ _ E)
      | rewrite (run_data_get_None _ _ E)]
  end.

Lemma in_folder_has_slash `{Environment} (name : string) :
  has_slash (in_folder name) = true.
Proof.
  unfold has_slash, in_folder. rewrite str_existsb_app, str_app_cons.
  cbn [Str.existsb]. rewrite Ascii.eqb_refl. by rewrite orb_true_r.
Qed.

Lemma get_results_path_run `{Environment} (w : world) (name : string) :
  self_data (self w) !! "result_file" = Some (VStr name) →
  get_results_path w = Ok (in_folder name) w.
Proof. intros Hrf. unfold get_results_path, in_folder. by mrun. Qed.

(** X4: [check_query_finished] never changes the object, the store or the
    files, whether it returns or raises, and it has three answers only:
    [None]; the sentinel ['empty_file'], for a finished record marked
    empty; or a path, which is then the record's results path, names a file
    that exists, belongs to a finished record and is never mistaken for
    the sentinel. *)
Theorem check_query_finished_answers `{Environment} (w : world) :
  match check_query_finished w with
  | Ok v w' =>
      w' = w
      ∧ (v = VNone
         ∨ (v = VStr "empty_file"
            ∧ ∃ fin empty,
                self_data (self w) !! "is_finished" = Some fin
                ∧ truthy fin = true
                ∧ self_data (self w) !! "is_empty" = Some empty
                ∧ truthy empty = true)
         ∨ (∃ fin name,
              v = VStr (in_folder name)
              ∧ v ≠ VStr "empty_file"
              ∧ in_folder name ∈ files w
              ∧ self_data (self w) !! "is_finished" = Some fin
              ∧ truthy fin = true
              ∧ get_results_path w = Ok (in_folder name) w))
  | Raise e w' => w' = w
  | Diverge => False
  end.
Proof.
  unfold check_query_finished. rewrite run_bind. mcase; [|done].
  cbv beta iota. destruct (truthy v) eqn:Hfin.
  - rewrite !run_bind. mcase; [|done]. cbv beta iota.
    destruct (truthy v0) eqn:Hrf.
    + destruct v0 as [| | |name]; try done.
      mrun. destruct (decide (in_folder name ∈ files w)) as [Hin|Hout].
      * unfold in_folder in Hin. rewrite bool_decide_eq_true_2 by done.
        mrun. split; [done|]. right. right. exists v, name.
        split; [done|]. split.
        { intros Heq.
          pose proof (f_equal (fun x => match x with
                                        | VStr s => has_slash s
                                        | _ => false
                                        end) Heq) as Hs.
          cbv beta iota in Hs.
          change (has_slash (in_folder name) = has_slash "empty_file") in Hs.
          rewrite (in_folder_has_slash name) in Hs. discriminate Hs. }
        split; [done|]. split; [done|]. split; [done|].
        by apply get_results_path_run.
      * unfold in_folder in Hout. rewrite bool_decide_eq_false_2 by done.
        mrun. rewrite Hfin. cbv beta iota. mcase; [|done].
        cbv beta iota. destruct (truthy v0) eqn:Hempty; mrun.
        -- split; [done|]. right. left. split; [done|]. by exists v, v0.
        -- split; [done|]. by left.
    + mrun. rewrite Hfin. cbv beta iota. mcase; [|done].
      cbv beta iota. destruct (truthy v1) eqn:Hempty; mrun.
      * split; [done|]. right. left. split; [done|]. by exists v, v1.
      * split; [done|]. by left.
  - mrun. rewrite Hfin. mrun. rewrite Hfin. mrun. split; [done|]. by left.
Qed.

(** X5: on an unfinished record whose key and the extension hold no slash,
    the path [get_results_path()] gives right after
    [reserve_result_file(extension)] is the one that was probed: it lies
    in the data folder and no file existed there when it was reserved. *)
Theorem reserved_path_is_free `{Environment} (extension : string) (w : world)
    (fin : val) (query key : string) :
  self_data (self w) !! "is_finished" = Some fin →
  truthy fin = false →
  self_data (self w) !! "query" = Some (VStr query) →
  self_data (self w) !! "key" = Some (VStr key) →
  has_slash key = false →
  has_slash extension = false →
  ∃ (n : option Z) (w' : world),
    reserve_then_path extension w
    = Ok (in_folder (result_name query key extension n)) w'
    ∧ (in_folder (result_name query key extension n) ∉ files w)
    ∧ files w' = files w
    ∧ self_data (self w') !! "result_file"
      = Some (VStr (result_name query key extension n)).
Proof.
  intros Hfin Hfalse Hq Hk Hkey Hext.
  destruct (reserve_result_file_run extension w fin query key Hfin Hfalse Hq Hk)
    as (n & Hrun & Hfree & _).
  cbv zeta in Hrun, Hfree. unfold in_folder in Hrun.
  rewrite last_segment in Hrun by (by apply result_name_no_slash).
  exists n. eexists. unfold reserve_then_path.
  split.
  { rewrite run_bind, Hrun. cbv beta iota.
    apply get_results_path_run. cbn [self self_data].
    by rewrite lookup_insert_eq. }
  cbn [self files self_data]. split; [exact Hfree|]. split; [reflexivity|].
  by rewrite lookup_insert_eq.
Qed.

Lemma reserved_path_is_free_witness :
  ∃ (n : option Z) (w' : world),
    reserve_then_path (H := sample_env) "csv" sample_world
    = Ok (in_folder (H := sample_env) (result_name "cats" "k1" "csv" n)) w'
    ∧ (in_folder (H := sample_env) (result_name "cats" "k1" "csv" n)
         ∉ files sample_world).
Proof.
  destruct (reserved_path_is_free (H := sample_env) "csv" sample_world
              (VBool false) "cats" "k1")
    as (n & w' & Hrun & Hfree & _);
    [vm_compute; reflexivity | reflexivity | vm_compute; reflexivity
    | vm_compute; reflexivity | reflexivity | reflexivity |].
  exists n, w'. auto.
Defined.

(** ** [write_csv_and_finish] *)

Lemma strip_prefix_app (prefix s : string) :
  strip_prefix prefix (prefix +:+ s) = Some s.
Proof.
  induction prefix as [|c prefix IH]; [by destruct s|].
  rewrite str_app_cons. cbn [strip_prefix]. by rewrite Ascii.eqb_refl.
Qed.







(** X8: whatever the argument and the record are, [write_csv_and_finish]
    either returns, and then the record is finished in memory with the
    length of the data as [num_rows] and its results path names an existing
    file, or it raises, and then the object and the store are as before and
    no file has disappeared. *)
Theorem write_csv_and_finish_all_or_nothing `{Environment} (data : csv_data)
    (w : world) :
  match write_csv_and_finish data w with
  | Done w' =>
      ∃ items path,
        data = DataSeq items
        ∧ items ≠ []
        ∧ self_data (self w') !! "is_finished" = Some (VBool true)
        ∧ self_data (self w') !! "num_rows"
          = Some (VInt (Z.of_nat (length items)))
        ∧ get_results_path w' = Ok path w'
        ∧ path ∈ files w'
  | Failed e w' => self w' = self w ∧ db w' = db w ∧ files w ⊆ files w'
  | Hang => False
  end.
Proof.
  unfold write_csv_and_finish.
  destruct data as [[|[first|] rest]|]; try done.
  unfold get_results_path. rewrite run_bind. mcase; [|done]. cbv beta iota.
  destruct v as [| | |name]; try done. mrun.
  destruct (can_open _); [|done]. cbv zeta.
  destruct (List.forallb _ _); [|split; [done|split; [done|set_solver]]].
  unfold finish. rewrite run_bind.
  mcase; [|split; [done|split; [done|set_solver]]]. cbv beta iota.
  destruct (truthy v); [mrun; split; [done|split; [done|set_solver]]|].
  rewrite run_bind.
  mcase; [|split; [done|split; [done|set_solver]]]. cbv beta iota.
  rewrite run_bind.
  mcase; [|split; [done|split; [done|set_solver]]]. cbv beta iota.
  mrun. eexists. eexists. split; [reflexivity|]. split; [done|].
  cbn [self self_data files].
  split; [rewrite lookup_insert_ne by done; by rewrite lookup_insert_eq|].
  split; [by rewrite lookup_insert_eq|].
  split.
  - apply (get_results_path_run _ name). cbn [self self_data].
    rewrite !lookup_insert_ne by done. exact E.
  - apply elem_of_union_l, elem_of_singleton. reflexivity.
Qed.

(** ** What no sequence of calls changes *)

Lemma keeps_refl (w : world) : keeps w w.
Proof. split; try done. intros i r Hr. by exists r. Qed.

Lemma keeps_trans (w1 w2 w3 : world) : keeps w1 w2 → keeps w2 w3 → keeps w1 w3.
Proof.
  intros [K1 Q1 k1 q1 p1 f1 fin1 rows1 len1] [K2 Q2 k2 q2 p2 f2 fin2 rows2 len2].
  split; try congruence.
  - intros x Hx. by apply f2, f1.
  - intros fin Hfin Htrue. destruct (fin1 fin Hfin Htrue) as (Ha & Hb & Hc).
    destruct (fin2 fin Ha Htrue) as (Ha' & Hb' & Hc').
    split; [done|]. split; congruence.
  - intros i r Hr. destruct (rows1 i r Hr) as (r' & Hr' & Hk & Hf & Hsame).
    destruct (rows2 i r' Hr') as (r'' & Hr'' & Hk' & Hf' & Hsame').
    exists r''. split; [done|]. split; [congruence|]. split; [auto|].
    intros Hne. rewrite Hsame' by congruence. by apply Hsame.
Qed.

(** The state after an update of the rows selected by a test on the
    record's key, with new data that agree with the old on what is kept. *)
Lemma keeps_update (w : world) (d' upd where_ : row) (fs' : gset string)
    (k : val) :
  where_ !! "key" = Some k →
  self_data (self w) !! "key" = Some k →
  upd !! "key" = None →
  (upd !! "is_finished" = None ∨ upd !! "is_finished" = Some (VBool true)) →
  d' !! "key" = self_data (self w) !! "key" →
  d' !! "query" = self_data (self w) !! "query" →
  d' !! "parameters" = self_data (self w) !! "parameters" →
  (∀ fin, self_data (self w) !! "is_finished" = Some fin → truthy fin = true →
          d' !! "is_finished" = Some fin
          ∧ d' !! "num_rows" = self_data (self w) !! "num_rows"
          ∧ d' !! "result_file" = self_data (self w) !! "result_file") →
  files w ⊆ fs' →
  keeps w (World (Object (self_key (self w)) (self_query (self w)) d')
             (List.map (fun r => if Database.matches where_ r
                                 then upd ∪ r else r) (db w))
             fs').
Proof.
  intros Hwk Hk Hupd Hfin Hdk Hdq Hdp Hdfin Hfs.
  split; cbn [self db files self_key self_query self_data]; try done.
  - intros i r Hr.
    exists (if Database.matches where_ r then upd ∪ r else r).
    split; [by rewrite list_lookup_fmap, Hr|].
    destruct (Database.matches where_ r) eqn:E; [|done].
    split; [by rewrite lookup_union_r|]. split.
    + intros Hrf. destruct Hfin as [Hnone|Hsome].
      * by rewrite lookup_union_r.
      * by apply lookup_union_Some_l.
    + intros Hne. exfalso. apply Hne. rewrite Hk.
      by apply (matches_lookup where_).
  - by rewrite length_map.
Qed.

Lemma keeps_files_only (w : world) (fs' : gset string) :
  files w ⊆ fs' → keeps w (World (self w) (db w) fs').
Proof.
  intros Hfs. split; cbn [self db files]; try done.
  intros i r Hr. by exists r.
Qed.

Lemma keeps_status_only (w : world) (status : val) :
  keeps w (World (Object (self_key (self w)) (self_query (self w))
                    (<["status" := status]> (self_data (self w))))
             (db w) (files w)).
Proof.
  split; cbn [self db files self_key self_query self_data]; try done;
    try (by rewrite lookup_insert_ne).
  - intros fin Hfin Htrue. by rewrite !lookup_insert_ne.
  - intros i r Hr. by exists r.
Qed.

Lemma finish_keeps (num_rows : Z) (w : world) :
  keeps w (after (finish num_rows w) w).
Proof.
  unfold finish. rewrite run_bind. mcase; [|apply keeps_refl].
  cbv beta iota. destruct (truthy v) eqn:Hfin; [apply keeps_refl|].
  rewrite run_bind. mcase; [|apply keeps_refl]. cbv beta iota.
  rewrite run_bind. mcase; [|apply keeps_refl]. cbv beta iota.
  mrun. cbn [after].
  apply (keeps_update w _ _ _ _ v1).
  - rewrite lookup_insert_ne by done. by rewrite lookup_singleton_eq.
  - done.
  - by rewrite lookup_insert_ne, lookup_singleton_ne.
  - right. by rewrite lookup_insert_eq.
  - by rewrite !lookup_insert_ne.
  - by rewrite !lookup_insert_ne.
  - by rewrite !lookup_insert_ne.
  - intros fin Hfin' Htrue. congruence.
  - done.
Qed.

Lemma update_status_keeps (status : val) (w : world) :
  keeps w (after (update_status status w) w).
Proof.
  destruct (self_data (self w) !! "key") as [k|] eqn:Hk.
  - rewrite (update_status_run status k w Hk). cbn [after].
    apply (keeps_update w _ _ _ _ k).
    + by rewrite lookup_singleton_eq.
    + done.
    + by rewrite lookup_singleton_ne.
    + left. by rewrite lookup_singleton_ne.
    + by rewrite lookup_insert_ne.
    + by rewrite lookup_insert_ne.
    + by rewrite lookup_insert_ne.
    + intros fin Hfin Htrue. by rewrite !lookup_insert_ne.
    + done.
  - unfold update_status. mrun.
    rewrite run_data_get_None
      by (cbn [self self_data]; rewrite lookup_insert_ne by done; exact Hk).
    cbn [after]. apply keeps_status_only.
Qed.

Lemma set_empty_keeps (w : world) : keeps w (after (set_empty w) w).
Proof.
  unfold set_empty. rewrite run_bind. mcase; [|apply keeps_refl].
  cbv beta iota. rewrite run_bind. mcase; [|apply keeps_refl]. cbv beta iota.
  mrun. cbn [after].
  destruct w as [[sk sq d] t fs]. cbn [self db files self_data] in *.
  apply (keeps_update (World (Object sk sq d) t fs) d _ _ fs v0);
    cbn [self db files self_data].
  - rewrite lookup_insert_ne by done. by rewrite lookup_singleton_eq.
  - assumption.
  - by rewrite lookup_singleton_ne.
  - left. by rewrite lookup_singleton_ne.
  - reflexivity.
  - reflexivity.
  - reflexivity.
  - intros fin Hfin Htrue. by repeat split.
  - reflexivity.
Qed.

Lemma reserve_result_file_keeps `{Environment} (extension : string)
    (w : world) :
  keeps w (after (reserve_result_file extension w) w).
Proof.
  unfold reserve_result_file. rewrite run_bind. mcase; [|apply keeps_refl].
  cbv beta iota. destruct (truthy v) eqn:Hfin; [apply keeps_refl|].
  rewrite run_bind. mcase; [|apply keeps_refl]. cbv beta iota.
  destruct v0 as [| | |qs]; try apply keeps_refl. mrun.
  mcase; [|apply keeps_refl]. cbv beta iota.
  destruct v0 as [| | |ks]; try apply keeps_refl. mrun.
  match goal with
  | |- context [probe ?fuel ?file ?ext ?path ?index w] =>
      destruct (probe_finds_free file ext path index w) as (p & Hp & _);
      rewrite Hp
  end.
  mrun. cbn [after].
  apply (keeps_update w _ _ _ _ (VStr ks)).
  - rewrite lookup_insert_ne by done. by rewrite lookup_singleton_eq.
  - done.
  - by rewrite lookup_singleton_ne.
  - left. by rewrite lookup_singleton_ne.
  - by rewrite lookup_insert_ne.
  - by rewrite lookup_insert_ne.
  - by rewrite lookup_insert_ne.
  - intros fin Hfin' Htrue. congruence.
  - done.
Qed.

Lemma check_query_finished_reads `{Environment} (w : world) :
  after (check_query_finished w) w = w.
Proof.
  unfold check_query_finished. rewrite run_bind. mcase; [|done].
  cbv beta iota. destruct (truthy v) eqn:Hfin.
  - rewrite !run_bind. mcase; [|done]. cbv beta iota.
    destruct (truthy v0) eqn:Hrf.
    + destruct v0 as [| | |name]; try done. mrun.
      destruct (bool_decide _); mrun; [done|].
      rewrite Hfin. cbv beta iota. mcase; [|done]. cbv beta iota.
      by destruct (truthy v0).
    + mrun. rewrite Hfin. cbv beta iota. mcase; [|done]. cbv beta iota.
      by destruct (truthy v1).
  - mrun. rewrite Hfin. mrun. rewrite Hfin. by mrun.
Qed.

Lemma readers_read `{Environment} (w : world) :
  after (is_finished w) w = w
  ∧ after (get_parameters w) w = w
  ∧ after (get_status w) w = w
  ∧ after (get_results_path w) w = w
  ∧ after (get_results_dir w) w = w.
Proof.
  repeat split.
  - unfold is_finished. rewrite run_bind. by mcase.
  - unfold get_parameters. rewrite run_bind. mcase; [|done]. cbv beta iota.
    destruct v; try done. by destruct (json_loads s).
  - unfold get_status. by mcase.
  - unfold get_results_path. rewrite run_bind. mcase; [|done]. cbv beta iota.
    by destruct v.
Qed.

Lemma write_csv_and_finish_keeps `{Environment} (data : csv_data) (w : world) :
  keeps w (after_io (write_csv_and_finish data w) w).
Proof.
  unfold write_csv_and_finish.
  destruct data as [[|[first|] rest]|]; try apply keeps_refl.
  unfold get_results_path. rewrite run_bind. mcase; [|apply keeps_refl].
  cbv beta iota. destruct v as [| | |name]; try apply keeps_refl. mrun.
  destruct (can_open _); [|apply keeps_refl]. cbv zeta.
  set (w2 := World (self w) (db w) ({[ folder +:+ "/" +:+ name ]} ∪ files w)).
  assert (Hw2 : keeps w w2) by (apply keeps_files_only; set_solver).
  destruct (List.forallb _ _); [|exact Hw2].
  pose proof (finish_keeps (Z.of_nat (length (ItemDict first :: rest))) w2)
    as Hfinish.
  destruct (finish _ w2) as [[] w3|e w3|]; cbn [after after_io] in *;
    [by apply (keeps_trans w w2) | by apply (keeps_trans w w2)
    | apply keeps_refl].
Qed.

Lemma run_call_keeps `{Environment} (c : call) (w : world) :
  keeps w (run_call c w).
Proof.
  destruct (readers_read w) as (H1 & H2 & H3 & H4 & H5).
  destruct c; cbn [run_call];
    rewrite ?check_query_finished_reads, ?H1, ?H2, ?H3, ?H4, ?H5;
    auto using keeps_refl, finish_keeps, update_status_keeps, set_empty_keeps,
      reserve_result_file_keeps, write_csv_and_finish_keeps.
Qed.

Lemma run_calls_keeps `{Environment} (cs : list call) (w : world) :
  keeps w (run_calls cs w).
Proof.
  revert w. induction cs as [|c cs IH]; intros w; [apply keeps_refl|].
  cbn [run_calls fold_left]. apply (keeps_trans w (run_call c w)).
  - apply run_call_keeps.
  - apply IH.
Qed.

(** X9: the identity of a record is fixed.  Whatever methods are called on
    an object, in whatever order and whether they raise or not, its key and
    query text (the attributes and the fields of its data) and its stored
    parameter document are what they were. *)
Theorem calls_keep_identity `{Environment} (cs : list call) (w : world) :
  self_key (self (run_calls cs w)) = self_key (self w)
  ∧ self_query (self (run_calls cs w)) = self_query (self w)
  ∧ self_data (self (run_calls cs w)) !! "key" = self_data (self w) !! "key"
  ∧ self_data (self (run_calls cs w)) !! "query"
    = self_data (self w) !! "query"
  ∧ self_data (self (run_calls cs w)) !! "parameters"
    = self_data (self w) !! "parameters".
Proof. by destruct (run_calls_keeps cs w). Qed.

(** X10: finishing is final.  Once [is_finished] is set on an object, no
    sequence of calls changes its [is_finished], [num_rows] or
    [result_file], and [finish] and [reserve_result_file] still raise
    afterwards. *)
Theorem finished_stays_finished `{Environment} (cs : list call) (w : world)
    (fin : val) (row_count : Z) (extension : string) :
  self_data (self w) !! "is_finished" = Some fin →
  truthy fin = true →
  let w' := run_calls cs w in
  self_data (self w') !! "is_finished" = Some fin
  ∧ self_data (self w') !! "num_rows" = self_data (self w) !! "num_rows"
  ∧ self_data (self w') !! "result_file"
    = self_data (self w) !! "result_file"
  ∧ finish row_count w'
    = Raise (RuntimeError "Cannot finish a finished query again") w'
  ∧ reserve_result_file extension w'
    = Raise (RuntimeError "Cannot reserve results file for a finished query")
            w'.
Proof.
  intros Hfin Htrue w'.
  destruct (keeps_finished _ _ (run_calls_keeps cs w) fin Hfin Htrue)
    as (Hfin' & Hrows & Hrf).
  fold w' in Hfin', Hrows, Hrf.
  split; [done|]. split; [done|]. split; [done|]. split.
  - unfold finish. mrun. rewrite Htrue. by mrun.
  - unfold reserve_result_file. mrun. rewrite Htrue. by mrun.
Qed.

Lemma finished_stays_finished_witness :
  let w' := run_calls (H := sample_env)
              [CallUpdateStatus (VStr "again"); CallFinish 3; CallSetEmpty;
               CallReserve "csv"; CallWriteCsv two_rows] finished_world in
  self_data (self w') !! "is_finished" = Some (VBool true)
  ∧ finish 9 w'
    = Raise (RuntimeError "Cannot finish a finished query again") w'.
Proof.
  destruct (finished_stays_finished (H := sample_env)
              [CallUpdateStatus (VStr "again"); CallFinish 3; CallSetEmpty;
               CallReserve "csv"; CallWriteCsv two_rows] finished_world
              (VBool true) 9 "csv")
    as (Hfin & _ & _ & Hraise & _); [vm_compute; reflexivity | reflexivity |].
  split; assumption.
Defined.

(** X11: calls on one object never reach the rows of other records.  After
    any sequence of calls the table has as many rows as before, each at its
    place and with its key; a row whose key is not the object's is
    unchanged, and a row that was finished is still finished. *)
Theorem calls_leave_other_rows `{Environment} (cs : list call) (w : world) :
  length (db (run_calls cs w)) = length (db w)
  ∧ ∀ i r,
      db w !! i = Some r →
      ∃ r', db (run_calls cs w) !! i = Some r'
            ∧ r' !! "key" = r !! "key"
            ∧ (r !! "is_finished" = Some (VBool true) →
               r' !! "is_finished" = Some (VBool true))
            ∧ (r !! "key" ≠ self_data (self w) !! "key" → r' = r).
Proof.
  destruct (run_calls_keeps cs w) as [_ _ _ _ _ _ _ Hrows Hlen]. by split.
Qed.

(** ** The statements of [Database] *)

Example finish_statement_text :
  finish_statement
  = Sql.Statement "UPDATE {} SET {} = %s, {} = %s WHERE {} = %s AND {} = %s"
      ["queries"; "is_finished"; "num_rows"; "query"; "key"]
      [Sql.Scalar (VBool true); Sql.Scalar (VInt 42);
       Sql.Scalar (VStr "cats"); Sql.Scalar (VStr "k1")].
Proof. vm_compute. reflexivity. Qed.

Example insert_statement_text :
  Sql.insert "jobs" [("jobtype", VStr "search"); ("remote_id", VStr "k1")]
             true ["jobtype"; "remote_id"]
  = Sql.Statement
      "INSERT INTO {} ({}, {}) VALUES %s ON CONFLICT ({}, {}) DO NOTHING"
      ["jobs"; "jobtype"; "remote_id"; "jobtype"; "remote_id"]
      [Sql.Tuple [VStr "search"; VStr "k1"]].
Proof. vm_compute. reflexivity. Qed.

Lemma ends_with_app (a : ascii) (s t : string) :
  ends_with a (s +:+ t)
  = match t with EmptyString => ends_with a s | _ => ends_with a t end.
Proof.
  induction s as [|x s IH]; [by destruct t|].
  rewrite str_app_cons. cbn [ends_with]. rewrite IH.
  destruct s as [|y s].
  - rewrite str_app_nil. by destruct t.
  - rewrite str_app_cons. by destruct t.
Qed.

Lemma count_pair_app (a b : ascii) (s t : string) :
  ends_with a s = false →
  count_pair a b (s +:+ t) = (count_pair a b s + count_pair a b t)%nat.
Proof.
  induction s as [|x s IH]; intros Hend; [done|].
  rewrite str_app_cons. cbn [count_pair]. destruct s as [|y s].
  - rewrite str_app_nil. cbn [ends_with] in Hend. rewrite Hend.
    cbn [andb count_pair]. lia.
  - rewrite str_app_cons. rewrite <- str_app_cons.
    rewrite IH by exact Hend. lia.
Qed.

(** A comprehension of one constant piece, joined: as many slots as
    items. *)
Lemma count_pair_join {A} (a b : ascii) (sep piece : string) (l : list A) :
  ends_with a sep = false →
  ends_with a piece = false →
  count_pair a b sep = O →
  count_pair a b (Str.join sep (List.map (fun _ => piece) l))
  = (length l * count_pair a b piece)%nat.
Proof.
  intros Hsep Hpiece Hzero. induction l as [|x l IH]; [done|].
  destruct l as [|y l].
  - cbn [List.map Str.join length]. lia.
  - change (Str.join sep (List.map (fun _ => piece) (x :: y :: l)))
      with (piece +:+ sep +:+ Str.join sep (List.map (fun _ => piece) (y :: l))).
    rewrite !count_pair_app by done. rewrite IH, Hzero.
    cbn [length]. lia.
Qed.

Lemma ends_with_app_false (a : ascii) (s t : string) :
  ends_with a s = false → ends_with a t = false →
  ends_with a (s +:+ t) = false.
Proof. intros Hs Ht. rewrite ends_with_app. by destruct t. Qed.

Lemma ends_with_join {A} (a : ascii) (sep piece : string) (l : list A) :
  ends_with a sep = false →
  ends_with a piece = false →
  ends_with a (Str.join sep (List.map (fun _ => piece) l)) = false.
Proof.
  intros Hsep Hpiece. induction l as [|x l IH]; [done|].
  destruct l as [|y l]; [done|].
  change (Str.join sep (List.map (fun _ => piece) (x :: y :: l)))
    with (piece +:+ sep +:+ Str.join sep (List.map (fun _ => piece) (y :: l))).
  by repeat apply ends_with_app_false.
Qed.

(** Evaluate the slot counts of the constant pieces. *)
Ltac count_slots :=
  repeat match goal with
  | |- context [count_pair ?a ?b ?s] =>
      let n := eval vm_compute in (count_pair a b s) in
      change (count_pair a b s) with n
  end.

Lemma item_of_keys (d : list (string * val)) :
  NoDup (Sql.keys d) →
  List.map (fun column => Sql.Scalar (Sql.item d column)) (Sql.keys d)
  = List.map Sql.Scalar (Sql.values d).
Proof.
  unfold Sql.keys, Sql.values, Sql.item.
  induction d as [|[k v] d IH]; intros Hnodup; [done|].
  cbn [List.map fst snd] in *. apply NoDup_cons in Hnodup as [Hk Hnodup].
  cbn [find fst]. rewrite String.eqb_refl. cbn [snd]. f_equal.
  rewrite <- IH by done. apply List.map_ext_in. intros c Hc.
  cbn [find fst]. destruct (String.eqb_spec k c) as [->|Hne]; [|done].
  exfalso. apply Hk. by apply list_elem_of_In.
Qed.

Lemma combine_keys_values (d : list (string * val)) :
  combine (Sql.keys d) (Sql.values d) = d.
Proof.
  unfold Sql.keys, Sql.values.
  induction d as [|[k v] d IH]; [done|]. cbn [List.map combine fst snd].
  by rewrite IH.
Qed.

(** X12: the statement [update] builds is well formed for every table,
    data and condition: its text has exactly one [{}] for each identifier
    handed to [format] and one [%s] for each value handed to [execute];
    the table comes first, and past it the identifiers and the values are,
    pair by pair, the items of [data] followed by those of [where].
    Without condition the text has no [WHERE] part at all. *)
Theorem update_statement_well_formed (table : string)
    (data where_ : list (string * val)) :
  NoDup (Sql.keys where_) →
  let st := Sql.update table data where_ in
  identifier_slots (Sql.text st) = length (Sql.identifiers st)
  ∧ value_slots (Sql.text st) = length (Sql.replacements st)
  ∧ Sql.identifiers st = table :: Sql.keys (data ++ where_)
  ∧ Sql.replacements st = List.map Sql.Scalar (Sql.values (data ++ where_))
  ∧ (where_ = [] →
     Sql.text st
     = "UPDATE {} SET "
         +:+ Str.join ", " (List.map (fun _ => "{} = %s") data)).
Proof.
  intros Hnodup st. subst st. unfold Sql.update. cbv zeta.
  unfold identifier_slots, value_slots.
  destruct where_ as [|kv where_].
  - cbn [Sql.text Sql.identifiers Sql.replacements].
    rewrite !count_pair_app by done.
    rewrite !count_pair_join by done.
    rewrite app_nil_r. unfold Sql.keys, Sql.values.
    cbn [length]. rewrite !length_map. count_slots.
    split; [lia|]. split; [lia|]. done.
  - set (w := kv :: where_) in *.
    cbn [Sql.text Sql.identifiers Sql.replacements].
    rewrite item_of_keys by done.
    assert (Hend : ∀ a, a = "{"%char ∨ a = "%"%char →
      ends_with a ("UPDATE {} SET "
                   +:+ Str.join ", " (List.map (fun _ => "{} = %s") data))
      = false).
    { intros a Ha. apply ends_with_app_false.
      - by destruct Ha as [->| ->].
      - apply ends_with_join; by destruct Ha as [->| ->]. }
    rewrite !(count_pair_app _ _ (_ +:+ _)) by (apply Hend; auto).
    rewrite !(count_pair_app _ _ "UPDATE {} SET ") by done.
    rewrite !(count_pair_app _ _ " WHERE ") by done.
    rewrite !count_pair_join by done.
    unfold Sql.keys, Sql.values. rewrite !List.map_app.
    rewrite !length_app. cbn [length]. rewrite !length_map. count_slots.
    split; [lia|]. split; [lia|]. split; [reflexivity|].
    split; [reflexivity|]. subst w. discriminate.
Qed.

Lemma update_statement_well_formed_witness :
  identifier_slots (Sql.text finish_statement)
  = length (Sql.identifiers finish_statement)
  ∧ value_slots (Sql.text finish_statement)
    = length (Sql.replacements finish_statement).
Proof.
  destruct (update_statement_well_formed "queries"
              [("is_finished", VBool true); ("num_rows", VInt 42)]
              [("query", VStr "cats"); ("key", VStr "k1")])
    as (Hid & Hval & _).
  - apply (bool_decide_unpack _). vm_compute. exact I.
  - split; assumption.
Defined.

(** X13: the statement [delete] builds always has a [WHERE] part; its text
    has one [{}] for each identifier and one [%s] for each value, the table
    comes first, and past it identifiers and values are the items of
    [where], pair by pair. *)
Theorem delete_statement_well_formed (table : string)
    (where_ : list (string * val)) :
  let st := Sql.delete table where_ in
  identifier_slots (Sql.text st) = length (Sql.identifiers st)
  ∧ value_slots (Sql.text st) = length (Sql.replacements st)
  ∧ Sql.identifiers st = table :: Sql.keys where_
  ∧ Sql.replacements st = List.map Sql.Scalar (Sql.values where_)
  ∧ strip_prefix "DELETE FROM {} WHERE " (Sql.text st)
    = Some (Str.join " AND " (List.map (fun _ => "{} = %s") where_)).
Proof.
  cbv zeta. unfold Sql.delete, identifier_slots, value_slots. cbv zeta.
  cbn [Sql.text Sql.identifiers Sql.replacements].
  unfold Sql.keys, Sql.values. rewrite List.map_map.
  rewrite !count_pair_app by done. rewrite !count_pair_join by done.
  cbn [length]. rewrite !length_map. count_slots.
  split; [lia|]. split; [lia|]. split; [reflexivity|]. split; [reflexivity|].
  apply strip_prefix_app.
Qed.

Lemma percent_insert (columns : string) :
  Sql.percent "INSERT INTO {} (%s) VALUES %%s" columns
  = "INSERT INTO {} (" +:+ columns +:+ ") VALUES %s".
Proof. reflexivity. Qed.

(** X14: the statement [insert] builds is well formed for every table,
    data, [safe] flag and list of constraint columns: one [{}] for each
    identifier, which are the table, the columns of [data] and, for a safe
    insert, the constraint columns; and a single [%s], filled by the one
    tuple of the values of [data]. *)
Theorem insert_statement_well_formed (table : string)
    (data : list (string * val)) (safe : bool) (constraints : list string) :
  let st := Sql.insert table data safe constraints in
  identifier_slots (Sql.text st) = length (Sql.identifiers st)
  ∧ value_slots (Sql.text st) = 1%nat
  ∧ Sql.replacements st = [Sql.Tuple (Sql.values data)]
  ∧ Sql.identifiers st
    = table :: Sql.keys data ++ (if safe then constraints else []).
Proof.
  cbv zeta. unfold Sql.insert, identifier_slots, value_slots. cbv zeta.
  rewrite percent_insert.
  assert (Hjoin : ∀ a, a = "{"%char ∨ a = "%"%char → ∀ {A} (l : list A),
    ends_with a (Str.join ", " (List.map (fun _ => "{}") l)) = false).
  { intros a Ha A l. apply ends_with_join; by destruct Ha as [->| ->]. }
  destruct safe; [destruct constraints as [|c constraints]|];
    cbn [Sql.text Sql.identifiers Sql.replacements];
    rewrite ?app_nil_r;
    repeat (rewrite count_pair_app
              by (repeat apply ends_with_app_false;
                  first [reflexivity | apply Hjoin; auto]));
    rewrite !count_pair_join by done;
    unfold Sql.keys; rewrite ?length_app; cbn [length]; rewrite ?length_map;
    count_slots; (split; [lia|]); (split; [lia|]); by split.
Qed.

(** ** The store *)

(** X15: an update that writes none of the columns it tests is idempotent:
    applied again to its own result it selects the same number of rows and
    changes nothing more.  It never changes the number of rows of the
    table, and when it reports no affected row the table is as it was. *)
Theorem update_is_idempotent (table : list row) (data where_ : row) :
  (∀ c, is_Some (where_ !! c) → data !! c = None) →
  update_again table data where_ = Database.update table data where_
  ∧ length (fst (Database.update table data where_)) = length table
  ∧ (snd (Database.update table data where_) = 0 →
     fst (Database.update table data where_) = table).
Proof.
  intros Hcols. unfold update_again, Database.update. cbn [fst snd].
  assert (Hsame : ∀ r,
    Database.matches where_ (if Database.matches where_ r then data ∪ r else r)
    = Database.matches where_ r).
  { intros r. destruct (Database.matches where_ r) eqn:E; [|done].
    rewrite (matches_agree where_ (data ∪ r) r); [exact E|].
    intros c Hc. by rewrite lookup_union_r by (by apply Hcols). }
  split; [|split].
  - f_equal.
    + rewrite List.map_map. apply List.map_ext. intros r. rewrite Hsame.
      destruct (Database.matches where_ r); [|done].
      by rewrite (assoc_L (∪)), (idemp_L (∪)).
    + f_equal. induction table as [|r table IH]; [done|].
      cbn [List.map List.filter]. rewrite Hsame.
      destruct (Database.matches where_ r); cbn [length]; by rewrite IH.
  - by rewrite length_map.
  - intros Hzero. induction table as [|r table IH]; [done|].
    cbn [List.map List.filter] in *.
    destruct (Database.matches where_ r); cbn [length] in Hzero; [lia|].
    by rewrite IH.
Qed.

Lemma update_is_idempotent_witness :
  update_again [sample_data] {[ "status" := VStr "Queued" ]}
               {[ "key" := VStr "k1" ]}
  = Database.update [sample_data] {[ "status" := VStr "Queued" ]}
                    {[ "key" := VStr "k1" ]}.
Proof.
  apply (update_is_idempotent [sample_data] {[ "status" := VStr "Queued" ]}
           {[ "key" := VStr "k1" ]}).
  intros c [v Hc]. destruct (decide (c = "key")) as [->|Hne].
  - by rewrite lookup_singleton_ne.
  - by rewrite lookup_singleton_ne in Hc.
Defined.

(** X16: insert, then look up.  When no stored row matched a condition
    on columns of [data], after [insert(data)] the lookup answers with the
    row just inserted, which is [data] completed by the table's defaults,
    in whatever order the store keeps its rows; the table then holds the
    rows it had and that one, and one row is reported. *)
Theorem insert_then_fetchone `{Environment} (table : list row)
    (data where_ : row) :
  (∀ c v, where_ !! c = Some v → data !! c = Some v ∧ v ≠ VNone) →
  (∀ r, r ∈ table → Database.matches where_ r = false) →
  (∀ table', table' ≡ₚ fst (Database.insert table data) →
     Database.fetchone table' where_ = Some (data ∪ column_defaults))
  ∧ fst (Database.insert table data) ≡ₚ (data ∪ column_defaults) :: table
  ∧ snd (Database.insert table data) = 1.
Proof.
  intros Hdata Hnone. unfold Database.insert. cbn [fst snd].
  split; [|split; [|reflexivity]].
  - intros table' Hperm. eapply fetchone_unique; [|exact Hperm].
    rewrite List.filter_app. cbn [List.filter].
    replace (Database.matches where_ (data ∪ column_defaults)) with true.
    + replace (List.filter (Database.matches where_) table) with (@nil row);
        [done|].
      symmetry. clear Hperm. induction table as [|r table IH]; [done|].
      cbn [List.filter]. rewrite (Hnone r) by apply list_elem_of_here.
      apply IH. intros r' Hr'. apply Hnone. by apply list_elem_of_further.
    + symmetry. unfold Database.matches. apply bool_decide_eq_true.
      intros c v Hc. cbv beta. destruct (Hdata c v Hc) as [Hd Hv].
      apply sql_eq_true. split; [by apply lookup_union_Some_l | done].
  - symmetry. apply Permutation_cons_append.
Qed.

Lemma insert_then_fetchone_witness :
  Database.fetchone
    (fst (Database.insert (H := sample_env) [sample_data]
            (<["key" := VStr "k2"]> sample_data)))
    {[ "key" := VStr "k2" ]}
  = Some (<["key" := VStr "k2"]> sample_data
          ∪ column_defaults (Environment := sample_env)).
Proof.
  destruct (insert_then_fetchone (H := sample_env) [sample_data]
              (<["key" := VStr "k2"]> sample_data) {[ "key" := VStr "k2" ]})
    as [Hlookup _].
  - intros c v Hc. destruct (decide (c = "key")) as [->|Hne].
    + rewrite lookup_singleton_eq in Hc. injection Hc as <-.
      split; [by rewrite lookup_insert_eq | discriminate].
    + by rewrite lookup_singleton_ne in Hc.
  - intros r Hr. apply list_elem_of_singleton in Hr as ->.
    vm_compute. reflexivity.
  - by apply Hlookup.
Defined.

(** ** The view [get_result] *)

Lemma str_map_app (f : ascii -> ascii) (s t : string) :
  Str.map f (s +:+ t) = Str.map f s +:+ Str.map f t.
Proof.
  induction s as [|c s IH]; [done|].
  rewrite str_app_cons. cbn [Str.map]. by rewrite IH, str_app_cons.
Qed.

Lemma replace_absent (old new : ascii) (s : string) :
  Str.existsb (Ascii.eqb old) s = false → Str.replace old new s = s.
Proof.
  unfold Str.replace. induction s as [|c s IH]; [done|].
  cbn [Str.existsb Str.map]. intros [Hc Hs]%orb_false_iff.
  rewrite Ascii.eqb_sym, Hc. by rewrite IH.
Qed.

(** The file name the views cut out of a results path. *)
Lemma served_name `{Environment} (name : string) :
  has_slash name = false →
  Str.existsb (Ascii.eqb Py.backslash) name = false →
  List.last (Str.split "/" (Str.replace Py.backslash "/" (in_folder name))) ""
  = name.
Proof.
  intros Hslash Hback. unfold in_folder, Str.replace.
  rewrite !str_map_app. fold (Str.replace Py.backslash "/" name).
  rewrite (replace_absent _ _ name Hback).
  change (Str.map _ "/") with "/". by apply last_segment.
Qed.

Lemma in_folder_truthy `{Environment} (name : string) :
  truthy (VStr (in_folder name)) = true.
Proof.
  cbn [truthy]. destruct (String.eqb_spec (in_folder name) "") as [Heq|Hne];
    [|done].
  pose proof (in_folder_has_slash name) as Hs. rewrite Heq in Hs.
  discriminate Hs.
Qed.

Lemma get_result_found `{Environment} (query_key : string) (now : Z)
    (store : list row) (fs : gset string) (r : row) (q : val) :
  Database.fetchone store {[ "key" := VStr query_key ]} = Some r →
  r !! "query" = Some q →
  get_result query_key now store fs
  = match check_query_finished
            (World (Object (VStr query_key) q r) store fs) with
    | Raise e _ => Uncaught e
    | Diverge => NoResponse
    | Ok results _ =>
        if truthy results then
          match results with
          | VStr s =>
              SendFromDirectory
                (List.last
                   (Str.split "/" (Str.replace Py.backslash "/" s)) "")
          | _ => Uncaught (AttributeError "object has no attribute 'replace'")
          end
        else Abort 404
    end.
Proof.
  intros Hf Hq. unfold get_result.
  by rewrite (new_by_key_found query_key None PNone None "csv" now store fs r q).
Qed.

(** X17: [get_result] answers 404 for a key that no row of the store
    carries, and for a record that is not finished: nothing is sent
    before the record is finished. *)
Theorem get_result_not_found `{Environment} (query_key : string) (now : Z)
    (store : list row) (fs : gset string) :
  ((∀ r, r ∈ store → r !! "key" ≠ Some (VStr query_key)) →
   get_result query_key now store fs = Abort 404)
  ∧ (∀ r q fin,
       Database.fetchone store {[ "key" := VStr query_key ]} = Some r →
       r !! "query" = Some q →
       r !! "is_finished" = Some fin →
       truthy fin = false →
       get_result query_key now store fs = Abort 404).
Proof.
  split.
  - intros Hnone.
    assert (Hf : Database.fetchone store {[ "key" := VStr query_key ]} = None).
    { apply fetchone_None. intros r Hin.
      destruct (Database.matches _ r) eqn:E; [|done].
      apply matches_singleton in E as [E _]. by apply Hnone in Hin. }
    unfold get_result, new, __init__, blank. mrun. rewrite Hf.
    cbv beta iota delta [row_truthy]. by mrun.
  - intros r q fin Hf Hq Hfin Hfalse.
    rewrite (get_result_found _ _ _ _ r q Hf Hq).
    by rewrite (check_not_finished _ fin).
Qed.

(** X18: for a finished record whose result file exists (a name without
    slash or backslash) [get_result] ends in the call of
    [send_from_directory] with the name of that file.  For a finished
    record marked empty, without file, it does not abort either: it ends
    in the call of [send_from_directory] with the name [empty_file], the
    sentinel of [check_query_finished] taken for a path.  What Flask
    answers to the call is not part of the statement. *)
Theorem get_result_sends `{Environment} (query_key : string) (now : Z)
    (store : list row) (fs : gset string) (r : row) (q fin : val)
    (name : string) :
  Database.fetchone store {[ "key" := VStr query_key ]} = Some r →
  r !! "query" = Some q →
  r !! "is_finished" = Some fin →
  truthy fin = true →
  r !! "result_file" = Some (VStr name) →
  (name ≠ "" →
   has_slash name = false →
   Str.existsb (Ascii.eqb Py.backslash) name = false →
   in_folder name ∈ fs →
   get_result query_key now store fs = SendFromDirectory name)
  ∧ (∀ empty,
       in_folder name ∉ fs →
       r !! "is_empty" = Some empty →
       truthy empty = true →
       get_result query_key now store fs = SendFromDirectory "empty_file").
Proof.
  intros Hf Hq Hfin Htrue Hrf. rewrite (get_result_found _ _ _ _ r q Hf Hq).
  split.
  - intros Hname Hslash Hback Hfile.
    rewrite (check_file_present _ fin name) by done.
    rewrite in_folder_truthy. by rewrite served_name.
  - intros empty Hfile Hempty Hetrue.
    rewrite (check_no_file _ fin empty name) by done.
    rewrite Hetrue. reflexivity.
Qed.

Lemma get_result_sends_witness :
  get_result (H := sample_env) "k1" 0 empty_result_store ∅
  = SendFromDirectory "empty_file".
Proof.
  destruct (get_result_sends (H := sample_env) "k1" 0 empty_result_store ∅
              (<["is_empty" := VBool true]> finished_data)
              (VStr "cats") (VBool true) "cats-k1.csv")
    as [_ Hempty];
    [vm_compute; reflexivity | vm_compute; reflexivity
    | vm_compute; reflexivity | reflexivity | vm_compute; reflexivity |].
  apply (Hempty (VBool true));
    [vm_compute; set_solver | vm_compute; reflexivity | reflexivity].
Defined.

(** ** [validateQuery] *)

Example validateQuery_sample :
  Views.validateQuery (H := sample_config) sample_form = Return (VBool true).
Proof. vm_compute. reflexivity. Qed.

Example validateQuery_short_body :
  Views.validateQuery (H := sample_config)
    (<["body_query" := VStr "ab"]> sample_form)
  = Return (VStr "Body query is too short. Use at least three characters.").
Proof. vm_compute. reflexivity. Qed.

Example validateQuery_no_boards :
  Views.validateQuery (H := sample_config)
    (<["platform" := VStr "8chan"]> sample_form)
  = Throw (KeyError "boards").
Proof. vm_compute. reflexivity. Qed.

(** One step of a block of [validateQuery]. *)
Ltac fstep :=
  cbv beta iota delta [mbind flow_bind mret flow_ret Views.param
                      Views.return_if] in *.

Lemma flow_seq_Return (m k : flow unit) (v : val) :
  (m ;; k) = Return v ↔ m = Return v ∨ (m = Next tt ∧ k = Return v).
Proof.
  fstep. destruct m as [[]|v'|e]; split; intros Hv;
    try (destruct Hv as [Hv|[Hv1 Hv2]]); try discriminate; auto.
Qed.

Lemma nonzero_as_int (v : val) (z : Z) :
  Views.as_int v = Next z → Views.nonzero v = negb (z =? 0).
Proof.
  destruct v as [|[]|z'|]; intros Hz; try discriminate;
    injection Hz as <-; reflexivity.
Qed.

Lemma ge_as_int (v1 v2 : val) (a b : Z) :
  Views.as_int v1 = Next a → Views.as_int v2 = Next b →
  Views.ge v1 v2 = Next (b <=? a).
Proof.
  destruct v1 as [|[]|z1|], v2 as [|[]|z2|]; intros H1 H2; try discriminate;
    injection H1 as <-; injection H2 as <-; reflexivity.
Qed.

Lemma check_early_passes (p : row) :
  Views.check_early p = Next tt
  ↔ ∃ a b, int_param p "min_date" a ∧ int_param p "max_date" b
           ∧ 0 ≤ a ∧ 0 ≤ b.
Proof.
  unfold Views.check_early, int_param. fstep. split.
  - destruct (p !! "min_date") as [v1|]; [|done].
    destruct (Views.as_int v1) as [a| |] eqn:Ha; try done.
    destruct (Z.ltb_spec a 0); [done|].
    destruct (p !! "max_date") as [v2|]; [|done].
    destruct (Views.as_int v2) as [b| |] eqn:Hb; try done.
    destruct (Z.ltb_spec b 0); [done|].
    intros _. exists a, b. eauto 10.
  - intros (a & b & (v1 & -> & Ha) & (v2 & -> & Hb) & H0a & H0b).
    rewrite Ha. destruct (Z.ltb_spec a 0); [lia|].
    rewrite Hb. destruct (Z.ltb_spec b 0); [lia|]. done.
Qed.

Lemma both_dates_run (p : row) (a b : Z) :
  int_param p "min_date" a → int_param p "max_date" b →
  Views.both_dates p = Next (negb (a =? 0) && negb (b =? 0)).
Proof.
  intros (v1 & E1 & Ha) (v2 & E2 & Hb). unfold Views.both_dates. fstep.
  rewrite E1, (nonzero_as_int v1 a Ha). destruct (a =? 0); [done|].
  by rewrite E2, (nonzero_as_int v2 b Hb).
Qed.

Lemma check_order_passes (p : row) (a b : Z) :
  int_param p "min_date" a → int_param p "max_date" b →
  Views.check_order p = Next tt ↔ (a ≠ 0 → b ≠ 0 → a < b).
Proof.
  intros Ha Hb. unfold Views.check_order.
  change (?m ≫= ?f) with (mbind f m). unfold mbind at 1, flow_bind at 1.
  rewrite (both_dates_run p a b Ha Hb).
  destruct Ha as (v1 & E1 & Ha), Hb as (v2 & E2 & Hb).
  destruct (Z.eqb_spec a 0), (Z.eqb_spec b 0); cbn [negb andb];
    try (split; [intros _ ? ?; lia | done]).
  fstep. rewrite E1, E2, (ge_as_int v1 v2 a b Ha Hb).
  destruct (Z.leb_spec b a); split; try done; intros; lia.
Qed.

Lemma check_board_passes `{ViewConfig} (p : row) :
  Views.check_board p = Next tt
  ↔ ∃ platform boards board,
      p !! "platform" = Some (VStr platform)
      ∧ PLATFORMS !! platform = Some (Some boards)
      ∧ p !! "board" = Some (VStr board)
      ∧ board ∈ boards.
Proof.
  unfold Views.check_board, Views.has_board_keys, Views.platform_entry,
    Views.entry_boards, Views.in_strings. fstep. split.
  - destruct (p !! "platform") as [v1|]; [|by rewrite bool_decide_eq_false_2
      by (by intros [? ?])].
    destruct (p !! "board") as [v2|];
      [|rewrite andb_comm; by rewrite bool_decide_eq_false_2
          by (by intros [? ?])].
    rewrite !bool_decide_eq_true_2 by eauto. cbn [andb]. cbv beta iota.
    destruct v1 as [| | |name]; try done.
    destruct (PLATFORMS !! name) as [[boards|]|] eqn:Hname; try done.
    destruct v2 as [| | |board]; try done.
    case_bool_decide; [|done]. intros _. by exists name, boards, board.
  - intros (name & boards & board & -> & -> & -> & Hin).
    by rewrite !bool_decide_eq_true_2 by eauto.
Qed.

Lemma below_ten_run (p : row) (k : string) (n : Z) :
  int_param p k n → Views.below_ten p k = Next ((0 <? n) && (n <? 10)).
Proof.
  intros (v & E & Hn). unfold Views.below_ten. fstep. rewrite E, Hn.
  by destruct (0 <? n).
Qed.

Lemma below_ten_Next (p : row) (k : string) (c : bool) :
  Views.below_ten p k = Next c → ∃ n, int_param p k n.
Proof.
  unfold Views.below_ten, int_param. fstep.
  destruct (p !! k) as [v|]; [|done].
  destruct (Views.as_int v) as [n| |] eqn:Hn; try done. eauto.
Qed.

Lemma check_dense_passes (p : row) :
  Views.check_dense p = Next tt
  ↔ ∃ dense_length dense_percentage,
      int_param p "dense_length" dense_length
      ∧ ¬ (0 < dense_length < 10)
      ∧ int_param p "dense_percentage" dense_percentage
      ∧ ¬ (0 < dense_percentage < 10).
Proof.
  unfold Views.check_dense. split.
  - fstep.
    destruct (Views.below_ten p "dense_length") as [c1| |] eqn:E1; try done.
    destruct (below_ten_Next _ _ _ E1) as [n1 H1].
    rewrite (below_ten_run _ _ _ H1) in E1. injection E1 as <-.
    destruct (Z.ltb_spec 0 n1), (Z.ltb_spec n1 10); try done; cbn [andb];
      cbv beta iota;
      (destruct (Views.below_ten p "dense_percentage") as [c2| |] eqn:E2;
       try done;
       destruct (below_ten_Next _ _ _ E2) as [n2 H2];
       rewrite (below_ten_run _ _ _ H2) in E2; injection E2 as <-;
       destruct (Z.ltb_spec 0 n2), (Z.ltb_spec n2 10); try done; intros _;
       exists n1, n2; repeat split; try done; lia).
  - intros (n1 & n2 & H1 & Hn1 & H2 & Hn2). fstep.
    rewrite (below_ten_run _ _ _ H1), (below_ten_run _ _ _ H2).
    destruct (Z.ltb_spec 0 n1), (Z.ltb_spec n1 10),
      (Z.ltb_spec 0 n2), (Z.ltb_spec n2 10); try done; lia.
Qed.

Lemma is_empty_str_true (v : val) :
  Views.is_empty_str v = true ↔ v = VStr "".
Proof.
  destruct v as [| | |s]; try done. cbn [Views.is_empty_str].
  rewrite String.eqb_eq. split; congruence.
Qed.

Lemma is_empty_str_false (v : val) :
  Views.is_empty_str v = false ↔ v ≠ VStr "".
Proof.
  rewrite <- is_empty_str_true. by destruct (Views.is_empty_str v).
Qed.

Lemma check_no_text_passes (p : row) :
  Views.check_no_text p = Next tt
  ↔ ∃ body, p !! "body_query" = Some body
            ∧ (body ≠ VStr ""
               ∨ ∃ subject, p !! "subject_query" = Some subject
                            ∧ subject ≠ VStr "").
Proof.
  unfold Views.check_no_text, Views.no_text. fstep. split.
  - destruct (p !! "body_query") as [body|]; [|done].
    destruct (Views.is_empty_str body) eqn:Eb.
    + destruct (p !! "subject_query") as [subject|]; [|done].
      destruct (Views.is_empty_str subject) eqn:Es.
      * destruct (Views.both_dates p) as [[]| |]; try done.
        destruct (p !! "max_date") as [v2|]; [|done].
        destruct (Views.as_int v2) as [b| |]; try done.
        destruct (p !! "min_date") as [v1|]; [|done].
        destruct (Views.as_int v1) as [a| |]; try done.
        by destruct (2419200 <=? b - a).
      * intros _. exists body. split; [done|]. right. exists subject.
        by rewrite <- is_empty_str_false.
    + intros _. exists body. split; [done|]. left.
      by rewrite <- is_empty_str_false.
  - intros (body & -> & Hne).
    destruct (Views.is_empty_str body) eqn:Eb; [|done].
    destruct Hne as [Hne|(subject & -> & Hne)].
    + apply is_empty_str_true in Eb. done.
    + apply is_empty_str_false in Hne. by rewrite Hne.
Qed.

Lemma check_no_text_accepts (p : row) (a b : Z) :
  int_param p "min_date" a → int_param p "max_date" b →
  Views.check_no_text p = Return (VBool true)
  ↔ p !! "body_query" = Some (VStr "")
    ∧ p !! "subject_query" = Some (VStr "")
    ∧ a ≠ 0 ∧ b ≠ 0 ∧ b - a < 2419200.
Proof.
  intros Ha Hb. unfold Views.check_no_text, Views.no_text.
  rewrite (both_dates_run p a b Ha Hb).
  destruct Ha as (v1 & E1 & Ha), Hb as (v2 & E2 & Hb).
  fstep. rewrite E1, E2, Ha, Hb. split.
  - destruct (p !! "body_query") as [body|]; [|done].
    destruct (Views.is_empty_str body) eqn:Eb; [|done].
    destruct (p !! "subject_query") as [subject|]; [|done].
    destruct (Views.is_empty_str subject) eqn:Es; [|done].
    apply is_empty_str_true in Eb, Es. subst.
    destruct (Z.eqb_spec a 0), (Z.eqb_spec b 0); try done. cbn [negb andb].
    destruct (Z.leb_spec 2419200 (b - a)); [done|]. intros _.
    repeat split; try done.
  - intros (-> & -> & Hna & Hnb & Hd). cbn [Views.is_empty_str String.eqb].
    cbv beta iota.
    destruct (Z.eqb_spec a 0), (Z.eqb_spec b 0); try done. cbn [negb andb].
    destruct (Z.leb_spec 2419200 (b - a)); [lia|done].
Qed.

Lemma check_text_passes `{ViewConfig} (p : row) (field s1 s2 s3 : string) :
  Views.check_text p field s1 s2 s3 = Next tt
  ↔ ∃ v, p !! field = Some v ∧ text_ok v.
Proof.
  unfold Views.check_text, text_ok. fstep. split.
  - destruct (p !! field) as [v|]; [|done]. intros Hv. exists v.
    split; [done|].
    destruct (truthy v) eqn:Ht.
    + destruct v as [| | |s]; try done.
      cbn [Views.len Views.search_alnum] in Hv. cbv beta iota in Hv.
      destruct (Z.ltb_spec (Z.of_nat (String.length s)) 3); [done|].
      destruct (Views.in_strings (VStr s) stop_words); [done|].
      split; [done|]. right. exists s.
      destruct (Str.existsb Views.alnum s); [|done].
      repeat split; try done. lia.
    + destruct (Views.in_strings v stop_words); [done|]. by split; [|left].
  - intros (v & -> & Hstop & [Hf|(s & -> & Hlen & Hal)]).
    + by rewrite Hf, Hstop.
    + cbn [Views.len Views.search_alnum]. cbv beta iota.
      destruct (truthy (VStr s)).
      * destruct (Z.ltb_spec (Z.of_nat (String.length s)) 3); [lia|].
        by rewrite Hstop, Hal.
      * by rewrite Hstop.
Qed.


(** Apart from the date range with no text, a block that returns gives a
    message, never [True]. *)
Ltac flow_never :=
  fstep; intros Hreturn;
  repeat match type of Hreturn with
         | context [match ?x with _ => _ end] =>
             lazymatch x with
             | context [match _ with _ => _ end] => fail
             | _ => destruct x; cbv beta iota in Hreturn;
                    try discriminate Hreturn
             end
         end.

Lemma check_early_never (p : row) :
  Views.check_early p ≠ Return (VBool true).
Proof. unfold Views.check_early, Views.as_int. flow_never. Qed.

Lemma check_order_never (p : row) :
  Views.check_order p ≠ Return (VBool true).
Proof.
  unfold Views.check_order, Views.both_dates, Views.ge, Views.as_int.
  flow_never.
Qed.

Lemma check_board_never `{ViewConfig} (p : row) :
  Views.check_board p ≠ Return (VBool true).
Proof.
  unfold Views.check_board, Views.has_board_keys, Views.platform_entry,
    Views.entry_boards. flow_never.
Qed.

Lemma check_dense_never (p : row) :
  Views.check_dense p ≠ Return (VBool true).
Proof.
  unfold Views.check_dense, Views.below_ten, Views.as_int. flow_never.
Qed.

Lemma check_text_never `{ViewConfig} (p : row) (field s1 s2 s3 : string) :
  Views.check_text p field s1 s2 s3 ≠ Return (VBool true).
Proof.
  unfold Views.check_text, Views.len, Views.search_alnum. flow_never.
Qed.

Lemma flow_seq_Next (m k : flow unit) : m = Next tt → (m ;; k) = k.
Proof. by intros ->. Qed.

Lemma int_param_agree (p : row) (k : string) (a b : Z) :
  int_param p k a → int_param p k b → a = b.
Proof. intros (v & E & Ha) (v' & E' & Hb). congruence. Qed.

Lemma validateQuery_sound `{ViewConfig} (parameters : row) :
  Views.validateQuery parameters = Return (VBool true) →
  acceptable parameters.
Proof.
  unfold Views.validateQuery, acceptable.
  intros Hv.
  apply flow_seq_Return in Hv as [Hv|[Hne Hv]];
    [by destruct (dict_truthy parameters)|].
  assert (parameters ≠ ∅) as Hpne.
  { unfold dict_truthy in Hne. case_bool_decide; done. }
  apply flow_seq_Return in Hv as [Hv|[Hearly Hv]];
    [by apply check_early_never in Hv|].
  apply check_early_passes in Hearly as (a & b & Ha & Hb & H0a & H0b).
  apply flow_seq_Return in Hv as [Hv|[Horder Hv]];
    [by apply check_order_never in Hv|].
  pose proof (proj1 (check_order_passes _ a b Ha Hb) Horder) as Hab.
  apply flow_seq_Return in Hv as [Hv|[Hboard Hv]];
    [by apply check_board_never in Hv|].
  apply check_board_passes in Hboard
    as (platform & boards & board & Hplatform & Hboards & Hboard & Hin).
  apply flow_seq_Return in Hv as [Hv|[Hdense Hv]];
    [by apply check_dense_never in Hv|].
  apply check_dense_passes in Hdense as (dl & dp & Hdl & Hl & Hdp & Hp).
  split; [done|].
  apply flow_seq_Return in Hv as [Hv|[Htext Hv]].
  - apply (check_no_text_accepts _ a b Ha Hb) in Hv
      as (Hbody & Hsubject & Hna & Hnb & Hd).
    exists a, b, dl, dp, platform, boards, board, (VStr ""), (VStr "").
    repeat (split; [done|]). left. done.
  - apply flow_seq_Return in Hv as [Hv|[Hbody Hv]];
      [by apply check_text_never in Hv|].
    apply check_text_passes in Hbody as (body & Ebody & Hbody).
    apply flow_seq_Return in Hv as [Hv|[Hsubject _]];
      [by apply check_text_never in Hv|].
    apply check_text_passes in Hsubject as (subject & Esubject & Hsubject).
    exists a, b, dl, dp, platform, boards, board, body, subject.
    repeat (split; [done|]). right. split; [|done].
    apply check_no_text_passes in Htext
      as (body' & Ebody' & [Hn|(subject' & Esubject' & Hn)]);
      intros [-> ->]; congruence.
Qed.

Lemma validateQuery_complete `{ViewConfig} (parameters : row) :
  acceptable parameters →
  Views.validateQuery parameters = Return (VBool true).
Proof.
  unfold Views.validateQuery, acceptable.
  intros (Hpne & a & b & dl & dp & platform & boards & board & body
          & subject & Ha & Hb & H0a & H0b & Horder & Hplatform & Hboards
          & Hboard & Hin & Hdl & Hl & Hdp & Hp & Ebody & Esubject & Htext).
  rewrite flow_seq_Next; last first.
  { unfold dict_truthy. by rewrite bool_decide_eq_false_2. }
  rewrite flow_seq_Next by (apply check_early_passes; eauto 10).
  rewrite flow_seq_Next by (by apply (check_order_passes _ a b)).
  rewrite flow_seq_Next by (apply check_board_passes; eauto 10).
  rewrite flow_seq_Next by (apply check_dense_passes; eauto 10).
  destruct Htext as [(-> & -> & Hna & Hnb & Hd)|(Hn & Hbody & Hsubject)].
  - apply flow_seq_Return. left.
    by apply (check_no_text_accepts _ a b).
  - rewrite flow_seq_Next; last first.
    { apply check_no_text_passes. exists body. split; [done|].
      destruct (decide (body = VStr "")) as [->|]; [|by left].
      right. exists subject. split; [done|]. intros ->. by apply Hn. }
    rewrite flow_seq_Next by (apply check_text_passes; eauto).
    rewrite flow_seq_Next by (apply check_text_passes; eauto).
    done.
Qed.

(** X19: [validateQuery] answers [True] exactly for the forms that are not
    empty, whose dates are numbers that are not negative and, when both are
    set, in order, whose platform is a configured one and whose board is
    one of its boards, whose keyword-dense settings are numbers outside 1
    to 9, and that either have no text at all and a date range under four
    weeks, or have text fields that are not stop words and, where filled
    in, hold three characters or more with a letter or digit among them. *)
Theorem validateQuery_accepts `{ViewConfig} (parameters : row) :
  Views.validateQuery parameters = Return (VBool true)
  ↔ acceptable parameters.
Proof.
  split; [apply validateQuery_sound | apply validateQuery_complete].
Qed.

Lemma validateQuery_board `{ViewConfig} (p : row) :
  Views.validateQuery p = Return (VBool true) →
  Views.check_board p = Next tt.
Proof.
  unfold Views.validateQuery. intros Hv.
  apply flow_seq_Return in Hv as [Hv|[Hne Hv]];
    [by destruct (dict_truthy p)|].
  apply flow_seq_Return in Hv as [Hv|[Hearly Hv]];
    [by apply check_early_never in Hv|].
  apply flow_seq_Return in Hv as [Hv|[Horder Hv]];
    [by apply check_order_never in Hv|].
  by apply flow_seq_Return in Hv as [Hv|[Hboard Hv]];
    [apply check_board_never in Hv|].
Qed.

(** X20: a form that [validateQuery] accepts names a platform and a board
    that the view [getboards] offers for that platform. *)
Theorem validateQuery_board_offered `{ViewConfig} (parameters : row) :
  Views.validateQuery parameters = Return (VBool true) →
  ∃ platform board boards,
    parameters !! "platform" = Some (VStr platform)
    ∧ parameters !! "board" = Some (VStr board)
    ∧ getboards platform = Some boards
    ∧ board ∈ boards.
Proof.
  intros Hv. apply validateQuery_board, check_board_passes in Hv
    as (platform & boards & board & Hplatform & Hboards & Hboard & Hin).
  exists platform, board, boards. unfold getboards. by rewrite Hboards.
Qed.

Lemma validateQuery_board_offered_witness :
  ∃ platform board boards,
    sample_form !! "platform" = Some (VStr platform)
    ∧ sample_form !! "board" = Some (VStr board)
    ∧ getboards (H := sample_config) platform = Some boards
    ∧ board ∈ boards.
Proof.
  apply (validateQuery_board_offered (H := sample_config) sample_form).
  vm_compute. reflexivity.
Defined.

(** X21: for a platform that is configured without a list of boards,
    [getboards] answers [False], but [validateQuery], once the dates have
    passed, raises [KeyError('boards')] whatever board the form names. *)
Theorem validateQuery_platform_without_boards `{ViewConfig}
    (parameters : row) (a b : Z) (platform : string) (board : val) :
  int_param parameters "min_date" a →
  int_param parameters "max_date" b →
  0 ≤ a → 0 ≤ b → (a ≠ 0 → b ≠ 0 → a < b) →
  parameters !! "platform" = Some (VStr platform) →
  parameters !! "board" = Some board →
  PLATFORMS !! platform = Some None →
  getboards platform = None
  ∧ Views.validateQuery parameters = Throw (KeyError "boards").
Proof.
  intros Ha Hb H0a H0b Hab Hplatform Hboard Hentry. split.
  { unfold getboards. by rewrite Hentry. }
  unfold Views.validateQuery.
  rewrite flow_seq_Next; last first.
  { by rewrite (dict_truthy_lookup _ _ _ Hboard). }
  rewrite flow_seq_Next by (apply check_early_passes; eauto 10).
  rewrite flow_seq_Next by (by apply (check_order_passes _ a b)).
  unfold Views.check_board, Views.has_board_keys, Views.platform_entry,
    Views.entry_boards. fstep.
  rewrite Hplatform, Hboard, Hentry.
  by rewrite !bool_decide_eq_true_2 by eauto.
Qed.

Lemma validateQuery_platform_without_boards_witness :
  getboards (H := sample_config) "8chan" = None
  ∧ Views.validateQuery (H := sample_config) boardless_form
    = Throw (KeyError "boards").
Proof.
  apply (validateQuery_platform_without_boards (H := sample_config)
           boardless_form 0 0 "8chan" (VStr "pol"));
    try (exists (VInt 0); split; vm_compute; reflexivity);
    try lia; vm_compute; reflexivity.
Defined.

(** ** The view [string_query] *)

Lemma new_parameters_only `{Environment} (parameters : pyval)
    (now : Z) (store : list row) (fs : gset string) :
  new None parameters None None "csv" now store fs
  = Raise (TypeError
      "SearchQuery() requires either 'key', or 'parameters' and 'query' to be given")
      (World blank store fs).
Proof. unfold new, __init__, blank. destruct parameters; by mrun. Qed.

(** X22: [string_query] never queues a query and never writes: whatever
    the form, the store and the files are as they were and the answer is a
    text or an exception.  A form that [validateQuery] accepts ends in the
    [TypeError] of the constructor, which is called with parameters but
    without a query text. *)
Theorem string_query_never_queues `{Environment} `{ViewConfig} (f : form)
    (now : Z) (store : list row) (fs : gset string) :
  ∃ answer,
    string_query f now store fs = (answer, store, fs)
    ∧ (∀ jobtype key, answer ≠ Queued jobtype key)
    ∧ (acceptable (form_row f) →
       answer = Unhandled (TypeError
         "SearchQuery() requires either 'key', or 'parameters' and 'query' to be given")).
Proof.
  unfold string_query. rewrite new_parameters_only.
  cbn [db files].
  destruct (Views.validateQuery (form_row f)) as [[]|valid|e] eqn:Hvalid.
  - eexists. split; [done|]. split; [done|].
    intros Hacc. apply validateQuery_complete in Hacc. congruence.
  - destruct (is_True valid) eqn:Htrue; cbn [negb].
    + eexists. split; [done|]. done.
    + destruct valid as [|[]|z|msg]; try discriminate Htrue;
        (eexists; split; [done|]; split; [done|]; intros Hacc;
         apply validateQuery_complete in Hacc; congruence).
  - eexists. split; [done|]. split; [done|].
    intros Hacc. apply validateQuery_complete in Hacc. congruence.
Qed.

(** ** The view [show_page] *)

Lemma filter_forallb (p : ascii → bool) (s : string) :
  Str.forallb p (Str.filter p s) = true.
Proof.
  induction s as [|c s IH]; [done|]. cbn [Str.filter].
  destruct (p c) eqn:Hc; [|done]. cbn [Str.forallb]. by rewrite Hc.
Qed.

Lemma filter_clean (p : ascii → bool) (s : string) :
  Str.forallb p s = true → Str.filter p s = s.
Proof.
  induction s as [|c s IH]; [done|]. cbn [Str.forallb Str.filter].
  destruct (p c); [|done]. cbn [andb]. intros Hs. by rewrite IH.
Qed.

Lemma forallb_not_existsb (p q : ascii → bool) (s : string) :
  (∀ c, p c = true → q c = false) →
  Str.forallb p s = true → Str.existsb q s = false.
Proof.
  intros Hpq. induction s as [|c s IH]; [done|].
  cbn [Str.forallb Str.existsb]. intros [Hc Hs]%andb_true_iff.
  by rewrite (Hpq c Hc), IH.
Qed.

Lemma page_char_plain (c : ascii) :
  page_char c = true → Ascii.eqb "/" c || Ascii.eqb "." c = false.
Proof.
  destruct c as [[] [] [] [] [] [] [] []]; vm_compute; congruence.
Qed.

(** X23: whatever page is asked for, [show_page] either answers 404 or
    renders the file [NAME.md] directly inside the [pages] folder, where
    NAME is the page asked for without every character other than
    letters, digits, [-] and [_]; it tests that very path for existence.
    NAME holds neither a slash nor a dot, and a page name that is already
    made of those characters is used as it is. *)
Theorem show_page_stays_in_pages (here : string)
    (path_exists : string → bool) (page : string) :
  let name := Str.filter page_char page in
  show_page here path_exists page
  = (if path_exists (here +:+ "/pages/" +:+ name +:+ ".md")
     then RenderPage (here +:+ "/pages/" +:+ name +:+ ".md")
            ("page-" +:+ name) name
     else AbortPage 404)
  ∧ Str.forallb page_char name = true
  ∧ Str.existsb (fun c => Ascii.eqb "/" c || Ascii.eqb "." c) name = false
  ∧ (Str.forallb page_char page = true → name = page).
Proof.
  cbv zeta. split.
  { unfold show_page. cbv zeta.
    replace ((here +:+ "/pages") +:+ "/" +:+ Str.filter page_char page
             +:+ ".md")
      with (here +:+ "/pages/" +:+ Str.filter page_char page +:+ ".md").
    - by destruct (path_exists _).
    - rewrite str_assoc. reflexivity. }
  split; [apply filter_forallb|]. split; [|apply filter_clean].
  apply (forallb_not_existsb page_char); [apply page_char_plain|].
  apply filter_forallb.
Qed.

(** ** The ranking of [VectorRanker.process] *)

Example results_per_item :
  VectorRanker.results "per-item" 2 sample_namelist sample_load
  = inr [ VectorRanker.Ranked "2018-9" "pepe" 9;
          VectorRanker.Ranked "2018-10" "wojak" 4;
          VectorRanker.Ranked "2018-10" "pepe" 1 ].
Proof. vm_compute. reflexivity. Qed.

Example results_overall :
  VectorRanker.results "overall" 2 sample_namelist sample_load
  = inr [ VectorRanker.Ranked "2018-9" "pepe" 9;
          VectorRanker.Ranked "2018-9" "based" 9 ].
Proof. vm_compute. reflexivity. Qed.

Example results_member_in_folder :
  VectorRanker.results "per-item" 2 folder_namelist folder_load
  = inl (KeyError "2018-9.pb").
Proof. vm_compute. reflexivity. Qed.

Lemma foldl_add_vector (name : string) (vectors : list (string * Z))
    (acc : list VectorRanker.ranked * gmap string Z) :
  ∃ top,
    foldl (VectorRanker.add_vector name) acc vectors
    = (acc.1 ++ List.map
                  (fun vector => VectorRanker.Ranked
                     (hd "" (Str.split "." name)) vector.1 vector.2)
                  (List.filter
                     (fun vector => negb (VectorRanker.blank_text vector.1))
                     vectors),
       top)
    ∧ (∀ t, is_Some (acc.2 !! t) → is_Some (top !! t))
    ∧ (∀ vector, vector ∈ vectors →
         VectorRanker.blank_text vector.1 = false →
         is_Some (top !! vector.1)).
Proof.
  revert acc. induction vectors as [|v vectors IH]; intros [rows top].
  - exists top. cbn [foldl List.filter List.map fst snd].
    rewrite app_nil_r. split; [done|]. split; [done|].
    intros vector Hin. by apply elem_of_nil in Hin.
  - cbn [foldl List.filter]. unfold VectorRanker.add_vector at 2.
    cbn [fst snd]. destruct (VectorRanker.blank_text v.1) eqn:Hblank.
    + cbn [negb]. destruct (IH (rows, top)) as (top' & -> & Hmono & Hin).
      exists top'. split; [done|]. split; [done|].
      intros vector [->|Hv]%elem_of_cons Hb; [congruence|by apply Hin].
    + cbn [negb List.map]. cbv zeta.
      match goal with
      | |- context [foldl _ (?r, ?t) vectors] =>
          destruct (IH (r, t)) as (top' & -> & Hmono & Hin)
      end.
      cbn [fst snd] in *. exists top'. split.
      { by rewrite <- app_assoc. }
      split.
      * intros t Ht. apply Hmono.
        destruct (decide (t = v.1)) as [->|Hne].
        { rewrite lookup_insert_eq. by eexists. }
        rewrite lookup_insert_ne by done.
        case_bool_decide; [done|]. by rewrite lookup_insert_ne.
      * intros vector [->|Hv]%elem_of_cons Hb; [|by apply Hin].
        apply Hmono. rewrite lookup_insert_eq. by eexists.
Qed.

Lemma foldl_add_vector_set_error (rank_style : string) (cutoff : Z)
    (load : string → VectorRanker.loaded) (vector_sets : list string)
    (e : exn) :
  foldl (VectorRanker.add_vector_set rank_style cutoff load) (inl e)
    vector_sets = inl e.
Proof. induction vector_sets as [|set sets IH]; [done|]. exact IH. Qed.

Lemma foldl_add_vector_set (rank_style : string) (cutoff : Z)
    (load : string → VectorRanker.loaded) (vector_sets : list string)
    (rows : list VectorRanker.ranked) (top : gmap string Z) :
  match listing (listed_rows rank_style cutoff) load vector_sets with
  | inl e =>
      foldl (VectorRanker.add_vector_set rank_style cutoff load)
        (inr (rows, top)) vector_sets = inl e
  | inr parts =>
      ∃ top',
        foldl (VectorRanker.add_vector_set rank_style cutoff load)
          (inr (rows, top)) vector_sets = inr (rows ++ concat parts, top')
        ∧ (∀ t, is_Some (top !! t) → is_Some (top' !! t))
        ∧ (∀ item, item ∈ concat parts →
             is_Some (top' !! VectorRanker.text item))
  end.
Proof.
  revert rows top. induction vector_sets as [|set sets IH]; intros rows top.
  - cbn [listing foldl concat]. exists top. rewrite app_nil_r.
    split; [done|]. split; [done|]. intros item Hin.
    by apply elem_of_nil in Hin.
  - cbn [listing foldl].
    destruct (load (List.last (Str.split "/" set) "")) as [vectors|e]
      eqn:Hload.
    + replace (VectorRanker.add_vector_set rank_style cutoff load
                 (inr (rows, top)) set)
        with (inr (B := list VectorRanker.ranked * gmap string Z) (A := exn)
                (foldl (VectorRanker.add_vector
                          (List.last (Str.split "/" set) "")) (rows, top)
                   (if String.eqb rank_style "per-item"
                    then VectorRanker.slice_to cutoff
                           (VectorRanker.sorted_vectors vectors)
                    else VectorRanker.sorted_vectors vectors)))
        by (unfold VectorRanker.add_vector_set; cbv zeta; by rewrite Hload).
      match goal with
      | |- context [foldl (VectorRanker.add_vector ?n) ?a ?vs] =>
          destruct (foldl_add_vector n vs a) as (top1 & -> & Hmono1 & Hin1)
      end.
      cbn [fst snd] in *.
      match goal with
      | |- context [foldl _ (inr (?r, ?t)) sets] => specialize (IH r t)
      end.
      destruct (listing (listed_rows rank_style cutoff) load sets)
        as [e|parts]; [exact IH|].
      destruct IH as (top' & -> & Hmono & Hin).
      exists top'. cbn [concat]. split.
      { by rewrite <- app_assoc. }
      split; [by auto|].
      intros item [Hitem|Hitem]%elem_of_app; [|by apply Hin].
      apply Hmono. unfold listed_rows in Hitem.
      apply list_elem_of_In, in_map_iff in Hitem as (vector & <- & Hv).
      apply filter_In in Hv as [Hv Hb]. cbn [VectorRanker.text].
      apply Hin1; [by apply list_elem_of_In|].
      by destruct (VectorRanker.blank_text _).
    + replace (VectorRanker.add_vector_set rank_style cutoff load
                 (inr (rows, top)) set)
        with (inl (B := list VectorRanker.ranked * gmap string Z) e)
        by (unfold VectorRanker.add_vector_set; cbv zeta; by rewrite Hload).
      apply foldl_add_vector_set_error.
Qed.

Lemma filter_all {A} (p : A → bool) (l : list A) :
  (∀ x, x ∈ l → p x = true) → List.filter p l = l.
Proof.
  induction l as [|x l IH]; [done|]. intros Hall. cbn [List.filter].
  rewrite (Hall x) by apply list_elem_of_here. f_equal. apply IH.
  intros y Hy. apply Hall. by apply list_elem_of_further.
Qed.

Lemma listing_ext (rows1 rows2 : string → list (string * Z)
                                  → list VectorRanker.ranked)
    (load : string → VectorRanker.loaded) (vector_sets : list string) :
  (∀ name vectors, rows1 name vectors = rows2 name vectors) →
  listing rows1 load vector_sets = listing rows2 load vector_sets.
Proof.
  intros Hrows. induction vector_sets as [|set sets IH]; [done|].
  cbn [listing]. destruct (load _); [|done]. by rewrite IH, Hrows.
Qed.

(** X24: with the style [overall] nothing is filtered out: every token of
    the listing is among the overall top.  When every member loads, the
    rows are [rows[0:cutoff]] of the full listing, that is of the rows of
    the first token set in full, then those of the second, and so on, the
    sets in the order of their keys; otherwise [process] ends with the
    exception of the first member that does not load. *)
Theorem overall_keeps_first_rows (cutoff : Z) (namelist : list string)
    (load : string → VectorRanker.loaded) :
  VectorRanker.results "overall" cutoff namelist load
  = match listing set_rows load (VectorRanker.sorted_names namelist) with
    | inl e => inl e
    | inr parts => inr (VectorRanker.slice_to cutoff (concat parts))
    end.
Proof.
  unfold VectorRanker.results.
  pose proof (foldl_add_vector_set "overall" cutoff load
                (VectorRanker.sorted_names namelist) [] ∅) as Hfold.
  rewrite (listing_ext (listed_rows "overall" cutoff) set_rows) in Hfold
    by done.
  destruct (listing set_rows load (VectorRanker.sorted_names namelist))
    as [e|parts].
  - by rewrite Hfold.
  - destruct Hfold as (top & -> & _ & Hin). cbn [fst snd app].
    change (String.eqb "overall" "overall") with true. cbv iota.
    rewrite filter_all; [done|].
    intros item Hitem. by apply bool_decide_eq_true_2, Hin.
Qed.

Lemma filter_take {A} (p : A → bool) (n : nat) (l : list A) :
  List.filter p (take n l)
  = take (length (List.filter p (take n l))) (List.filter p l).
Proof.
  revert n. induction l as [|x l IH]; intros [|n]; try done.
  cbn [take List.filter]. destruct (p x).
  - cbn [length take]. by rewrite <- IH.
  - apply IH.
Qed.

Lemma filter_length_le {A} (p : A → bool) (l : list A) :
  (length (List.filter p l) ≤ length l)%nat.
Proof.
  induction l as [|x l IH]; [done|]. cbn [List.filter].
  destruct (p x); cbn [length]; lia.
Qed.

Lemma listing_cut (cutoff : Z) (load : string → VectorRanker.loaded)
    (vector_sets : list string) :
  match listing set_rows load vector_sets with
  | inl e => listing (listed_rows "per-item" cutoff) load vector_sets = inl e
  | inr parts =>
      ∃ cuts,
        listing (listed_rows "per-item" cutoff) load vector_sets = inr cuts
        ∧ Forall2 (fun cut full =>
                     ∃ k, cut = take k full
                          ∧ (0 ≤ cutoff → (k ≤ Z.to_nat cutoff)%nat))
            cuts parts
  end.
Proof.
  induction vector_sets as [|set sets IH]; cbn [listing].
  - exists []. split; [done|]. constructor.
  - destruct (load (List.last (Str.split "/" set) "")) as [vectors|e];
      [|done].
    destruct (listing set_rows load sets) as [e|parts].
    + by rewrite IH.
    + destruct IH as (cuts & -> & Hcuts).
      eexists. split; [reflexivity|]. constructor; [|exact Hcuts].
      unfold listed_rows, set_rows, VectorRanker.slice_to.
      change (String.eqb "per-item" "per-item") with true. cbv iota.
      set (n := Z.to_nat _).
      set (p := fun vector : string * Z =>
                  negb (VectorRanker.blank_text vector.1)).
      set (l := VectorRanker.sorted_vectors vectors).
      exists (length (List.filter p (take n l))). split.
      * rewrite (filter_take p n l) at 1. by rewrite <- firstn_map.
      * intros Hcut. etrans; [apply filter_length_le|].
        rewrite length_take. subst n.
        destruct (Z.ltb_spec cutoff 0); lia.
Qed.

(** X25: with the style [per-item], when every member loads, each token
    set gives a leading part of its full rows, one set after the other in
    the order of their keys, and never more than [cutoff] of them when the
    cut-off is not negative: the cut is made before the blank tokens are
    dropped.  Otherwise [process] ends with the exception of the first
    member that does not load. *)
Theorem per_item_cuts_each_set (cutoff : Z) (namelist : list string)
    (load : string → VectorRanker.loaded) :
  match listing set_rows load (VectorRanker.sorted_names namelist) with
  | inl e => VectorRanker.results "per-item" cutoff namelist load = inl e
  | inr parts =>
      ∃ cuts,
        VectorRanker.results "per-item" cutoff namelist load
        = inr (concat cuts)
        ∧ Forall2 (fun cut full =>
                     ∃ k, cut = take k full
                          ∧ (0 ≤ cutoff → (k ≤ Z.to_nat cutoff)%nat))
            cuts parts
  end.
Proof.
  unfold VectorRanker.results.
  pose proof (foldl_add_vector_set "per-item" cutoff load
                (VectorRanker.sorted_names namelist) [] ∅) as Hfold.
  pose proof (listing_cut cutoff load (VectorRanker.sorted_names namelist))
    as Hcut.
  destruct (listing set_rows load (VectorRanker.sorted_names namelist))
    as [e|parts].
  - rewrite Hcut in Hfold. by rewrite Hfold.
  - destruct Hcut as (cuts & Hcuts & Hall). rewrite Hcuts in Hfold.
    destruct Hfold as (top & -> & _ & _).
    exists cuts. split; [reflexivity|exact Hall].
Qed.

(** ** [file_to_timestamp] *)

Lemma is_digit_plain (c : ascii) :
  is_digit c = true →
  Ascii.eqb "/" c = false ∧ Ascii.eqb "." c = false
  ∧ Ascii.eqb "-" c = false ∧ Ascii.eqb c "+" = false
  ∧ Ascii.eqb c "-" = false ∧ Ascii.eqb c "_" = false
  ∧ int_space c = false ∧ 0 ≤ digit c ≤ 9.
Proof.
  destruct c as [[] [] [] [] [] [] [] []]; vm_compute; intros Hc;
    try discriminate Hc; repeat split; congruence.
Qed.

Lemma digits_without (sep : ascii) (s : string) :
  (∀ c, is_digit c = true → Ascii.eqb sep c = false) →
  Str.forallb is_digit s = true → Str.existsb (Ascii.eqb sep) s = false.
Proof. intros Hsep. by apply forallb_not_existsb. Qed.

Lemma number_digits (s : string) (acc : Z) :
  Str.forallb is_digit s = true →
  number acc s
  = Some (fold_left (fun acc c => acc * 10 + digit c)
            (list_ascii_of_string s) acc).
Proof.
  revert acc. induction s as [|c s IH]; intros acc; [done|].
  cbn [Str.forallb number list_ascii_of_string fold_left].
  intros [Hc Hs]%andb_true_iff. rewrite Hc. by apply IH.
Qed.

Lemma int_of_digits (s : string) :
  Str.forallb is_digit s = true → s ≠ "" →
  int_of_str s = Some (decimal s).
Proof.
  destruct s as [|c s]; [done|]. cbn [Str.forallb].
  intros [Hc Hs]%andb_true_iff _.
  destruct (is_digit_plain c Hc) as (_ & _ & _ & Hp & Hm & _ & Hsp & _).
  unfold int_of_str. cbn [skip_space]. rewrite Hsp, Hp, Hm.
  unfold unsigned, decimal. rewrite Hc.
  cbn [list_ascii_of_string fold_left]. by rewrite number_digits.
Qed.

Lemma list_ascii_app (s t : string) :
  list_ascii_of_string (s +:+ t)
  = list_ascii_of_string s ++ list_ascii_of_string t.
Proof.
  induction s as [|c s IH]; [done|].
  rewrite str_app_cons. cbn [list_ascii_of_string]. by rewrite IH.
Qed.

Lemma decimal_bounds (s : string) (acc : Z) :
  Str.forallb is_digit s = true → 0 ≤ acc →
  0 ≤ fold_left (fun acc c => acc * 10 + digit c)
        (list_ascii_of_string s) acc.
Proof.
  revert acc. induction s as [|c s IH]; intros acc; [done|].
  cbn [Str.forallb list_ascii_of_string fold_left].
  intros [Hc Hs]%andb_true_iff Hacc. apply IH; [done|].
  destruct (is_digit_plain c Hc) as (_ & _ & _ & _ & _ & _ & _ & Hd). lia.
Qed.

(** A month in one or two digits, filled up to two. *)
Lemma zfill2_month (month : string) :
  Str.forallb is_digit month = true →
  (1 ≤ String.length month ≤ 2)%nat →
  Str.forallb is_digit (zfill2 month) = true
  ∧ 0 ≤ decimal month < 100
  ∧ ∀ acc, fold_left (fun acc c => acc * 10 + digit c)
             (list_ascii_of_string (zfill2 month)) acc
           = acc * 100 + decimal month.
Proof.
  destruct month as [|c [|d [|e month]]]; cbn [String.length]; try lia.
  - cbn [Str.forallb]. intros [Hc _]%andb_true_iff _.
    destruct (is_digit_plain c Hc) as (_ & _ & _ & Hp & Hm & _ & _ & Hd).
    unfold zfill2. rewrite Hp, Hm. cbn [orb Str.forallb]. rewrite Hc.
    unfold decimal. cbn [list_ascii_of_string fold_left].
    change (digit "0") with 0. repeat split; try done; try lia.
  - cbn [Str.forallb]. intros [Hc [Hd _]%andb_true_iff]%andb_true_iff _.
    destruct (is_digit_plain c Hc) as (_ & _ & _ & _ & _ & _ & _ & Hdc).
    destruct (is_digit_plain d Hd) as (_ & _ & _ & _ & _ & _ & _ & Hdd).
    unfold zfill2. cbn [Str.forallb]. rewrite Hc, Hd.
    unfold decimal. cbn [list_ascii_of_string fold_left].
    repeat split; try done; try lia.
Qed.

Lemma str_app_nil_r (s : string) : s +:+ "" = s.
Proof.
  induction s as [|c s IH]; [done|]. rewrite str_app_cons. by rewrite IH.
Qed.

Lemma timestamp_of_token_file (file year month : string) :
  token_file file year month →
  file_to_timestamp file = 100 * decimal year + decimal month
  ∧ 0 ≤ decimal year ∧ 0 ≤ decimal month < 100.
Proof.
  intros (Hyear & Hne & Hmonth & Hlen & dir & tail & -> & Hdir & Htail
          & Hslash).
  destruct (zfill2_month month Hmonth Hlen) as (Hfilled & Hbound & Hfill).
  assert (Str.existsb (Ascii.eqb "/") (year +:+ "-" +:+ month +:+ tail)
          = false) as Hname.
  { rewrite !str_existsb_app.
    rewrite (digits_without "/" year), (digits_without "/" month); try done;
      intros c Hc; by destruct (is_digit_plain c Hc) as (? & _). }
  assert (List.last (Str.split "/" (dir +:+ year +:+ "-" +:+ month +:+ tail))
            "" = year +:+ "-" +:+ month +:+ tail) as Hlast.
  { destruct Hdir as [->|[d ->]].
    - rewrite str_app_nil. by rewrite split_no_sep.
    - rewrite str_assoc. by apply last_segment. }
  assert (Str.existsb (Ascii.eqb ".") (year +:+ "-" +:+ month) = false)
    as Hdot.
  { rewrite !str_existsb_app.
    rewrite (digits_without "." year), (digits_without "." month); try done;
      intros c Hc; by destruct (is_digit_plain c Hc) as (_ & ? & _). }
  assert (hd "" (Str.split "." (year +:+ "-" +:+ month +:+ tail))
          = year +:+ "-" +:+ month) as Hhead.
  { destruct Htail as [->|[ext ->]].
    - replace (year +:+ "-" +:+ month +:+ "") with (year +:+ "-" +:+ month).
      + by rewrite split_no_sep.
      + by rewrite str_app_nil_r.
    - replace (year +:+ "-" +:+ month +:+ "." +:+ ext)
        with ((year +:+ "-" +:+ month) +:+ String "." ext)
        by (by rewrite !str_assoc).
      rewrite split_app_sep. by rewrite split_no_sep. }
  unfold file_to_timestamp. cbv zeta. rewrite Hlast, Hhead.
  replace (year +:+ "-" +:+ month) with (year +:+ String "-" month) by done.
  rewrite split_app_sep.
  rewrite (split_no_sep "-" year), (split_no_sep "-" month);
    try (apply digits_without; [|done]; intros c Hc;
         by destruct (is_digit_plain c Hc) as (_ & _ & ? & _)).
  cbn [app].
  rewrite int_of_digits.
  - cbn [default]. unfold decimal at 1. rewrite list_ascii_app, fold_left_app.
    rewrite Hfill. fold (decimal year). unfold id.
    split; [lia|]. split; [|done].
    by apply decimal_bounds.
  - by rewrite str_forallb_app, Hyear, Hfilled.
  - destruct year; [done|]. by rewrite str_app_cons.
Qed.

(** X26: for token files named [YEAR-MONTH], the year in digits and the
    month in one or two digits, in whatever folder and with or without an
    extension, [file_to_timestamp] is 100 times the year plus the month,
    so that the key of one file is below that of another exactly when it
    is of an earlier year, or of the same year and an earlier month. *)
Theorem file_to_timestamp_chronological
    (file1 year1 month1 file2 year2 month2 : string) :
  token_file file1 year1 month1 →
  token_file file2 year2 month2 →
  file_to_timestamp file1 = 100 * decimal year1 + decimal month1
  ∧ file_to_timestamp file2 = 100 * decimal year2 + decimal month2
  ∧ (file_to_timestamp file1 < file_to_timestamp file2
     ↔ decimal year1 < decimal year2
       ∨ (decimal year1 = decimal year2 ∧ decimal month1 < decimal month2)).
Proof.
  intros (-> & Hy1 & Hm1)%timestamp_of_token_file
         (-> & Hy2 & Hm2)%timestamp_of_token_file.
  repeat split; try done; lia.
Qed.

Lemma file_to_timestamp_chronological_witness :
  file_to_timestamp "tokens/2018-9.pb" = 100 * decimal "2018" + decimal "9"
  ∧ file_to_timestamp "tokens/2018-10.pb"
    = 100 * decimal "2018" + decimal "10"
  ∧ (file_to_timestamp "tokens/2018-9.pb"
     < file_to_timestamp "tokens/2018-10.pb"
     ↔ decimal "2018" < decimal "2018"
       ∨ (decimal "2018" = decimal "2018" ∧ decimal "9" < decimal "10")).
Proof.
  apply (file_to_timestamp_chronological
           "tokens/2018-9.pb" "2018" "9" "tokens/2018-10.pb" "2018" "10").
  - repeat split; try reflexivity; try done; try (cbn; lia).
    exists "tokens/", ".pb". repeat split; try reflexivity.
    + right. by exists "tokens".
    + right. by exists "pb".
  - repeat split; try reflexivity; try done; try (cbn; lia).
    exists "tokens/", ".pb". repeat split; try reflexivity.
    + right. by exists "tokens".
    + right. by exists "pb".
Defined.

Lemma split_parts (p : ascii → bool) (sep : ascii) (s : string) :
  Str.existsb p s = false →
  Forall (fun part => Str.existsb p part = false) (Str.split sep s).
Proof.
  induction s as [|c s IH]; cbn [Str.existsb Str.split].
  - intros _. by constructor.
  - intros [Hc Hs]%orb_false_iff. specialize (IH Hs).
    destruct (Ascii.eqb c sep); [by constructor|].
    destruct (Str.split sep s) as [|h t].
    + constructor; [|done]. cbn [Str.existsb]. by rewrite Hc.
    + inversion IH as [|? ? Hh Ht]; subst. constructor; [|done].
      cbn [Str.existsb]. by rewrite Hc, Hh.
Qed.

Lemma Forall_last {A} (P : A → Prop) (l : list A) (d : A) :
  P d → Forall P l → P (List.last l d).
Proof.
  intros Hd. induction 1 as [|x l Hx Hl IH]; [done|].
  destruct l as [|y l]; [done|]. exact IH.
Qed.

(** X27: a file name without a dash has no month, and [file_to_timestamp]
    answers 0 for it, whatever else the name holds. *)
Theorem file_to_timestamp_without_dash (file : string) :
  Str.existsb (Ascii.eqb "-") file = false →
  file_to_timestamp file = 0.
Proof.
  intros Hfile. unfold file_to_timestamp. cbv zeta.
  assert (Str.existsb (Ascii.eqb "-")
            (hd "" (Str.split "." (List.last (Str.split "/" file) "")))
          = false) as Hstem.
  { pose proof (Forall_last _ _ "" eq_refl
                  (split_parts (Ascii.eqb "-") "/" file Hfile)) as Hlast.
    cbv beta in Hlast.
    pose proof (split_parts (Ascii.eqb "-") "." _ Hlast) as Hparts.
    destruct (Str.split "." _) as [|h t]; [done|].
    by inversion Hparts. }
  by rewrite (split_no_sep _ _ Hstem).
Qed.

Lemma file_to_timestamp_without_dash_witness :
  file_to_timestamp "tokens/overall.pb" = 0.
Proof.
  apply (file_to_timestamp_without_dash "tokens/overall.pb"). reflexivity.
Defined.
